(** * The holiday calendar engine of [app/holidays.py]

    A shallow embedding of [HolidayBase], [createHolidaySum] and the
    [Colombia] calendar, with the parts of [datetime] and [dateutil] they
    call, and the properties of the calendar proved about it. *)

From Stdlib Require Import ZArith Lia String Ascii List Sorting.Sorted.
From stdpp Require Import gmap strings list fin_maps.

Local Open Scope string_scope.
Local Open Scope Z_scope.

(* ===================================================================== *)
(** * Exceptions *)
(* ===================================================================== *)

(** The exceptions the module raises or lets through.  [RecursionError]
    is what Python raises when the mutual recursion between [_populate]
    and [__keytransform__] exceeds the interpreter's depth; the model's
    fuel is that depth. *)
Inductive exn :=
| ValueError | TypeError | KeyError | AttributeError
| OverflowError | RecursionError.

Inductive result (A : Type) :=
| Ok (a : A)
| Raise (e : exn).
Arguments Ok {A} a.
Arguments Raise {A} e.

Definition rbind {A B} (r : result A) (k : A → result B) : result B :=
  match r with
  | Ok a => k a
  | Raise e => Raise e
  end.

(* ===================================================================== *)
(** * [datetime.date]

    A date is identified with its proleptic Gregorian ordinal
    ([date.toordinal()], 1 for 0001-01-01), the representation on which
    [datetime] itself does arithmetic, comparison and [weekday()]. *)
(* ===================================================================== *)

Module Date.

Definition MINYEAR : Z := 1.
Definition MAXYEAR : Z := 9999.
Definition MAXORDINAL : Z := 3652059.

(** [_is_leap] *)
Definition is_leap (year : Z) : bool :=
  (year mod 4 =? 0) && (negb (year mod 100 =? 0) || (year mod 400 =? 0)).

(** [_days_before_year] *)
Definition days_before_year (year : Z) : Z :=
  let y := year - 1 in
  y * 365 + y / 4 - y / 100 + y / 400.

(** [_DAYS_IN_MONTH] *)
Definition DAYS_IN_MONTH (month : Z) : Z :=
  match month with
  | 1 => 31 | 2 => 28 | 3 => 31 | 4 => 30 | 5 => 31 | 6 => 30
  | 7 => 31 | 8 => 31 | 9 => 30 | 10 => 31 | 11 => 30 | 12 => 31
  | _ => -1
  end.

(** [_DAYS_BEFORE_MONTH] *)
Definition DAYS_BEFORE_MONTH (month : Z) : Z :=
  match month with
  | 1 => 0 | 2 => 31 | 3 => 59 | 4 => 90 | 5 => 120 | 6 => 151
  | 7 => 181 | 8 => 212 | 9 => 243 | 10 => 273 | 11 => 304 | 12 => 334
  | _ => -1
  end.

(** [_days_in_month] *)
Definition days_in_month (year month : Z) : Z :=
  if (month =? 2) && is_leap year then 29 else DAYS_IN_MONTH month.

(** [_days_before_month] *)
Definition days_before_month (year month : Z) : Z :=
  DAYS_BEFORE_MONTH month + (if (2 <? month) && is_leap year then 1 else 0).

(** [_ymd2ord] *)
Definition ymd2ord (year month day : Z) : Z :=
  days_before_year year + days_before_month year month + day.

(** [_ord2ymd] *)
Definition ord2ymd (n0 : Z) : Z * Z * Z :=
  let n := n0 - 1 in
  let n400 := n / 146097 in
  let n := n mod 146097 in
  let year := n400 * 400 + 1 in
  let n100 := n / 36524 in
  let n := n mod 36524 in
  let n4 := n / 1461 in
  let n := n mod 1461 in
  let n1 := n / 365 in
  let n := n mod 365 in
  let year := year + n100 * 100 + n4 * 4 + n1 in
  if (n1 =? 4) || (n100 =? 4) then (year - 1, 12, 31)
  else
    let leapyear := (n1 =? 3) && (negb (n4 =? 24) || (n100 =? 3)) in
    let month := Z.shiftr (n + 50) 5 in
    let preceding :=
      DAYS_BEFORE_MONTH month + (if (2 <? month) && leapyear then 1 else 0) in
    if n <? preceding then
      let month := month - 1 in
      let preceding :=
        preceding
        - (DAYS_IN_MONTH month + (if (month =? 2) && leapyear then 1 else 0)) in
      (year, month, n - preceding + 1)
    else (year, month, n - preceding + 1).

(** A value of type [date]: an ordinal in [1, MAXORDINAL]. *)
Definition valid (d : Z) : Prop := 1 ≤ d ≤ MAXORDINAL.

(** An argument the constructor can take as a C [int]. *)
Definition fits_int (n : Z) : bool := (-2147483648 <=? n) && (n <=? 2147483647).

(** [date(year, month, day)]: the three arguments are first converted to
    C [int]s, which raises [OverflowError] for one that does not fit;
    then the constructor's range checks raise [ValueError]. *)
Definition date (year month day : Z) : result Z :=
  if negb (fits_int year && fits_int month && fits_int day)
  then Raise OverflowError
  else if (MINYEAR <=? year) && (year <=? MAXYEAR)
          && (1 <=? month) && (month <=? 12)
          && (1 <=? day) && (day <=? days_in_month year month)
  then Ok (ymd2ord year month day)
  else Raise ValueError.

(** [d.year] *)
Definition year (d : Z) : Z := fst (fst (ord2ymd d)).

(** [d.weekday()], Monday is 0 *)
Definition weekday (d : Z) : Z := (d + 6) mod 7.

(** [d + timedelta(days=n)] *)
Definition add_days (d n : Z) : result Z :=
  let o := d + n in
  if (0 <? o) && (o <=? MAXORDINAL) then Ok o else Raise OverflowError.

(** [(d2 - d1).days] *)
Definition sub (d2 d1 : Z) : Z := d2 - d1.

End Date.

(** [MON, TUE, WED, THU, FRI, SAT, SUN = range(7)] *)
Definition MON : Z := 0.
Definition TUE : Z := 1.
Definition WED : Z := 2.
Definition THU : Z := 3.
Definition FRI : Z := 4.
Definition SAT : Z := 5.
Definition SUN : Z := 6.

(** [WEEKEND = (SAT, SUN)], used through [in WEEKEND] only *)
Definition in_WEEKEND (wd : Z) : bool := (wd =? SAT) || (wd =? SUN).

Definition JAN : Z := 1.
Definition FEB : Z := 2.
Definition MAR : Z := 3.
Definition APR : Z := 4.
Definition MAY : Z := 5.
Definition JUN : Z := 6.
Definition JUL : Z := 7.
Definition AUG : Z := 8.
Definition SEP : Z := 9.
Definition OCT : Z := 10.
Definition NOV : Z := 11.
Definition DEC : Z := 12.

(* ===================================================================== *)
(** * [dateutil]: [easter] and [relativedelta] *)
(* ===================================================================== *)

(** [dateutil.easter.easter(year)] with the default method
    [EASTER_WESTERN = 3]. *)
Definition easter (y : Z) : result Z :=
  let g := y mod 19 in
  let e := 0 in
  let c := y / 100 in
  let h := (c - c / 4 - (8 * c + 13) / 25 + 19 * g + 15) mod 30 in
  let i := h - (h / 28) * (1 - (h / 28) * (29 / (h + 1)) * ((21 - g) / 11)) in
  let j := (y + y / 4 + i + 2 - c + c / 4) mod 7 in
  let p := i - j + e in
  let d := 1 + (p + 27 + (p + 6) / 40) mod 31 in
  let m := 3 + (p + 26) / 30 in
  Date.date y m d.

(** [relativedelta(days=.., weekday=..)]: the two fields this module
    sets; [weekday] is a weekday with its occurrence count, [MO] being
    [(0, None)] and [TH(-1)] being [(3, Some (-1))]. *)
Record relativedelta := rd {
  rd_days : Z;
  rd_weekday : option (Z * option Z)
}.

Definition MO : Z * option Z := (0, None).
Definition TH (n : Z) : Z * option Z := (3, Some n).
Definition FR (n : Z) : Z * option Z := (4, Some n).

(** [dt + relativedelta]: the day offset is applied first, then the jump
    to the requested weekday ([relativedelta.__add__]). *)
Definition add_rd (dt : Z) (r : relativedelta) : result Z :=
  rbind (Date.add_days dt (rd_days r)) (λ ret,
    match rd_weekday r with
    | None => Ok ret
    | Some (weekday, n) =>
        let nth := match n with Some k => if k =? 0 then 1 else k | None => 1 end in
        let jumpdays := (Z.abs nth - 1) * 7 in
        let jumpdays :=
          if 0 <? nth
          then jumpdays + (7 - Date.weekday ret + weekday) mod 7
          else (jumpdays + (Date.weekday ret - weekday) mod 7) * -1 in
        Date.add_days ret jumpdays
    end).

(* ===================================================================== *)
(** * [str]: [find], [split] *)
(* ===================================================================== *)

(** Holiday names are kept as the UTF-8 bytes of the source text; whether
    one text occurs in another is the same on bytes and on code points. *)

(** [s.find(sub)]: the lowest index where [sub] occurs in [s], or -1. *)
Fixpoint find (s sub : string) : Z :=
  if String.prefix sub s then 0
  else match s with
       | EmptyString => -1
       | String _ s' => let r := find s' sub in if r <? 0 then -1 else r + 1
       end.

Fixpoint drop_str (n : nat) (s : string) : string :=
  match n, s with
  | O, _ => s
  | S n', String _ s' => drop_str n' s'
  | S _, EmptyString => EmptyString
  end.

(** [s.split(sep)] for a non-empty separator, scanning left to right;
    [skip] counts the characters of a separator still to be dropped and
    [acc] holds the current piece, reversed. *)
Fixpoint split_aux (sep : string) (skip : nat) (acc : string) (s : string)
  : list string :=
  match skip with
  | S k => match s with
           | EmptyString => [String.rev acc]
           | String _ s' => split_aux sep k acc s'
           end
  | O =>
    match s with
    | EmptyString => [String.rev acc]
    | String c s' =>
        if String.prefix sep s
        then String.rev acc :: split_aux sep (String.length sep - 1) EmptyString s'
        else split_aux sep O (String c acc) s'
    end
  end.

Definition split (s sep : string) : list string := split_aux sep O EmptyString s.


(* ===================================================================== *)
(** * Objects *)
(* ===================================================================== *)

(** The values the [country], [prov] and [state] attributes take. *)
Inductive pyval :=
| PNone
| PStr (s : string)
| PList (l : list string).

#[global] Instance pyval_eq_dec : EqDecision pyval.
Proof. solve_decision. Defined.

(** Truth value of an attribute in [if x] and [x or y]. *)
Definition truthy (v : pyval) : bool :=
  match v with
  | PNone => false
  | PStr s => negb (bool_decide (s = ""))
  | PList l => negb (bool_decide (l = []))
  end.

Definition py_or (a b : pyval) : pyval := if truthy a then a else b.

(** [x if isinstance(x, list) else [x]] *)
Definition as_list (v : pyval) : list string :=
  match v with
  | PList l => l
  | PStr s => [s]
  | PNone => []
  end.

(** The classes of the module; [CO] is [Colombia] under another name. *)
Inductive class := HolidayBaseC | ColombiaC | HolidaySumC.

#[global] Instance class_eq_dec : EqDecision class.
Proof. solve_decision. Defined.

(** A calendar object: the [dict] it is ([data]) and its attributes.
    [country] is [None] on an object that never had the attribute set (a
    plain [HolidayBase]); [holidays], which only a [HolidaySum] has, lists
    its constituents as references into the store, and is empty on the
    other classes, where [getattr(h, "holidays", False)] is false. *)
Record calendar := Calendar {
  data : gmap Z string;
  years : gset Z;
  expand : bool;
  observed : bool;
  prov : pyval;
  state : pyval;
  country : option pyval;
  cls : class;
  holidays : list nat
}.

Definition set_data (f : gmap Z string → gmap Z string) (c : calendar) :=
  Calendar (f (data c)) (years c) (expand c) (observed c) (prov c) (state c)
           (country c) (cls c) (holidays c).
Definition set_years (f : gset Z → gset Z) (c : calendar) :=
  Calendar (data c) (f (years c)) (expand c) (observed c) (prov c) (state c)
           (country c) (cls c) (holidays c).
Definition set_observed_attr (b : bool) (c : calendar) :=
  Calendar (data c) (years c) (expand c) b (prov c) (state c)
           (country c) (cls c) (holidays c).
Definition set_country (v : option pyval) (c : calendar) :=
  Calendar (data c) (years c) (expand c) (observed c) (prov c) (state c)
           v (cls c) (holidays c).
Definition set_holidays (f : list nat → list nat) (c : calendar) :=
  Calendar (data c) (years c) (expand c) (observed c) (prov c) (state c)
           (country c) (cls c) (f (holidays c)).

(** The object a method runs on, and the store of the objects it can
    reach: the constituents of a [HolidaySum] are shared with whoever
    else holds them, so they are updated in place in [objs]. *)
Record world := World {
  self : calendar;
  objs : list calendar
}.

(** Methods: state passing over the world, with exceptions. *)
Definition M (A : Type) : Type := world → result (A * world).

Definition ret {A} (a : A) : M A := λ w, Ok (a, w).
Definition bind {A B} (m : M A) (k : A → M B) : M B :=
  λ w, match m w with
       | Ok (a, w') => k a w'
       | Raise e => Raise e
       end.
Definition raise {A} (e : exn) : M A := λ _, Raise e.
Definition lift {A} (r : result A) : M A :=
  λ w, match r with Ok a => Ok (a, w) | Raise e => Raise e end.
Definition gets {A} (f : calendar → A) : M A := λ w, Ok (f (self w), w).
Definition modify (f : calendar → calendar) : M unit :=
  λ w, Ok (tt, World (f (self w)) (objs w)).

Notation "'let*' x ':=' e 'in' k" := (bind e (λ x, k))
  (at level 10, x pattern, e at level 100, k at level 200).
Notation "e1 ';;' e2" := (bind e1 (λ _, e2))
  (at level 100, e2 at level 200, right associativity).

(** [for x in l: body] *)
Fixpoint for_ {A} (l : list A) (body : A → M unit) : M unit :=
  match l with
  | [] => ret tt
  | x :: l' => body x ;; for_ l' body
  end.

(** Run a method on the constituent [objs[i]], writing the object back. *)
Definition on_obj {A} (i : nat) (m : M A) : M A :=
  λ w, match objs w !! i with
       | None => Raise AttributeError
       | Some h =>
           match m (World h (objs w)) with
           | Ok (a, w') => Ok (a, World (self w) (<[i := self w']> (objs w')))
           | Raise e => Raise e
           end
       end.

(* ===================================================================== *)
(** * [HolidayBase] *)
(* ===================================================================== *)

(** The arguments of [update]. *)
Inductive update_arg :=
| ADict (m : gmap Z string)
| AList (l : list Z)
| AKey (k : Z).

(** The [step] of a slice. *)
Inductive step_arg :=
| StepNone
| StepDelta (days : Z)
| StepInt (n : Z)
| StepOther.

(** [range(0, stop, step)] for a non-zero [step]. *)
Definition py_range0 (stop step : Z) : list Z :=
  let len :=
    if 0 <? step then (stop + step - 1) / step
    else (- stop - step - 1) / (- step) in
  (λ i, step * Z.of_nat i) <$> seq 0 (Z.to_nat len).

(** The loop of [__getitem__] on a slice: [acc] is [days_in_range], and
    a day that is not a key of the [dict] is skipped ([KeyError] caught). *)
Fixpoint days_in_range (start : Z) (deltas : list Z) (acc : list Z)
  : M (list Z) :=
  match deltas with
  | [] => ret acc
  | delta_days :: deltas' =>
      let* day := lift (Date.add_days start delta_days) in
      let* d := gets data in
      match d !! day with
      | Some _ => days_in_range start deltas' (acc ++ [day])%list
      | None => days_in_range start deltas' acc
      end
  end.

Section HolidayBase.

(** [self._populate], as the methods below see it: the method of the
    object's own class, one call deeper. *)
Variable _populate : Z → M unit.

(** [__keytransform__], on a key that is a [date] (the other kinds of
    key are turned into a date, or rejected, before the year test). *)
Definition keytransform (key : Z) : M Z :=
  let* c := gets id in
  if expand c && negb (bool_decide (Date.year key ∈ years c)) then
    modify (set_years (λ ys, {[Date.year key]} ∪ ys)) ;;
    _populate (Date.year key) ;;
    ret key
  else ret key.

(** [__contains__] *)
Definition contains (key : Z) : M bool :=
  let* k := keytransform key in
  let* d := gets data in
  ret (bool_decide (is_Some (d !! k))).

(** [get]: [None] is Python's [None]. *)
Definition get (key : Z) (default : option string) : M (option string) :=
  let* k := keytransform key in
  let* d := gets data in
  ret (match d !! k with Some v => Some v | None => default end).

(** [self.get(key)] where the text is used as a [str]: on [None] the
    attribute access or the formatting that follows fails. *)
Definition get_text (key : Z) : M string :=
  let* v := get key None in
  match v with
  | Some s => ret s
  | None => raise AttributeError
  end.

(** [__setitem__] *)
Definition setitem (key : Z) (value : string) : M unit :=
  let* present := contains key in
  let* value :=
    if present then
      let* e1 := get_text key in
      let* both :=
        if find e1 value <? 0
        then let* e2 := get_text key in ret (find value e2 <? 0)
        else ret false in
      if both
      then let* e3 := get_text key in ret (value +:+ ", " +:+ e3)
      else get_text key
    else ret value in
  let* k := keytransform key in
  modify (set_data (λ d, <[k := value]> d)).

(** [update] *)
Definition update (args : list update_arg) : M unit :=
  for_ args (λ arg,
    match arg with
    | ADict m => for_ (map_to_list m) (λ '(key, value), setitem key value)
    | AList l => for_ l (λ item, setitem item "Holiday")
    | AKey k => setitem k "Holiday"
    end).

(** [append] *)
Definition append (args : list update_arg) : M unit := update args.

(** [get_list] *)
Definition get_list (key : Z) : M (list string) :=
  let* v := get key (Some "") in
  match v with
  | Some s => ret (filter (λ h, h ≠ "") (split s ", "))
  | None => raise AttributeError
  end.

(** [pop] *)
Definition pop (key : Z) (default : option string) : M string :=
  let* k := keytransform key in
  let* d := gets data in
  match d !! k, default with
  | Some v, _ => modify (set_data (delete k)) ;; ret v
  | None, Some v => ret v
  | None, None => raise KeyError
  end.

(** [__getitem__] on a slice [self[start:stop:step]]; a bound that is
    not given is [None]. *)
Definition getitem_slice (start stop : option Z) (step : step_arg)
  : M (list Z) :=
  match start, stop with
  | Some start, Some stop =>
      let* start := keytransform start in
      let* stop := keytransform stop in
      let* step :=
        match step with
        | StepNone => ret 1
        | StepDelta days => ret days
        | StepInt n => ret n
        | StepOther => raise TypeError
        end in
      if step =? 0 then raise ValueError
      else
        let date_diff := Date.sub stop start in
        let step :=
          if ((date_diff <? 0) && (0 <=? step))
             || ((0 <=? date_diff) && (step <? 0))
          then step * -1 else step in
        days_in_range start (py_range0 date_diff step) []
  | _, _ => raise ValueError
  end.

(** [__getitem__] on a single key *)
Definition getitem (key : Z) : M string :=
  let* k := keytransform key in
  let* d := gets data in
  match d !! k with
  | Some v => ret v
  | None => raise KeyError
  end.

(** [__setattr__] for [key == "observed"] *)
Definition setattr_observed (value : bool) : M unit :=
  let* c := gets id in
  if 0 <? Z.of_nat (size (data c)) then
    modify (set_observed_attr value) ;;
    if value then
      let years := elements (years c) in
      modify (set_years (λ _, ∅)) ;;
      modify (set_data (λ _, ∅)) ;;
      for_ years (λ year, _populate year)
    else
      for_ (map_to_list (data c)) (λ '(k, v),
        if 0 <=? find v "Observed"
        then modify (set_data (delete k))
        else ret tt)
  else modify (set_observed_attr value).

(** [HolidayBase.__init__], on an object whose class and [country] are
    set; [years] is the set built from the argument. *)
Definition HolidayBase_init (ys : gset Z) (expand_arg observed_arg : bool)
    (prov_arg state_arg : pyval) : M unit :=
  modify (λ c, Calendar (data c) ys expand_arg observed_arg
                        (if truthy (prov c) then prov c else prov_arg)
                        state_arg (country c) (cls c) (holidays c)) ;;
  for_ (elements ys) (λ year, _populate year).

End HolidayBase.

(* ===================================================================== *)
(** * [Colombia] *)
(* ===================================================================== *)

Section Colombia.

Variable _populate : Z → M unit.

(** The statement of the guarded fixed-date holidays:
    [if self.observed and date(..).weekday() in WEEKEND: pass
     else: self[date(..)] = name] *)
Definition unless_weekend (year month day : Z) (name : string) : M unit :=
  let* obs := gets observed in
  let* skip :=
    if obs
    then let* d := lift (Date.date year month day) in
         ret (in_WEEKEND (Date.weekday d))
    else ret false in
  if skip then ret tt
  else let* d := lift (Date.date year month day) in
       setitem _populate d name.

(** The statement of the Emiliani-law holidays, [hdate] being the raw
    date:
    [if hdate.weekday() == MON or not self.observed: self[hdate] = name
     else: self[hdate + rd(weekday=MO)] = name + "(Observed)"] *)
Definition emiliani (hdate : result Z) (name : string) : M unit :=
  let* d := lift hdate in
  let* obs := gets observed in
  if (Date.weekday d =? MON) || negb obs
  then let* d := lift hdate in
       setitem _populate d name
  else let* d := lift hdate in
       let* m := lift (add_rd d (rd 0 (Some MO))) in
       setitem _populate m (name +:+ "(Observed)").

(** [easter(year) + rd(..)] *)
Definition easter_plus (year : Z) (r : relativedelta) : result Z :=
  rbind (easter year) (λ e, add_rd e r).

(** [Colombia._populate] *)
Definition Colombia_populate (year : Z) : M unit :=
  (* New Year's Day *)
  unless_weekend year JAN 1 "Año Nuevo [New Year's Day]" ;;
  (* Labor Day *)
  (let* d := lift (Date.date year MAY 1) in
   setitem _populate d "Día del Trabajo [Labour Day]") ;;
  (* Independence Day *)
  unless_weekend year JUL 20 "Día de la Independencia [Independence Day]" ;;
  (* Battle of Boyaca *)
  (let* d := lift (Date.date year AUG 7) in
   setitem _populate d "Batalla de Boyacá [Battle of Boyacá]") ;;
  (* Immaculate Conception *)
  unless_weekend year DEC 8
    ("La Inmaculada Concepción" +:+ " [Immaculate Conception]") ;;
  (* Christmas *)
  (let* d := lift (Date.date year DEC 25) in
   setitem _populate d "Navidad [Christmas]") ;;
  (* Epiphany *)
  emiliani (Date.date year JAN 6) "Día de los Reyes Magos [Epiphany]" ;;
  (* Saint Joseph's Day *)
  emiliani (Date.date year MAR 19) "Día de San José [Saint Joseph's Day]" ;;
  (* Saint Peter and Saint Paul's Day *)
  emiliani (Date.date year JUN 29)
    "San Pedro y San Pablo [Saint Peter and Saint Paul]" ;;
  (* Assumption of Mary *)
  emiliani (Date.date year AUG 15) "La Asunción [Assumption of Mary]" ;;
  (* Discovery of America *)
  emiliani (Date.date year OCT 12)
    "Descubrimiento de América [Discovery of America]" ;;
  (* All Saints' Day *)
  emiliani (Date.date year NOV 1) "Dia de Todos los Santos [All Saint's Day]" ;;
  (* Independence of Cartagena *)
  emiliani (Date.date year NOV 11)
    "Independencia de Cartagena [Independence of Cartagena]" ;;
  (* Maundy Thursday *)
  (let* d := lift (easter_plus year (rd 0 (Some (TH (-1))))) in
   setitem _populate d "Jueves Santo [Maundy Thursday]") ;;
  (* Good Friday *)
  (let* d := lift (easter_plus year (rd 0 (Some (FR (-1))))) in
   setitem _populate d "Viernes Santo [Good Friday]") ;;
  (* Ascension of Jesus *)
  emiliani (easter_plus year (rd 39 None))
    "Ascensión del señor [Ascension of Jesus]" ;;
  (* Corpus Christi *)
  emiliani (easter_plus year (rd 60 None)) "Corpus Christi [Corpus Christi]" ;;
  (* Sacred Heart *)
  emiliani (easter_plus year (rd 68 None)) "Sagrado Corazón [Sacred Heart]".

End Colombia.

(* ===================================================================== *)
(** * [createHolidaySum] *)
(* ===================================================================== *)

(** [HolidaySum._populate]: [h._populate(year)] runs the method of the
    constituent's own class on the constituent, then the constituent's
    items are merged into [self]. *)
Definition HolidaySum_populate (_populate : Z → M unit) (year : Z) : M unit :=
  let* hs := gets holidays in
  for_ (rev hs) (λ i,
    on_obj i (_populate year) ;;
    let* h := on_obj i (gets id) in
    update _populate [ADict (data h)]).

(** [_populate], dispatched on the class of [self].  The fuel bounds the
    depth of the calls of [_populate] from inside [_populate] (through
    [__keytransform__], or from a [HolidaySum] into its constituents). *)
Fixpoint populate (fuel : nat) (year : Z) : M unit :=
  match fuel with
  | O => raise RecursionError
  | S n =>
      let* k := gets cls in
      match k with
      | HolidayBaseC => ret tt
      | ColombiaC => Colombia_populate (populate n) year
      | HolidaySumC => HolidaySum_populate (populate n) year
      end
  end.

(** An object on which no attribute has been set yet. *)
Definition blank (k : class) : calendar :=
  Calendar ∅ ∅ true true PNone PNone None k [].

(** Creating an object of class [k] and running its [__init__], with
    [st] the objects that exist already. *)
Definition new (k : class) (init : M unit) (st : list calendar) : result world :=
  match init (World (blank k) st) with
  | Ok (_, w) => Ok w
  | Raise e => Raise e
  end.

(** [HolidayBase(years, expand, observed, prov, state)] *)
Definition HolidayBase_new (fuel : nat) (ys : list Z) (expand observed : bool)
    (prov state : pyval) : list calendar → result world :=
  new HolidayBaseC
      (HolidayBase_init (populate fuel) (list_to_set ys) expand observed
                        prov state).

(** [Colombia.__init__] *)
Definition Colombia_init (fuel : nat) (ys : list Z) (expand observed : bool)
    (prov state : pyval) : M unit :=
  modify (set_country (Some (PStr "CO"))) ;;
  HolidayBase_init (populate fuel) (list_to_set ys) expand observed prov state.

(** [Colombia(years, expand, observed, prov, state)], also [CO(..)] *)
Definition Colombia_new (fuel : nat) (ys : list Z) (expand observed : bool)
    (prov state : pyval) : list calendar → result world :=
  new ColombiaC (Colombia_init fuel ys expand observed prov state).

(** [HolidaySum.__init__], for the class made by
    [createHolidaySum(h1, h2)]. *)
Definition HolidaySum_init (fuel : nat) (h1 h2 : nat) (country : pyval)
    (ys : gset Z) (expand observed : bool) (prov : pyval) : M unit :=
  modify (set_country (Some country)) ;;
  modify (set_holidays (λ _, [])) ;;
  (let* o1 := on_obj h1 (gets id) in
   if negb (bool_decide (holidays o1 = []))
   then for_ (holidays o1) (λ h, modify (set_holidays (λ l, l ++ [h])%list))
   else modify (set_holidays (λ l, l ++ [h1])%list)) ;;
  (let* o2 := on_obj h2 (gets id) in
   if negb (bool_decide (holidays o2 = []))
   then for_ (holidays o2) (λ h, modify (set_holidays (λ l, l ++ [h])%list))
   else modify (set_holidays (λ l, l ++ [h2])%list)) ;;
  HolidayBase_init (populate fuel) ys expand observed prov PNone.

(** The right operand of [+]. *)
Inductive operand :=
| OInt (n : Z)
| OCal (ref : nat)
| OOther.

(** [self.country], which fails on an object without the attribute. *)
Definition country_attr (c : calendar) : result pyval :=
  match country c with
  | Some v => Ok v
  | None => Raise AttributeError
  end.

(** [__add__]: [self] is the object [st[i]]; the result is a reference
    into the returned store, [i] itself when [other] is 0 and the place
    of the new [HolidaySum] otherwise. *)
Definition add (fuel : nat) (st : list calendar) (i : nat) (other : operand)
  : result (nat * list calendar) :=
  match other with
  | OInt 0 => Ok (i, st)
  | OInt _ | OOther => Raise TypeError
  | OCal j =>
      match st !! i, st !! j with
      | Some a, Some b =>
          let country_arg :=
            py_or (default PNone (country a)) (default PNone (country b)) in
          rbind (country_attr a) (λ c1,
          rbind (if truthy c1
                 then rbind (country_attr b) (λ c2,
                        Ok (truthy c2 && negb (bool_decide (c1 = c2))))
                 else Ok false) (λ differ,
          let country_arg :=
            if differ
            then PList (as_list c1 ++ as_list (default PNone (country b)))
            else country_arg in
          let prov_arg :=
            if truthy (prov a) && truthy (prov b)
               && negb (bool_decide (prov a = prov b))
            then PList (as_list (prov a) ++ as_list (prov b))
            else py_or (prov a) (prov b) in
          rbind (new HolidaySumC
                   (HolidaySum_init fuel i j country_arg
                      (years a ∪ years b)
                      (expand a || expand b)
                      (observed a || observed b) prov_arg) st) (λ w,
          Ok (length (objs w), (objs w ++ [self w])%list))))
      | _, _ => Raise AttributeError
      end
  end.

(** [__radd__] *)
Definition radd (fuel : nat) (st : list calendar) (i : nat) (other : operand)
  : result (nat * list calendar) :=
  add fuel st i other.

(** [sum(hs)]: the fold of [+] from 0 over objects given by reference;
    [0 + h] is answered by [h.__radd__(0)]. *)
Definition pysum (fuel : nat) (st : list calendar) (hs : list nat)
  : result (option nat * list calendar) :=
  foldl (λ acc h,
           rbind acc (λ '(total, st),
             match total with
             | None => rbind (radd fuel st h (OInt 0)) (λ '(r, st'), Ok (Some r, st'))
             | Some t => rbind (add fuel st t (OCal h)) (λ '(r, st'), Ok (Some r, st'))
             end))
        (Ok (None, st)) hs.

(* ===================================================================== *)
(** * What the methods compute *)
(* ===================================================================== *)

(** The text [__setitem__] stores over an existing text [e] when given
    [v]. *)
Definition merge (e v : string) : string :=
  if (find e v <? 0) && (find v e <? 0) then v +:+ ", " +:+ e else e.

(** The effect of [__setitem__] on the mapping. *)
Definition insert1 (k : Z) (v : string) (d : gmap Z string) : gmap Z string :=
  <[k := match d !! k with Some e => merge e v | None => v end]> d.

Definition inserts (l : list (Z * string)) (d : gmap Z string)
  : gmap Z string :=
  foldl (λ d '(k, v), insert1 k v d) d l.

(** The years [date] accepts. *)
Definition valid_year (y : Z) : Prop := Date.MINYEAR ≤ y ≤ Date.MAXYEAR.

(** The attributes no method but [__init__] and the [observed] setter
    changes, and the set of years, which only grows. *)
Definition same_attrs (c c' : calendar) : Prop :=
  expand c' = expand c ∧ observed c' = observed c ∧ prov c' = prov c ∧
  state c' = state c ∧ country c' = country c ∧ cls c' = cls c ∧
  holidays c' = holidays c ∧ years c ⊆ years c'.

Definition ext (w w' : world) : Prop :=
  same_attrs (self w) (self w') ∧ length (objs w') = length (objs w).

Definition M_ext {A} (m : M A) : Prop :=
  ∀ w a w', m w = Ok (a, w') → ext w w'.

(** No lazy population happens for [key] in [w]. *)
Definition settled (w : world) (key : Z) : Prop :=
  expand (self w) && negb (bool_decide (Date.year key ∈ years (self w))) = false.

#[global] Instance settled_dec w key : Decision (settled w key).
Proof. unfold settled. apply _. Defined.

(** [w] once [year] is recorded in [years]. *)
Definition with_year (year : Z) (w : world) : world :=
  World (set_years (λ ys, {[year]} ∪ ys) (self w)) (objs w).

(* ===================================================================== *)
(** * The holidays of [Colombia._populate] as a table *)
(* ===================================================================== *)

(** The first and the last day of a year. *)
Definition first_day (y : Z) : Z := Date.days_before_year y + 1.
Definition last_day (y : Z) : Z := Date.days_before_year (y + 1).

(** The value of [easter(year)] for a year [date] accepts. *)
Definition easter_ord (y : Z) : Z :=
  let g := y mod 19 in
  let c := y / 100 in
  let h := (c - c / 4 - (8 * c + 13) / 25 + 19 * g + 15) mod 30 in
  let i := h - (h / 28) * (1 - (h / 28) * (29 / (h + 1)) * ((21 - g) / 11)) in
  let j := (y + y / 4 + i + 2 - c + c / 4) mod 7 in
  let p := i - j + 0 in
  let d := 1 + (p + 27 + (p + 6) / 40) mod 31 in
  let m := 3 + (p + 26) / 30 in
  Date.ymd2ord y m d.

(** [d + rd(weekday=MO)]: the first Monday on or after [d]. *)
Definition next_monday (d : Z) : Z := d + (7 - Date.weekday d) mod 7.

(** [d + rd(weekday=X(-1))]: the last weekday [wd] on or before [d]. *)
Definition weekday_on_or_before (wd d : Z) : Z := d - (Date.weekday d - wd) mod 7.

(** The three shapes of statement in [Colombia._populate]: inserted
    unconditionally; skipped on a week-end when [observed]; moved to the
    next Monday when [observed] (Emiliani law). *)
Inductive rule := Unconditional | StrictWeekend | MovedToMonday.

(** The statements of [Colombia._populate] in order: shape, raw date and
    name. *)
Definition Colombia_table (year : Z) : list (rule * Z * string) :=
  [ (StrictWeekend, Date.ymd2ord year JAN 1, "Año Nuevo [New Year's Day]");
    (Unconditional, Date.ymd2ord year MAY 1, "Día del Trabajo [Labour Day]");
    (StrictWeekend, Date.ymd2ord year JUL 20,
       "Día de la Independencia [Independence Day]");
    (Unconditional, Date.ymd2ord year AUG 7,
       "Batalla de Boyacá [Battle of Boyacá]");
    (StrictWeekend, Date.ymd2ord year DEC 8,
       "La Inmaculada Concepción [Immaculate Conception]");
    (Unconditional, Date.ymd2ord year DEC 25, "Navidad [Christmas]");
    (MovedToMonday, Date.ymd2ord year JAN 6, "Día de los Reyes Magos [Epiphany]");
    (MovedToMonday, Date.ymd2ord year MAR 19,
       "Día de San José [Saint Joseph's Day]");
    (MovedToMonday, Date.ymd2ord year JUN 29,
       "San Pedro y San Pablo [Saint Peter and Saint Paul]");
    (MovedToMonday, Date.ymd2ord year AUG 15, "La Asunción [Assumption of Mary]");
    (MovedToMonday, Date.ymd2ord year OCT 12,
       "Descubrimiento de América [Discovery of America]");
    (MovedToMonday, Date.ymd2ord year NOV 1,
       "Dia de Todos los Santos [All Saint's Day]");
    (MovedToMonday, Date.ymd2ord year NOV 11,
       "Independencia de Cartagena [Independence of Cartagena]");
    (Unconditional, weekday_on_or_before THU (easter_ord year),
       "Jueves Santo [Maundy Thursday]");
    (Unconditional, weekday_on_or_before FRI (easter_ord year),
       "Viernes Santo [Good Friday]");
    (MovedToMonday, easter_ord year + 39,
       "Ascensión del señor [Ascension of Jesus]");
    (MovedToMonday, easter_ord year + 60, "Corpus Christi [Corpus Christi]");
    (MovedToMonday, easter_ord year + 68, "Sagrado Corazón [Sacred Heart]") ].

(** What a statement inserts: nothing, or one key with its label. *)
Definition entry_of (obs : bool) (r : rule * Z * string) : list (Z * string) :=
  let '(shape, d, name) := r in
  match shape with
  | Unconditional => [(d, name)]
  | StrictWeekend =>
      if obs && in_WEEKEND (Date.weekday d) then [] else [(d, name)]
  | MovedToMonday =>
      if (Date.weekday d =? MON) || negb obs then [(d, name)]
      else [(next_monday d, name +:+ "(Observed)")]
  end.

(** The keys and labels [Colombia._populate(year)] passes to
    [__setitem__], in order. *)
Definition Colombia_entries (obs : bool) (year : Z) : list (Z * string) :=
  flat_map (entry_of obs) (Colombia_table year).

(** A method that amounts to inserting what the rows [rows] give. *)
Definition runs (hook : Z → M unit) (m : M unit)
    (rows : list (rule * Z * string)) : Prop :=
  ∀ w, m w = for_ (flat_map (entry_of (observed (self w))) rows)
                  (λ '(k, v), setitem hook k v) w.

(** [sub] occurs in [s]. *)
Definition occurs (sub s : string) : Prop := ∃ a b, s = a +:+ sub +:+ b.

(** The names in the table of [Colombia._populate]. *)
Definition Colombia_names : list string := (λ r, r.2) <$> Colombia_table 0.

(** [v] is a label [Colombia._populate] can store under the key [k]. *)
Definition label_at (k : Z) (v : string) : Prop :=
  ∃ obs y, In (k, v) (Colombia_entries obs y).

(** A mapping into which only [Colombia._populate] has inserted: no text
    stored under a key is a proper part of a label of that key. *)
Definition populated_only (d : gmap Z string) : Prop :=
  ∀ k e v, d !! k = Some e → label_at k v → occurs e v → occurs v e.

(** What is checked, by evaluation, of the names of the table: among
    the plain names and the names with ["(Observed)"] appended, one
    occurs in another only if they are the same label; and no label
    holds the separator. *)
Definition names_apart (N N' : string) : bool :=
  implb (0 <=? find N' N) (bool_decide (N = N'))
  && implb (0 <=? find (N' +:+ "(Observed)") (N +:+ "(Observed)"))
           (bool_decide (N = N'))
  && (find N' (N +:+ "(Observed)") <? 0)
  && implb (0 <=? find (N' +:+ "(Observed)") N) (bool_decide (N = N')).

Definition names_check : bool :=
  forallb (λ N, forallb (names_apart N) Colombia_names
                && (find N ", " <? 0)
                && (find (N +:+ "(Observed)") ", " <? 0))
          Colombia_names.

(** What the loop of the [observed] setter leaves of a mapping when the
    value is not [True]. *)
Definition drop_observed (d : gmap Z string) : gmap Z string :=
  filter (λ kv, find kv.2 "Observed" < 0) d.

(** One step of [sum]: [total + h]. *)
Definition sum_step (fuel : nat) (acc : result (option nat * list calendar))
    (h : nat) : result (option nat * list calendar) :=
  rbind acc (λ '(total, st),
    match total with
    | None => rbind (radd fuel st h (OInt 0)) (λ '(r, st'), Ok (Some r, st'))
    | Some t => rbind (add fuel st t (OCal h)) (λ '(r, st'), Ok (Some r, st'))
    end).

(* ===================================================================== *)
(** * Objects used as examples *)
(* ===================================================================== *)

(** [Colombia()] before [__init__] has populated anything. *)
Definition fresh_Colombia : world :=
  World (set_country (Some (PStr "CO")) (blank ColombiaC)) [].

(** A calendar holding one moved holiday. *)
Definition one_observed : world :=
  World (Calendar {[738529 := "Día de los Reyes Magos [Epiphany](Observed)"]}
                  {[2023]} true true PNone PNone None HolidayBaseC [])
        [].

(** A calendar holding a label with the word but not the marker. *)
Definition one_decree : world :=
  World (Calendar {[738521 := "Observed by decree"]}
                  {[2023]} true true PNone PNone None HolidayBaseC [])
        [].

(** The mapping of a [Colombia] calendar populated for the years [ys],
    in that order, and for nothing else. *)
Definition populated (obs : bool) (ys : list Z) : gmap Z string :=
  foldl (λ d y, inserts (Colombia_entries obs y) d) ∅ ys.

(** [Colombia(years=2023)], as [__init__] leaves it. *)
Definition Colombia_2023 : world :=
  World (Calendar (populated true (elements ({[2023]} : gset Z))) {[2023]}
                  true true PNone PNone (Some (PStr "CO")) ColombiaC [])
        [].

(** The number a slice's [step] stands for. *)
Definition step_value (step : step_arg) : option Z :=
  match step with
  | StepNone => Some 1
  | StepDelta days => Some days
  | StepInt n => Some n
  | StepOther => None
  end.

(** The step a slice ends up using: the size of the given step, with the
    sign of [stop - start]. *)
Definition directed_step (date_diff n : Z) : Z :=
  if 0 <=? date_diff then Z.abs n else - Z.abs n.

(** The dates of the [dict] among [start + delta] for the given deltas,
    in their order. *)
Definition keys_along (d : gmap Z string) (start : Z) (deltas : list Z)
  : list Z :=
  filter (λ day, is_Some (d !! day)) ((λ delta, start + delta) <$> deltas).

(** [d'] holds every key of [d], each with its text of [d] at the end:
    nothing was removed, texts were at most extended in front. *)
Definition grows (d d' : gmap Z string) : Prop :=
  ∀ k e, d !! k = Some e → ∃ a, d' !! k = Some (a +:+ e).

Definition M_grows {A} (m : M A) : Prop :=
  ∀ w a w', m w = Ok (a, w') → grows (data (self w)) (data (self w')).

(** What [__keytransform__] leaves of the calendar when [_populate] does
    nothing: the year is recorded if [expand] is set. *)
Definition record_year (y : Z) (c : calendar) : calendar :=
  if expand c then set_years (λ ys, {[y]} ∪ ys) c else c.

Definition record_years (ys : list Z) (c : calendar) : calendar :=
  if expand c then set_years (λ s, list_to_set ys ∪ s) c else c.

(** The text under a key once the text [v] has been merged into [e]. *)
Definition merge_into (e v : option string) : option string :=
  match e, v with
  | Some e, Some v => Some (merge e v)
  | Some e, None => Some e
  | None, v => v
  end.

(** A plain [HolidayBase] with one entry that is a part of ["Holiday"]. *)
Definition one_part : world :=
  World (Calendar {[738521 := "Holi"]} ∅ true true PNone PNone None
                  HolidayBaseC [])
        [].

(** The computation of [get_list] on a stored text. *)
Definition pieces (t : string) : list string :=
  filter (λ h, h ≠ "") (split t ", ").

(** What is checked, by evaluation, of the labels of the table: none is
    empty, holds a comma or starts with a space. *)
Definition plain (v : string) : bool :=
  negb (String.eqb v "") && (find v "," <? 0) && negb (String.prefix " " v).

Definition names_plain : bool :=
  forallb (λ N, plain N && plain (N +:+ "(Observed)")) Colombia_names.

(** The mapping [d] holds exactly the labels of [l]: under a key with no
    label in [l] nothing, under another key the labels [l] has for it,
    each once, joined by [", "]. *)
Definition holds_exactly (l : list (Z * string)) (d : gmap Z string) : Prop :=
  ∀ k, match d !! k with
       | None => ∀ x, ¬ In (k, x) l
       | Some e => ∃ L, e = String.concat ", " L ∧ L ≠ [] ∧ NoDup L
                        ∧ ∀ x, x ∈ L ↔ In (k, x) l
       end.

(** A [Colombia] calendar whose mapping is what populating the years [l],
    in that order, gives. *)
Definition populated_for (l : list Z) (c : calendar) : Prop :=
  cls c = ColombiaC ∧ data c = populated (observed c) l ∧ Forall valid_year l.

(** [Colombia(years=2020)] and
    [Colombia(years=2021, expand=False, observed=False)], as the
    constructor leaves them. *)
Definition cal_2020 : calendar :=
  Calendar (populated true [2020]) {[2020]} true true PNone PNone
           (Some (PStr "CO")) ColombiaC [].

Definition cal_2021 : calendar :=
  Calendar (populated false [2021]) {[2021]} false false PNone PNone
           (Some (PStr "CO")) ColombiaC [].

(** The exception [date(year, ..)] raises for a year it does not accept:
    [OverflowError] for one that is no C [int], [ValueError] for another
    outside 1..9999. *)
Definition year_error (y : Z) : exn :=
  if Date.fits_int y then ValueError else OverflowError.

(** A [Colombia] calendar holding a text put there by hand, under
    Monday July 4 2011, and nothing else. *)
Definition one_observed_Colombia : world :=
  World (Calendar {[734322 := "San Pedro"]} {[2011]} true true PNone PNone
                  (Some (PStr "CO")) ColombiaC [])
        [].

(* ===================================================================== *)
(** * Reasoning about methods *)
(* ===================================================================== *)

Lemma bind_Ok {A B} (m : M A) (k : A → M B) w b w' :
  bind m k w = Ok (b, w') ↔ ∃ a w1, m w = Ok (a, w1) ∧ k a w1 = Ok (b, w').
Proof.
  unfold bind. destruct (m w) as [[a w1]|e]; split.
  - eauto.
  - by intros (a' & w1' & [= -> ->] & H).
  - done.
  - by intros (? & ? & ? & ?).
Qed.

Lemma bind_eq {A B} (m : M A) (k : A → M B) w a w1 :
  m w = Ok (a, w1) → bind m k w = k a w1.
Proof. unfold bind. by intros ->. Qed.

Lemma bind_raise {A B} (m : M A) (k : A → M B) w e :
  m w = Raise e → bind m k w = Raise e.
Proof. unfold bind. by intros ->. Qed.

Lemma same_attrs_refl c : same_attrs c c.
Proof. by repeat split. Qed.

Lemma same_attrs_trans c1 c2 c3 :
  same_attrs c1 c2 → same_attrs c2 c3 → same_attrs c1 c3.
Proof.
  intros (?&?&?&?&?&?&?&?) (?&?&?&?&?&?&?&?).
  repeat split; try congruence. set_solver.
Qed.

Lemma ext_refl w : ext w w.
Proof. split; [apply same_attrs_refl | done]. Qed.

Lemma ext_trans w1 w2 w3 : ext w1 w2 → ext w2 w3 → ext w1 w3.
Proof.
  intros [? ?] [? ?]. split; [by eapply same_attrs_trans | congruence].
Qed.

Lemma M_ext_ret {A} (a : A) : M_ext (ret a).
Proof. intros w a' w' [= _ <-]. apply ext_refl. Qed.

Lemma M_ext_raise {A} e : M_ext (@raise A e).
Proof. by intros w a w'. Qed.

Lemma M_ext_lift {A} (r : result A) : M_ext (lift r).
Proof. intros w a w'. unfold lift. destruct r; intros [= _ <-]. apply ext_refl. Qed.

Lemma M_ext_gets {A} (f : calendar → A) : M_ext (gets f).
Proof. intros w a w' [= _ <-]. apply ext_refl. Qed.

Lemma M_ext_bind {A B} (m : M A) (k : A → M B) :
  M_ext m → (∀ a, M_ext (k a)) → M_ext (bind m k).
Proof.
  intros Hm Hk w b w' (a & w1 & H1 & H2)%bind_Ok.
  eapply ext_trans; [by eapply Hm | by eapply Hk].
Qed.

Lemma M_ext_set_data f : M_ext (modify (set_data f)).
Proof. intros w a w' [= _ <-]. split; [by repeat split | done]. Qed.

Lemma M_ext_add_year y : M_ext (modify (set_years (λ ys, {[y]} ∪ ys))).
Proof.
  intros w a w' [= _ <-]. split; [|done].
  repeat split; simpl. set_solver.
Qed.

Lemma M_ext_for {A} (l : list A) (body : A → M unit) :
  (∀ x, M_ext (body x)) → M_ext (for_ l body).
Proof.
  intros Hb. induction l as [|x l IH]; simpl.
  - apply M_ext_ret.
  - apply M_ext_bind; [apply Hb | done].
Qed.

Lemma M_ext_on_obj {A} i (m : M A) : M_ext m → M_ext (on_obj i m).
Proof.
  intros Hm w a w'. unfold on_obj.
  destruct (objs w !! i) as [h|] eqn:Hi; [|done].
  destruct (m (World h (objs w))) as [[a' w1]|] eqn:E; [|done].
  intros [= _ <-]. split; [apply same_attrs_refl|]. simpl.
  rewrite length_insert. by destruct (Hm _ _ _ E) as [_ ?].
Qed.

Create HintDb mext.
#[global] Hint Resolve M_ext_ret M_ext_raise M_ext_lift M_ext_gets M_ext_bind
  M_ext_set_data M_ext_add_year M_ext_for M_ext_on_obj : mext.

Ltac mext :=
  repeat first
    [ progress intros
    | match goal with
      | |- M_ext (match ?x with _ => _ end) => destruct x
      | |- M_ext (let '(_, _) := ?x in _) => destruct x
      end
    | solve [eauto with mext]
    | apply M_ext_bind
    | apply M_ext_for ].

Section HookExt.

Variable hook : Z → M unit.
Hypothesis hook_ext : ∀ y, M_ext (hook y).

Lemma keytransform_ext key : M_ext (keytransform hook key).
Proof using hook_ext. unfold keytransform. mext. Qed.

Lemma contains_ext key : M_ext (contains hook key).
Proof using hook_ext. unfold contains. pose proof keytransform_ext. mext. Qed.

Lemma get_ext key dflt : M_ext (get hook key dflt).
Proof using hook_ext. unfold get. pose proof keytransform_ext. mext. Qed.

Lemma get_text_ext key : M_ext (get_text hook key).
Proof using hook_ext. unfold get_text. pose proof get_ext. mext. Qed.

Lemma setitem_ext key value : M_ext (setitem hook key value).
Proof using hook_ext.
  unfold setitem.
  pose proof keytransform_ext. pose proof contains_ext. pose proof get_text_ext.
  mext.
Qed.

Lemma update_ext args : M_ext (update hook args).
Proof using hook_ext. unfold update. pose proof setitem_ext. mext. Qed.

Lemma Colombia_populate_ext year : M_ext (Colombia_populate hook year).
Proof using hook_ext.
  pose proof setitem_ext.
  assert (∀ m d name, M_ext (unless_weekend hook year m d name))
    by (unfold unless_weekend; mext).
  assert (∀ r name, M_ext (emiliani hook r name))
    by (unfold emiliani; mext).
  unfold Colombia_populate. mext.
Qed.

Lemma HolidaySum_populate_ext year : M_ext (HolidaySum_populate hook year).
Proof using hook_ext.
  unfold HolidaySum_populate. pose proof update_ext. mext.
Qed.

End HookExt.

Lemma populate_ext fuel year : M_ext (populate fuel year).
Proof.
  revert year. induction fuel as [|n IH]; intros year; simpl.
  - apply M_ext_raise.
  - apply M_ext_bind; [apply M_ext_gets|]. intros [].
    + apply M_ext_ret.
    + by apply Colombia_populate_ext.
    + by apply HolidaySum_populate_ext.
Qed.

(* ===================================================================== *)
(** * [__keytransform__] and [__setitem__] *)
(* ===================================================================== *)

Lemma keytransform_settled hook key w :
  settled w key → keytransform hook key w = Ok (key, w).
Proof.
  unfold settled, keytransform, bind, gets, ret. simpl. by intros ->.
Qed.

Lemma keytransform_expand hook key w :
  ¬ settled w key →
  keytransform hook key w =
    match hook (Date.year key) (with_year (Date.year key) w) with
    | Ok (_, w1) => Ok (key, w1)
    | Raise e => Raise e
    end.
Proof.
  unfold settled, keytransform, bind, gets, ret, modify, with_year. simpl.
  intros H. destruct (expand (self w) && _); [|done].
  by destruct (hook _ _) as [[[] ?]|].
Qed.

Lemma settled_with_year key w : settled (with_year (Date.year key) w) key.
Proof.
  unfold settled, with_year. simpl.
  rewrite bool_decide_eq_true_2 by set_solver. apply andb_false_r.
Qed.

Lemma settled_ext w w' key : ext w w' → settled w key → settled w' key.
Proof.
  intros [(He & _ & _ & _ & _ & _ & _ & Hy) _]. unfold settled. rewrite He.
  destruct (expand (self w)); [|done]. simpl.
  rewrite !negb_false_iff, !bool_decide_eq_true. set_solver.
Qed.

Section SetItem.

Variable hook : Z → M unit.
Hypothesis hook_ext : ∀ y, M_ext (hook y).

(** After [__keytransform__], the key is settled: the later calls of it
    in the same method do nothing. *)
Lemma keytransform_Ok key w k w1 :
  keytransform hook key w = Ok (k, w1) → k = key ∧ settled w1 key.
Proof using hook_ext.
  destruct (decide (settled w key)) as [Hs|Hs].
  - rewrite keytransform_settled by done. by intros [= <- <-].
  - rewrite keytransform_expand by done.
    destruct (hook _ _) as [[[] w2]|] eqn:E; [|done].
    intros [= <- <-]. split; [done|].
    eapply settled_ext; [by eapply hook_ext | apply settled_with_year].
Qed.

Lemma contains_settled key w :
  settled w key →
  contains hook key w = Ok (bool_decide (is_Some (data (self w) !! key)), w).
Proof.
  intros Hs. unfold contains.
  erewrite bind_eq by by apply keytransform_settled. done.
Qed.

Lemma get_text_settled key w e :
  settled w key → data (self w) !! key = Some e →
  get_text hook key w = Ok (e, w).
Proof.
  intros Hs He. unfold get_text, get, bind.
  rewrite keytransform_settled by done.
  unfold gets, ret. simpl. by rewrite He.
Qed.

Lemma setitem_settled key value w :
  settled w key →
  setitem hook key value w =
    Ok (tt, World (set_data (insert1 key value) (self w)) (objs w)).
Proof.
  intros Hs. unfold setitem, insert1, merge, bind.
  rewrite contains_settled by done.
  destruct (data (self w) !! key) as [e|] eqn:He.
  - rewrite bool_decide_eq_true_2 by eauto.
    rewrite !(get_text_settled key w e) by done.
    destruct (find e value <? 0) eqn:F1; simpl;
      [rewrite !(get_text_settled key w e) by done; unfold ret;
       destruct (find value e <? 0) eqn:F2; simpl|];
      unfold ret; rewrite !(get_text_settled key w e) by done;
      rewrite keytransform_settled by done;
      unfold modify, set_data; simpl; by rewrite He, F1, ?F2.
  - rewrite bool_decide_eq_false_2 by (by intros [? ?]).
    unfold ret. rewrite keytransform_settled by done.
    unfold modify, set_data; simpl; by rewrite He.
Qed.

(** [__setitem__] is [__keytransform__] followed by the merge. *)
Lemma setitem_spec key value w :
  setitem hook key value w =
    match keytransform hook key w with
    | Ok (_, w1) =>
        Ok (tt, World (set_data (insert1 key value) (self w1)) (objs w1))
    | Raise e => Raise e
    end.
Proof using hook_ext.
  destruct (keytransform hook key w) as [[k w1]|e] eqn:E.
  - apply keytransform_Ok in E as E'. destruct E' as [-> Hs].
    rewrite <- (setitem_settled key value w1 Hs).
    unfold setitem, contains, bind. rewrite E.
    by rewrite (keytransform_settled hook key w1).
  - unfold setitem, contains, bind. by rewrite E.
Qed.

End SetItem.

(* ===================================================================== *)
(** * Dates *)
(* ===================================================================== *)

Lemma days_before_year_succ y :
  Date.days_before_year (y + 1) =
  Date.days_before_year y + (if Date.is_leap y then 366 else 365).
Proof.
  unfold Date.days_before_year, Date.is_leap.
  replace (y + 1 - 1) with y by lia.
  repeat match goal with
         | |- context [(?a =? ?b)%Z] => destruct (Z.eqb_spec a b)
         end; simpl; Z.div_mod_to_equations; lia.
Qed.

Lemma days_before_year_mono y y' :
  y < y' → Date.days_before_year (y + 1) ≤ Date.days_before_year y'.
Proof.
  intros H. unfold Date.days_before_year.
  replace (y + 1 - 1) with y by lia.
  Z.div_mod_to_equations. lia.
Qed.

(** [d.year] is the year whose days contain [d]. *)
Lemma year_of_ordinal y n :
  first_day y ≤ n ≤ last_day y → Date.year n = y.
Proof.
  unfold first_day, last_day. intros Hn.
  rewrite days_before_year_succ in Hn.
  unfold Date.year, Date.ord2ymd.
  unfold Date.days_before_year, Date.is_leap in *.
  cbv zeta.
  set (n400 := (n - 1) / 146097).
  set (r400 := (n - 1) mod 146097).
  set (n100 := r400 / 36524).
  set (r100 := r400 mod 36524).
  set (n4 := r100 / 1461).
  set (r4 := r100 mod 1461).
  set (n1 := r4 / 365).
  assert (Hyear : n400 * 400 + 1 + n100 * 100 + n4 * 4 + n1
                  - (if (n1 =? 4) || (n100 =? 4) then 1 else 0) = y).
  { repeat match goal with
           | H : context [(?a =? ?b)%Z] |- _ => destruct (Z.eqb_spec a b)
           end;
    repeat match goal with
           | |- context [(?a =? ?b)%Z] => destruct (Z.eqb_spec a b)
           end;
    simpl andb in *; simpl orb in *; simpl negb in *; cbv iota in *;
    subst n1 r4 n4 r100 n100 r400 n400;
    Z.div_mod_to_equations; lia. }
  destruct ((n1 =? 4) || (n100 =? 4)); simpl fst.
  - lia.
  - repeat match goal with
           | |- context [if ?b then _ else _] => destruct b
           end; simpl; lia.
Qed.

Lemma first_day_valid y : valid_year y → 1 ≤ first_day y.
Proof.
  unfold valid_year, first_day, Date.days_before_year, Date.MINYEAR.
  intros H. Z.div_mod_to_equations. lia.
Qed.

Lemma last_day_valid y : valid_year y → last_day y ≤ Date.MAXORDINAL.
Proof.
  unfold valid_year, last_day, Date.days_before_year, Date.MAXYEAR,
    Date.MAXORDINAL.
  intros H. Z.div_mod_to_equations. lia.
Qed.

Lemma years_apart y y' k :
  first_day y ≤ k ≤ last_day y → first_day y' ≤ k ≤ last_day y' → y = y'.
Proof.
  intros H1 H2. by rewrite <- (year_of_ordinal y k), <- (year_of_ordinal y' k).
Qed.

Lemma date_Ok y m d :
  valid_year y → 1 ≤ m ≤ 12 → 1 ≤ d ≤ Date.days_in_month y m →
  Date.date y m d = Ok (Date.ymd2ord y m d).
Proof.
  unfold valid_year, Date.MINYEAR, Date.MAXYEAR. intros Hy Hm Hd.
  assert (Date.days_in_month y m ≤ 31) as H31.
  { unfold Date.days_in_month. destruct ((m =? 2) && Date.is_leap y); [lia|].
    assert (m = 1 ∨ m = 2 ∨ m = 3 ∨ m = 4 ∨ m = 5 ∨ m = 6 ∨ m = 7 ∨ m = 8
            ∨ m = 9 ∨ m = 10 ∨ m = 11 ∨ m = 12) as Hcases by lia.
    repeat destruct Hcases as [->|Hcases]; try subst m; simpl; lia. }
  unfold Date.date, Date.fits_int, Date.MINYEAR, Date.MAXYEAR.
  repeat match goal with
         | |- context [(?a <=? ?b)%Z] =>
             destruct (Z.leb_spec a b); [|lia]
         end.
  done.
Qed.

(** Easter falls between March 22 and April 25. *)
Lemma easter_month_day y :
  ∃ m d, easter y = Date.date y m d ∧ easter_ord y = Date.ymd2ord y m d ∧
         ((m = 3 ∧ 22 ≤ d ≤ 31) ∨ (m = 4 ∧ 1 ≤ d ≤ 25)).
Proof.
  unfold easter, easter_ord. cbv zeta.
  set (g := y mod 19).
  set (c := y / 100).
  set (h := (c - c / 4 - (8 * c + 13) / 25 + 19 * g + 15) mod 30).
  set (i := h - (h / 28) * (1 - (h / 28) * (29 / (h + 1)) * ((21 - g) / 11))).
  set (j := (y + y / 4 + i + 2 - c + c / 4) mod 7).
  set (p := i - j + 0).
  assert (Hg : 0 ≤ g < 19) by (apply Z.mod_pos_bound; lia).
  assert (Hh : 0 ≤ h < 30) by (apply Z.mod_pos_bound; lia).
  assert (Hi : 0 ≤ i ≤ 28).
  { subst i. destruct (Z.lt_ge_cases h 28) as [Hlt|Hge].
    - rewrite (Z.div_small h 28) by lia. lia.
    - assert (h = 28 ∨ h = 29) as [-> | ->] by lia.
      + change (28 / 28) with 1. change (29 / (28 + 1)) with 1.
        assert (0 ≤ (21 - g) / 11 ≤ 1) by (Z.div_mod_to_equations; lia). lia.
      + change (29 / 28) with 1. change (29 / (29 + 1)) with 0. lia. }
  assert (Hj : 0 ≤ j < 7) by (apply Z.mod_pos_bound; lia).
  assert (Hp : -6 ≤ p ≤ 28) by lia.
  clearbody p. clear -Hp.
  eexists _, _. split; [reflexivity|]. split; [reflexivity|].
  Z.div_mod_to_equations. lia.
Qed.

Lemma easter_Ok y : valid_year y → easter y = Ok (easter_ord y).
Proof.
  intros Hy. destruct (easter_month_day y) as (m & d & -> & -> & Hmd).
  apply date_Ok; [done|lia|].
  unfold Date.days_in_month.
  destruct Hmd as [[-> ?]|[-> ?]]; simpl; lia.
Qed.

Lemma easter_range y :
  Date.ymd2ord y 3 22 ≤ easter_ord y ≤ Date.ymd2ord y 4 25.
Proof.
  destruct (easter_month_day y) as (m & d & _ & -> & Hmd).
  unfold Date.ymd2ord, Date.days_before_month.
  destruct Hmd as [[-> ?]|[-> ?]]; simpl; destruct (Date.is_leap y); lia.
Qed.

Lemma weekday_range d : 0 ≤ Date.weekday d < 7.
Proof. unfold Date.weekday. apply Z.mod_pos_bound. lia. Qed.

Lemma next_monday_range d : d ≤ next_monday d ≤ d + 6.
Proof.
  unfold next_monday.
  pose proof (Z.mod_pos_bound (7 - Date.weekday d) 7). lia.
Qed.

Lemma next_monday_weekday d : Date.weekday (next_monday d) = MON.
Proof.
  unfold next_monday, Date.weekday, MON. Z.div_mod_to_equations. lia.
Qed.

Lemma next_monday_moves d : Date.weekday d ≠ MON → d < next_monday d.
Proof.
  unfold next_monday, Date.weekday, MON. Z.div_mod_to_equations. lia.
Qed.

Lemma weekday_on_or_before_range wd d :
  d - 6 ≤ weekday_on_or_before wd d ≤ d.
Proof.
  unfold weekday_on_or_before.
  pose proof (Z.mod_pos_bound (Date.weekday d - wd) 7). lia.
Qed.

Lemma weekday_on_or_before_weekday wd d :
  0 ≤ wd < 7 → Date.weekday (weekday_on_or_before wd d) = wd.
Proof.
  unfold weekday_on_or_before, Date.weekday. Z.div_mod_to_equations. lia.
Qed.

Lemma add_days_Ok d n :
  0 < d + n ≤ Date.MAXORDINAL → Date.add_days d n = Ok (d + n).
Proof.
  intros H. unfold Date.add_days.
  destruct (Z.ltb_spec 0 (d + n)); [|lia].
  destruct (Z.leb_spec (d + n) Date.MAXORDINAL); [done|lia].
Qed.

Lemma add_rd_days d n :
  0 < d + n ≤ Date.MAXORDINAL → add_rd d (rd n None) = Ok (d + n).
Proof. intros H. unfold add_rd. simpl. by rewrite add_days_Ok. Qed.

Lemma add_rd_MO d :
  0 < d → d + 6 ≤ Date.MAXORDINAL →
  add_rd d (rd 0 (Some MO)) = Ok (next_monday d).
Proof.
  intros H1 H2. unfold add_rd. simpl.
  rewrite add_days_Ok by lia. simpl.
  pose proof (next_monday_range d). unfold next_monday in *.
  replace (d + 0) with d by lia.
  change (Z.abs 1) with 1. rewrite (Z.add_0_r (7 - Date.weekday d)).
  change ((1 - 1) * 7) with 0. rewrite Z.add_0_l.
  by rewrite add_days_Ok by lia.
Qed.

Lemma add_rd_before wd d :
  6 < d ≤ Date.MAXORDINAL →
  add_rd d (rd 0 (Some (wd, Some (-1)))) = Ok (weekday_on_or_before wd d).
Proof.
  intros H. unfold add_rd. simpl.
  rewrite add_days_Ok by lia. simpl.
  pose proof (weekday_on_or_before_range wd d).
  unfold weekday_on_or_before in *.
  replace (d + 0) with d by lia.
  change (Z.abs (-1)) with 1.
  change ((1 - 1) * 7) with 0. rewrite Z.add_0_l.
  rewrite add_days_Ok by lia. f_equal. lia.
Qed.

(* ===================================================================== *)
(** * The table of [Colombia._populate] *)
(* ===================================================================== *)

(** Every raw date of the table, and the six days after it, lie in the
    year. *)
Lemma table_in_year y r d name :
  In (r, d, name) (Colombia_table y) →
  first_day y ≤ d ∧ d + 6 ≤ last_day y.
Proof.
  intros Hin.
  pose proof (easter_range y) as He.
  pose proof (weekday_on_or_before_range THU (easter_ord y)) as Ht.
  pose proof (weekday_on_or_before_range FRI (easter_ord y)) as Hf.
  unfold first_day, last_day. rewrite days_before_year_succ.
  unfold Date.ymd2ord, Date.days_before_month in *. simpl in He.
  simpl in Hin.
  repeat (destruct Hin as [[= <- <- <-]|Hin];
          [unfold Date.ymd2ord, Date.days_before_month; simpl;
           destruct (Date.is_leap y); lia|]).
  done.
Qed.

Lemma entries_in_year obs y k v :
  In (k, v) (Colombia_entries obs y) → first_day y ≤ k ≤ last_day y.
Proof.
  unfold Colombia_entries. rewrite in_flat_map.
  intros ([[r d] name] & Hrow & Hin).
  apply table_in_year in Hrow.
  pose proof (next_monday_range d).
  simpl in Hin. destruct r.
  - destruct Hin as [[= <- <-]|[]]. lia.
  - destruct (obs && _); [done|]. destruct Hin as [[= <- <-]|[]]. lia.
  - destruct (_ || _); destruct Hin as [[= <- <-]|[]]; lia.
Qed.

Lemma entries_year obs y k v :
  In (k, v) (Colombia_entries obs y) → Date.year k = y.
Proof. intros H. eapply year_of_ordinal, entries_in_year, H. Qed.

Lemma entries_valid obs y k v :
  valid_year y → In (k, v) (Colombia_entries obs y) → Date.valid k.
Proof.
  intros Hy H%entries_in_year.
  pose proof (first_day_valid y Hy). pose proof (last_day_valid y Hy).
  unfold Date.valid. lia.
Qed.

Lemma for_app {A} (l1 l2 : list A) (body : A → M unit) w :
  for_ (l1 ++ l2) body w = (for_ l1 body ;; for_ l2 body) w.
Proof.
  revert w. induction l1 as [|x l1 IH]; intros w; simpl.
  - done.
  - unfold bind in *. destruct (body x w) as [[[] w1]|]; [|done].
    by rewrite IH.
Qed.

Lemma for_singleton {A} (x : A) (body : A → M unit) w :
  for_ [x] body w = body x w.
Proof. simpl. unfold bind, ret. by destruct (body x w) as [[[] ?]|]. Qed.

Section ColombiaRuns.

Variable hook : Z → M unit.
Hypothesis hook_ext : ∀ y, M_ext (hook y).

Lemma runs_seq m1 m2 rows1 rows2 :
  runs hook m1 rows1 → runs hook m2 rows2 →
  runs hook (m1 ;; m2) (rows1 ++ rows2).
Proof using hook_ext.
  intros H1 H2 w. rewrite flat_map_app, for_app.
  unfold bind. rewrite H1.
  destruct (for_ _ _ w) as [[[] w1]|] eqn:E; [|done].
  rewrite H2.
  assert (ext w w1) as [(_ & -> & _) _]; [|done].
  eapply M_ext_for; [|exact E]. intros [k v]. by apply setitem_ext.
Qed.

Lemma unconditional_runs r d name :
  r = Ok d →
  runs hook (let* d := lift r in setitem hook d name)
       [(Unconditional, d, name)].
Proof.
  intros -> w. unfold bind, lift. cbn [flat_map entry_of]. rewrite app_nil_r.
  by rewrite for_singleton.
Qed.

Lemma unless_weekend_runs y m d name :
  Date.date y m d = Ok (Date.ymd2ord y m d) →
  runs hook (unless_weekend hook y m d name)
       [(StrictWeekend, Date.ymd2ord y m d, name)].
Proof.
  intros Hd w. unfold unless_weekend. rewrite Hd.
  unfold bind, gets, lift, ret. cbn [flat_map entry_of]. rewrite app_nil_r.
  destruct (observed (self w)); cbn [andb].
  - destruct (in_WEEKEND _); [done|]. by rewrite for_singleton.
  - by rewrite for_singleton.
Qed.

Lemma emiliani_runs r d name :
  r = Ok d → 0 < d → d + 6 ≤ Date.MAXORDINAL →
  runs hook (emiliani hook r name) [(MovedToMonday, d, name)].
Proof.
  intros -> H1 H2 w. unfold emiliani, bind, gets, lift.
  rewrite add_rd_MO by done. cbn [flat_map entry_of]. rewrite app_nil_r.
  destruct (_ || _); by rewrite for_singleton.
Qed.

Lemma Colombia_populate_runs y :
  valid_year y →
  runs hook (Colombia_populate hook y) (Colombia_table y).
Proof using hook_ext.
  intros Hy.
  assert (Hrow : ∀ r d name, In (r, d, name) (Colombia_table y) →
                   0 < d ∧ d + 6 ≤ Date.MAXORDINAL).
  { intros r d name H%table_in_year.
    pose proof (first_day_valid y Hy). pose proof (last_day_valid y Hy). lia. }
  pose proof (easter_range y) as He.
  pose proof (table_in_year y Unconditional _ _
                ltac:(simpl; do 5 right; left; reflexivity)) as Hx.
  assert (6 < easter_ord y ≤ Date.MAXORDINAL) as Heo.
  { pose proof (Hrow MovedToMonday (easter_ord y + 39) _
                  ltac:(simpl; do 15 right; left; reflexivity)).
    pose proof (first_day_valid y Hy).
    unfold first_day, Date.ymd2ord, Date.days_before_month in *.
    simpl in He. destruct (Date.is_leap y); lia. }
  unfold Colombia_populate, Colombia_table, easter_plus.
  rewrite (easter_Ok y Hy). simpl rbind.
  repeat match goal with
  | |- runs _ (_ ;; _) (?r :: ?rows) =>
      apply (runs_seq _ _ [r] rows)
  | |- runs _ (unless_weekend _ _ _ _ _) _ =>
      apply unless_weekend_runs, date_Ok; [done|unfold JAN, JUL, DEC; lia|];
      unfold Date.days_in_month; simpl; lia
  | |- runs _ (emiliani _ (Date.date _ _ _) _) _ =>
      eapply emiliani_runs;
      [apply date_Ok; [done|unfold JAN, MAR, JUN, AUG, OCT, NOV; lia|];
       unfold Date.days_in_month; simpl; lia
      |eapply Hrow; simpl; eauto 20
      |eapply Hrow; simpl; eauto 20]
  | |- runs _ (emiliani _ (add_rd _ _) _) _ =>
      eapply emiliani_runs;
      [apply add_rd_days
      |eapply Hrow; simpl; eauto 20
      |eapply Hrow; simpl; eauto 20]
  | |- runs _ (let* _ := lift (Date.date _ _ _) in _) _ =>
      apply unconditional_runs, date_Ok; [done|unfold MAY, AUG, DEC; lia|];
      unfold Date.days_in_month; simpl; lia
  | |- runs _ (let* _ := lift (add_rd _ _) in _) _ =>
      apply unconditional_runs, add_rd_before; done
  end.
  all: match goal with
       | |- 0 < ?d ≤ _ =>
           edestruct (Hrow MovedToMonday d) as [? ?];
             [simpl; eauto 20|lia]
       end.
Qed.

End ColombiaRuns.

(* ===================================================================== *)
(** * What [Colombia._populate] does to the mapping *)
(* ===================================================================== *)

Lemma world_eta w : World (self w) (objs w) = w.
Proof. by destruct w. Qed.

Lemma set_data_id c : set_data (λ d, d) c = c.
Proof. by destruct c. Qed.

Lemma set_data_world_id w :
  World (set_data (inserts []) (self w)) (objs w) = w.
Proof. destruct w as [[] ?]. done. Qed.

Lemma for_setitem_settled hook l w :
  Forall (λ kv, settled w kv.1) l →
  for_ l (λ '(k, v), setitem hook k v) w =
    Ok (tt, World (set_data (inserts l) (self w)) (objs w)).
Proof.
  revert w. induction l as [|[k v] l IH]; intros w Hl.
  - simpl. unfold ret. by rewrite set_data_world_id.
  - apply Forall_cons in Hl as [Hk Hl]. simpl in Hk.
    cbn [for_]. unfold bind. rewrite setitem_settled by done.
    rewrite IH; [done|].
    eapply Forall_impl; [exact Hl|]. intros [k' v']. done.
Qed.

Lemma entries_settled obs y w :
  expand (self w) && negb (bool_decide (y ∈ years (self w))) = false →
  Forall (λ kv, settled w kv.1) (Colombia_entries obs y).
Proof.
  intros H. apply Forall_forall. intros [k v] Hin%list_elem_of_In.
  unfold settled. simpl. by rewrite (entries_year _ _ _ _ Hin).
Qed.

Lemma entries_nonempty obs y : Colombia_entries obs y ≠ [].
Proof.
  intros H.
  assert (In (Date.ymd2ord y MAY 1, "Día del Trabajo [Labour Day]")
             (Colombia_entries obs y)) as Hin.
  { unfold Colombia_entries. apply in_flat_map.
    exists (Unconditional, Date.ymd2ord y MAY 1, "Día del Trabajo [Labour Day]").
    split; simpl; auto. }
  by rewrite H in Hin.
Qed.

Section ColombiaPopulate.

Variable hook : Z → M unit.
Hypothesis hook_ext : ∀ y, M_ext (hook y).

(** In a year that is recorded already (or without [expand]),
    [_populate] inserts the year's entries. *)
Lemma Colombia_populate_settled y w :
  valid_year y →
  expand (self w) && negb (bool_decide (y ∈ years (self w))) = false →
  Colombia_populate hook y w =
    Ok (tt, World (set_data (inserts (Colombia_entries (observed (self w)) y))
                            (self w)) (objs w)).
Proof using hook_ext.
  intros Hy Hs. rewrite (Colombia_populate_runs hook hook_ext y Hy w).
  by apply for_setitem_settled, entries_settled.
Qed.

(** In a year that is not recorded yet, with [expand], the first
    [__setitem__] records the year and calls [_populate] for it; the
    statements of the outer call then insert the same entries again. *)
Lemma Colombia_populate_expand y w :
  valid_year y →
  expand (self w) && negb (bool_decide (y ∈ years (self w))) = true →
  hook y (with_year y w) =
    Ok (tt, World (set_data (inserts (Colombia_entries (observed (self w)) y))
                            (self (with_year y w))) (objs w)) →
  Colombia_populate hook y w =
    Ok (tt, World (set_data (λ d, inserts (Colombia_entries (observed (self w)) y)
                                   (inserts (Colombia_entries (observed (self w)) y) d))
                            (self (with_year y w))) (objs w)).
Proof using hook_ext.
  intros Hy Hs Hhook. rewrite (Colombia_populate_runs hook hook_ext y Hy w).
  fold (Colombia_entries (observed (self w)) y).
  pose proof (entries_nonempty (observed (self w)) y) as Hne.
  pose proof (λ k v, entries_year (observed (self w)) y k v) as Hyear.
  destruct (Colombia_entries (observed (self w)) y) as [|[k v] l] eqn:HE; [done|].
  clear Hne. cbn [for_]. unfold bind. cbn beta iota.
  assert (Date.year k = y) as Hk by (apply (Hyear k v); by left).
  rewrite setitem_spec by done.
  rewrite keytransform_expand by (unfold settled; rewrite Hk, Hs; done).
  rewrite Hk, Hhook.
  rewrite for_setitem_settled.
  - done.
  - apply Forall_forall. intros [k' v'] Hin%list_elem_of_In.
    unfold settled. simpl.
    rewrite (Hyear k' v') by by right.
    rewrite bool_decide_eq_true_2 by set_solver. apply andb_false_r.
Qed.

End ColombiaPopulate.

Lemma populate_S_Colombia n y w :
  cls (self w) = ColombiaC →
  populate (S n) y w = Colombia_populate (populate n) y w.
Proof. intros Hc. cbn [populate]. unfold bind at 1, gets. by rewrite Hc. Qed.

(** [_populate] on a [Colombia] object, for a year [date] accepts. *)
Lemma populate_Colombia fuel y w :
  cls (self w) = ColombiaC → valid_year y → (2 ≤ fuel)%nat →
  populate fuel y w =
    Ok (tt,
        if expand (self w) && negb (bool_decide (y ∈ years (self w)))
        then World (set_data
                      (λ d, inserts (Colombia_entries (observed (self w)) y)
                              (inserts (Colombia_entries (observed (self w)) y) d))
                      (self (with_year y w))) (objs w)
        else World (set_data (inserts (Colombia_entries (observed (self w)) y))
                             (self w)) (objs w)).
Proof.
  intros Hc Hy Hf. destruct fuel as [|[|n]]; [lia|lia|].
  rewrite populate_S_Colombia by done.
  destruct (expand (self w) && _) eqn:Hs.
  - apply Colombia_populate_expand; [apply populate_ext|done|done|].
    rewrite populate_S_Colombia by done.
    rewrite Colombia_populate_settled; [done|apply populate_ext|done|].
    simpl. rewrite bool_decide_eq_true_2 by set_solver. apply andb_false_r.
  - by apply Colombia_populate_settled; [apply populate_ext|..].
Qed.

(* ===================================================================== *)
(** * Strings *)
(* ===================================================================== *)

Lemma str_app_cons x a b : String x a +:+ b = String x (a +:+ b).
Proof. reflexivity. Qed.

Lemma str_app_nil_l b : "" +:+ b = b.
Proof. reflexivity. Qed.

Lemma str_app_assoc a b c : (a +:+ b) +:+ c = a +:+ (b +:+ c).
Proof.
  induction a as [|x a IH]; [done|]. rewrite !str_app_cons. by f_equal.
Qed.

Lemma str_app_nil_r a : a +:+ "" = a.
Proof.
  induction a as [|x a IH]; [done|]. rewrite str_app_cons. by f_equal.
Qed.

Lemma prefix_spec p s : String.prefix p s = true ↔ ∃ b, s = p +:+ b.
Proof.
  revert s. induction p as [|x p IH]; intros [|c s]; simpl.
  - split; [by exists ""|done].
  - split; [by exists (String c s)|done].
  - split; [done|]. intros [b Hb]. by rewrite str_app_cons in Hb.
  - destruct (ascii_dec x c) as [->|Hne].
    + rewrite IH. split; intros [b Hb]; exists b.
      * by rewrite str_app_cons, Hb.
      * rewrite str_app_cons in Hb. by injection Hb.
    + split; [done|]. intros [b Hb]. rewrite str_app_cons in Hb.
      by injection Hb.
Qed.

Lemma find_nil sub :
  find "" sub = if String.prefix sub "" then 0 else -1.
Proof. reflexivity. Qed.

Lemma find_cons c s sub :
  find (String c s) sub =
    if String.prefix sub (String c s) then 0
    else if find s sub <? 0 then -1 else find s sub + 1.
Proof. reflexivity. Qed.

Lemma find_lower s sub : -1 ≤ find s sub.
Proof.
  induction s as [|c s IH]; [rewrite find_nil|rewrite find_cons];
    destruct (String.prefix sub _); try lia.
  destruct (Z.ltb_spec (find s sub) 0); lia.
Qed.

Lemma find_occurs s sub : 0 ≤ find s sub ↔ occurs sub s.
Proof.
  induction s as [|c s IH].
  - rewrite find_nil. destruct (String.prefix sub "") eqn:Hp.
    + split; [|lia]. intros _. apply prefix_spec in Hp as [b Hb].
      by exists "", b.
    + split; [lia|]. intros (a & b & Hab).
      destruct a; [|by rewrite str_app_cons in Hab].
      assert (String.prefix sub "" = true) by (apply prefix_spec; eauto).
      congruence.
  - rewrite find_cons. destruct (String.prefix sub (String c s)) eqn:Hp.
    + split; [|lia]. intros _. apply prefix_spec in Hp as [b Hb].
      by exists "", b.
    + pose proof (find_lower s sub).
      destruct (Z.ltb_spec (find s sub) 0).
      * split; [lia|]. intros (a & b & Hab). destruct a as [|x a].
        -- assert (String.prefix sub (String c s) = true)
             by (apply prefix_spec; eauto). congruence.
        -- rewrite str_app_cons in Hab. injection Hab as -> Hab.
           assert (occurs sub s) as Ho%IH by (by exists a, b). lia.
      * split; [|lia]. intros _.
        assert (occurs sub s) as (a & b & ->) by (apply IH; lia).
        by exists (String c a), b.
Qed.

Lemma find_neg s sub : (find s sub <? 0) = true ↔ ¬ occurs sub s.
Proof. rewrite <- find_occurs. destruct (Z.ltb_spec (find s sub) 0); split; try done; lia. Qed.

Lemma occurs_refl s : occurs s s.
Proof. exists "", "". simpl. by rewrite str_app_nil_r. Qed.

Lemma occurs_app_l v x : occurs v (v +:+ x).
Proof. by exists "", x. Qed.

Lemma occurs_app_r v a e : occurs v e → occurs v (a +:+ e).
Proof.
  intros (p & q & ->). exists (a +:+ p), q. by rewrite str_app_assoc.
Qed.

Lemma occurs_trans a b c : occurs a b → occurs b c → occurs a c.
Proof.
  intros (p & q & ->) (p' & q' & ->). exists (p' +:+ p), (q +:+ q').
  by rewrite !str_app_assoc.
Qed.

Lemma merge_cases e v : merge e v = e ∨ merge e v = v +:+ ", " +:+ e.
Proof. unfold merge. destruct (_ && _); auto. Qed.

Lemma merge_keeps e v x : occurs x e → occurs x (merge e v).
Proof.
  intros H. destruct (merge_cases e v) as [-> | ->]; [done|].
  by do 2 apply occurs_app_r.
Qed.

Lemma merge_id e v : occurs v e → merge e v = e.
Proof.
  intros H%find_occurs. unfold merge.
  destruct (Z.ltb_spec (find e v) 0); [lia|done].
Qed.

Lemma merge_has e v : (occurs e v → occurs v e) → occurs v (merge e v).
Proof.
  intros H. unfold merge.
  destruct (find e v <? 0) eqn:F1; simpl.
  - destruct (find v e <? 0) eqn:F2; [apply occurs_app_l|].
    apply find_neg in F1. destruct F1. apply H.
    apply find_occurs. destruct (Z.ltb_spec (find v e) 0); [done|lia].
  - apply find_occurs. destruct (Z.ltb_spec (find e v) 0); [done|lia].
Qed.

(* ===================================================================== *)
(** * The labels of the Colombia calendar *)
(* ===================================================================== *)

Lemma names_check_true : names_check = true.
Proof. vm_compute. reflexivity. Qed.

Lemma table_names y r d N :
  In (r, d, N) (Colombia_table y) → In N Colombia_names.
Proof.
  intros H. apply (in_map (λ r, r.2)) in H. exact H.
Qed.

Lemma names_facts N N' :
  In N Colombia_names → In N' Colombia_names →
  (occurs N N' → N = N') ∧
  (occurs (N +:+ "(Observed)") (N' +:+ "(Observed)") → N = N') ∧
  ¬ occurs (N +:+ "(Observed)") N' ∧
  (occurs N (N' +:+ "(Observed)") → N = N') ∧
  ¬ occurs ", " N ∧ ¬ occurs ", " (N +:+ "(Observed)").
Proof.
  intros HN HN'. pose proof names_check_true as H.
  unfold names_check in H. rewrite forallb_forall in H.
  specialize (H N HN). rewrite !andb_true_iff in H.
  destruct H as [[H Hc1] Hc2].
  rewrite forallb_forall in H. specialize (H N' HN').
  unfold names_apart in H. rewrite !andb_true_iff in H.
  destruct H as [[[H1 H2] H3] H4].
  apply find_neg in Hc1, Hc2, H3.
  repeat split; try done.
  - intros Ho%find_occurs. apply Z.leb_le in Ho. rewrite Ho in H1.
    by apply bool_decide_eq_true in H1.
  - intros Ho%find_occurs. apply Z.leb_le in Ho. rewrite Ho in H2.
    by apply bool_decide_eq_true in H2.
  - intros Ho%find_occurs. apply Z.leb_le in Ho. rewrite Ho in H4.
    by apply bool_decide_eq_true in H4.
Qed.

Lemma names_nodup : NoDup Colombia_names.
Proof. apply (bool_decide_unpack _). vm_compute. exact I. Qed.

Lemma nodup_snd_inj {A B} (l : list (A * B)) a a' b :
  NoDup (l.*2) → In (a, b) l → In (a', b) l → a = a'.
Proof.
  induction l as [|[x y] l IH]; [done|].
  rewrite fmap_cons, NoDup_cons. simpl. intros [Hx Hl] [H1|H1] [H2|H2].
  - congruence.
  - injection H1 as -> ->. destruct Hx.
    apply list_elem_of_In in H2. by apply (list_elem_of_fmap_2 snd) in H2.
  - injection H2 as -> ->. destruct Hx.
    apply list_elem_of_In in H1. by apply (list_elem_of_fmap_2 snd) in H1.
  - by apply IH.
Qed.

Lemma table_name_inj y r d r' d' N :
  In (r, d, N) (Colombia_table y) → In (r', d', N) (Colombia_table y) →
  d = d'.
Proof.
  intros H1 H2.
  assert ((r, d) = (r', d')) as [= _ ->]; [|done].
  eapply (nodup_snd_inj (Colombia_table y)); [|exact H1|exact H2].
  exact names_nodup.
Qed.

(** A label under a key is the plain name of a row on its raw date, or
    the name with ["(Observed)"] on the Monday after a raw date that is
    not a Monday. *)
Lemma label_at_cases k v :
  label_at k v →
  ∃ y r d N, In (r, d, N) (Colombia_table y) ∧
    ((k = d ∧ v = N) ∨
     (Date.weekday d ≠ MON ∧ k = next_monday d ∧ v = N +:+ "(Observed)")).
Proof.
  intros (obs & y & Hin). unfold Colombia_entries in Hin.
  apply in_flat_map in Hin as ([[r d] N] & Hrow & Hin).
  exists y, r, d, N. split; [done|].
  simpl in Hin. destruct r.
  - destruct Hin as [[= <- <-]|[]]. by left.
  - destruct (obs && _); [done|]. destruct Hin as [[= <- <-]|[]]. by left.
  - destruct (Date.weekday d =? MON) eqn:Hw; simpl in Hin.
    + destruct Hin as [[= <- <-]|[]]. by left.
    + destruct (negb obs); destruct Hin as [[= <- <-]|[]]; [by left|].
      right. apply Z.eqb_neq in Hw. done.
Qed.

(** Two labels under the same key, one occurring in the other, are the
    same label. *)
Lemma label_at_apart k v v' :
  label_at k v → label_at k v' → occurs v v' → v = v'.
Proof.
  intros Hv Hv' Ho.
  pose proof Hv as (obs & y & Hin). pose proof Hv' as (obs' & y' & Hin').
  assert (y' = y) as ->.
  { apply entries_in_year in Hin, Hin'. by apply (years_apart y' y k). }
  clear Hv Hv'.
  unfold Colombia_entries in Hin, Hin'.
  apply in_flat_map in Hin as ([[r d] N] & Hrow & Hin).
  apply in_flat_map in Hin' as ([[r' d'] N'] & Hrow' & Hin').
  pose proof (table_names _ _ _ _ Hrow) as HN.
  pose proof (table_names _ _ _ _ Hrow') as HN'.
  destruct (names_facts N N' HN HN') as (F1 & F2 & F3 & F4 & _).
  assert ((k = d ∧ v = N) ∨
          (Date.weekday d ≠ MON ∧ k = next_monday d ∧ v = N +:+ "(Observed)"))
    as Hc.
  { simpl in Hin. destruct r.
    - destruct Hin as [[= <- <-]|[]]. by left.
    - destruct (obs && _); [done|]. destruct Hin as [[= <- <-]|[]]. by left.
    - destruct (Date.weekday d =? MON) eqn:Hw; simpl in Hin.
      + destruct Hin as [[= <- <-]|[]]. by left.
      + destruct (negb obs); destruct Hin as [[= <- <-]|[]]; [by left|].
        right. by apply Z.eqb_neq in Hw. }
  assert ((k = d' ∧ v' = N') ∨
          (Date.weekday d' ≠ MON ∧ k = next_monday d' ∧ v' = N' +:+ "(Observed)"))
    as Hc'.
  { simpl in Hin'. destruct r'.
    - destruct Hin' as [[= <- <-]|[]]. by left.
    - destruct (obs' && _); [done|]. destruct Hin' as [[= <- <-]|[]]. by left.
    - destruct (Date.weekday d' =? MON) eqn:Hw; simpl in Hin'.
      + destruct Hin' as [[= <- <-]|[]]. by left.
      + destruct (negb obs'); destruct Hin' as [[= <- <-]|[]]; [by left|].
        right. by apply Z.eqb_neq in Hw. }
  destruct Hc as [[-> ->]|(Hw & -> & ->)], Hc' as [[Hk ->]|(Hw' & Hk & ->)].
  - by apply F1.
  - assert (N = N') as -> by by apply F4.
    assert (d = d') as -> by (eapply table_name_inj; eauto).
    pose proof (next_monday_moves d' Hw'). lia.
  - by destruct F3.
  - f_equal. by apply F2.
Qed.

Lemma label_at_no_separator k v : label_at k v → ¬ occurs ", " v.
Proof.
  intros (y & r & d & N & Hrow & Hc)%label_at_cases.
  pose proof (table_names _ _ _ _ Hrow) as HN.
  destruct (names_facts N N HN HN) as (_ & _ & _ & _ & F5 & F6).
  by destruct Hc as [[_ ->]|(_ & _ & ->)].
Qed.

(* ===================================================================== *)
(** * Mappings that only [_populate] has filled *)
(* ===================================================================== *)

Lemma populated_only_empty : populated_only ∅.
Proof. by intros k e v. Qed.

Lemma populated_only_delete d k : populated_only d → populated_only (delete k d).
Proof.
  intros H k' e v He. apply (H k' e v).
  rewrite lookup_delete in He. by case_decide.
Qed.

Lemma populated_only_insert1 d k v :
  populated_only d → label_at k v → populated_only (insert1 k v d).
Proof.
  intros Hd Hv k' e' v' He' Hv' Ho. unfold insert1 in He'.
  rewrite lookup_insert in He'. case_decide as Hk; [subst k'|by eapply Hd].
  injection He' as <-.
  destruct (d !! k) as [e|] eqn:He.
  - destruct (merge_cases e v) as [Hm | Hm]; rewrite Hm in *.
    + by eapply Hd.
    + destruct (label_at_no_separator k v' Hv').
      eapply occurs_trans; [|exact Ho].
      apply occurs_app_r, occurs_app_l.
  - rewrite (label_at_apart k v v' Hv Hv' Ho). apply occurs_refl.
Qed.

Lemma insert1_has d k v :
  populated_only d → label_at k v →
  ∃ e, insert1 k v d !! k = Some e ∧ occurs v e.
Proof.
  intros Hd Hv. unfold insert1. rewrite lookup_insert_eq.
  eexists; split; [done|].
  destruct (d !! k) as [e|] eqn:He; [|apply occurs_refl].
  apply merge_has. by eapply Hd.
Qed.

Lemma insert1_keeps d k v k' e x :
  d !! k' = Some e → occurs x e →
  ∃ e', insert1 k v d !! k' = Some e' ∧ occurs x e'.
Proof.
  intros He Ho. unfold insert1. rewrite lookup_insert.
  case_decide as Hk; [subst k'; rewrite He|by eauto].
  eexists; split; [done|]. by apply merge_keeps.
Qed.

Lemma insert1_id d k v e :
  d !! k = Some e → occurs v e → insert1 k v d = d.
Proof.
  intros He Ho. unfold insert1. rewrite He, merge_id by done.
  by apply insert_id.
Qed.

Lemma inserts_app l1 l2 d : inserts (l1 ++ l2) d = inserts l2 (inserts l1 d).
Proof. unfold inserts. apply foldl_app. Qed.

Lemma populated_only_inserts l d :
  populated_only d → Forall (λ kv, label_at kv.1 kv.2) l →
  populated_only (inserts l d).
Proof.
  revert d. induction l as [|[k v] l IH]; intros d Hd Hl; [done|].
  apply Forall_cons in Hl as [Hkv Hl]. simpl.
  apply IH; [|done]. by apply populated_only_insert1.
Qed.

Lemma inserts_keeps l d k e x :
  d !! k = Some e → occurs x e →
  ∃ e', inserts l d !! k = Some e' ∧ occurs x e'.
Proof.
  revert d e. induction l as [|[k' v'] l IH]; intros d e He Ho; [by eauto|].
  simpl. destruct (insert1_keeps d k' v' k e x He Ho) as (e' & He' & Ho').
  by eapply IH.
Qed.

(** After the insertions every label inserted occurs under its key. *)
Lemma inserts_has l d k v :
  populated_only d → Forall (λ kv, label_at kv.1 kv.2) l → In (k, v) l →
  ∃ e, inserts l d !! k = Some e ∧ occurs v e.
Proof.
  revert d. induction l as [|[k' v'] l IH]; intros d Hd Hl Hin; [done|].
  apply Forall_cons in Hl as [Hkv Hl]. simpl in *.
  destruct Hin as [[= -> ->]|Hin].
  - destruct (insert1_has d k v Hd Hkv) as (e & He & Ho).
    by eapply inserts_keeps.
  - apply IH; [by apply populated_only_insert1|done|done].
Qed.

Lemma inserts_id l d :
  (∀ k v, In (k, v) l → ∃ e, d !! k = Some e ∧ occurs v e) →
  inserts l d = d.
Proof.
  induction l as [|[k v] l IH]; intros H; [done|]. simpl.
  destruct (H k v) as (e & He & Ho); [by left|].
  rewrite (insert1_id d k v e) by done. apply IH.
  intros k' v' Hin. apply H. by right.
Qed.

(** Inserting the same labels a second time changes nothing. *)
Lemma inserts_twice l d :
  populated_only d → Forall (λ kv, label_at kv.1 kv.2) l →
  inserts l (inserts l d) = inserts l d.
Proof.
  intros Hd Hl. apply inserts_id. intros k v Hin. by apply inserts_has.
Qed.

Lemma entries_labels obs y :
  Forall (λ kv, label_at kv.1 kv.2) (Colombia_entries obs y).
Proof.
  apply Forall_forall. intros [k v] Hin%list_elem_of_In. by exists obs, y.
Qed.


(* ===================================================================== *)
(** * Population is idempotent *)
(* ===================================================================== *)

Lemma set_data_fix f c : f (data c) = data c → set_data f c = c.
Proof. destruct c. unfold set_data. simpl. by intros ->. Qed.

Lemma set_data_ext f g c :
  f (data c) = g (data c) → set_data f c = set_data g c.
Proof. unfold set_data. by intros ->. Qed.

Lemma set_data_again f g c :
  f (g (data c)) = g (data c) → set_data f (set_data g c) = set_data g c.
Proof. unfold set_data. simpl. by intros ->. Qed.

Lemma populate_Colombia_data fuel y w w' :
  cls (self w) = ColombiaC → valid_year y → (2 ≤ fuel)%nat →
  populated_only (data (self w)) →
  populate fuel y w = Ok (tt, w') →
  data (self w') = inserts (Colombia_entries (observed (self w)) y) (data (self w))
  ∧ years (self w') = (if expand (self w) then {[y]} ∪ years (self w)
                       else years (self w))
  ∧ same_attrs (self w) (self w') ∧ objs w' = objs w.
Proof.
  intros Hc Hy Hf Hd. rewrite populate_Colombia by done.
  pose proof (entries_labels (observed (self w)) y) as Hl.
  destruct (expand (self w)) eqn:He; simpl.
  - destruct (bool_decide (y ∈ years (self w))) eqn:Hin; simpl;
      intros Hw; injection Hw as <-; simpl.
    + apply bool_decide_eq_true in Hin.
      repeat split; try done. set_solver.
    + rewrite inserts_twice by done. repeat split; try done. set_solver.
  - intros Hw. injection Hw as <-. simpl. by repeat split.
Qed.

(** C8, as the code has it.  For every year [date] accepts, [_populate]
    run a second time on the same [Colombia] object leaves the object as
    the first run left it: the same mapping, the same years, provided
    that, before the first run, no stored text is a proper part of a
    label [_populate] gives its date.  That holds of an object into
    which only [_populate] has inserted, whatever was deleted since. *)
Theorem populate_idempotent fuel y w :
  cls (self w) = ColombiaC → valid_year y → (2 ≤ fuel)%nat →
  populated_only (data (self w)) →
  ∃ w1, populate fuel y w = Ok (tt, w1) ∧ populate fuel y w1 = Ok (tt, w1).
Proof.
  intros Hc Hy Hf Hd.
  pose proof (entries_labels (observed (self w)) y) as Hl.
  rewrite populate_Colombia by done.
  eexists. split; [done|].
  destruct (expand (self w) && negb (bool_decide (y ∈ years (self w))))
    eqn:Hs.
  - rewrite populate_Colombia by done. simpl.
    apply andb_true_iff in Hs as [-> _]. simpl.
    rewrite bool_decide_eq_true_2 by set_solver. simpl.
    rewrite set_data_again; [done|]. simpl.
    apply inserts_twice; [by apply populated_only_inserts|done].
  - rewrite populate_Colombia by done. simpl. rewrite Hs.
    rewrite set_data_again; [done|]. simpl.
    by apply inserts_twice.
Qed.

Lemma populate_idempotent_witness :
  ∃ w1, populate 2 2023 (World (set_country (Some (PStr "CO")) (blank ColombiaC)) [])
          = Ok (tt, w1)
        ∧ populate 2 2023 w1 = Ok (tt, w1).
Proof.
  apply populate_idempotent.
  - reflexivity.
  - unfold valid_year, Date.MINYEAR, Date.MAXYEAR. lia.
  - lia.
  - apply populated_only_empty.
Defined.


(* ===================================================================== *)
(** * Insertion *)
(* ===================================================================== *)

(** X1. [__setitem__] normalises the key (which may populate the key's
    year) and then, in the mapping so reached: under a key that is
    present it stores the new text, a comma and the existing text only if
    neither text occurs in the other, and keeps the existing text
    otherwise; under a key that is absent it stores the text as given.
    It fails exactly when the normalisation fails. *)
Theorem setitem_merges fuel key value w :
  match keytransform (populate fuel) key w with
  | Ok (_, w1) =>
      setitem (populate fuel) key value w =
        Ok (tt, World
                  (set_data
                     (λ d, <[key :=
                               match d !! key with
                               | Some e =>
                                   if (find e value <? 0) && (find value e <? 0)
                                   then value +:+ ", " +:+ e
                                   else e
                               | None => value
                               end]> d)
                     (self w1))
                  (objs w1))
  | Raise e => setitem (populate fuel) key value w = Raise e
  end.
Proof.
  rewrite setitem_spec by apply populate_ext.
  by destruct (keytransform _ _ _) as [[k w1]|e].
Qed.

(* ===================================================================== *)
(** * Adding zero *)
(* ===================================================================== *)

(** X18. [h + 0] and [0 + h] return [h] itself, the store untouched; so
    [sum] over a list of calendars, which starts from 0, is the chain of
    [+] over the list started from its first calendar, and over two
    calendars it is their composite. *)
Theorem add_zero fuel st h hs h2 :
  add fuel st h (OInt 0) = Ok (h, st)
  ∧ radd fuel st h (OInt 0) = Ok (h, st)
  ∧ pysum fuel st (h :: hs) = foldl (sum_step fuel) (Ok (Some h, st)) hs
  ∧ pysum fuel st [h; h2] =
      rbind (add fuel st h (OCal h2)) (λ '(r, st'), Ok (Some r, st')).
Proof. done. Qed.

(* ===================================================================== *)
(** * Switching [observed] off *)
(* ===================================================================== *)

Lemma for_drop l w :
  for_ l (λ '(k, v), if 0 <=? find v "Observed"
                     then modify (set_data (delete k)) else ret tt) w =
    Ok (tt, World
              (set_data
                 (λ d, foldl (λ d '(k, v), if 0 <=? find v "Observed"
                                            then delete k d else d) d l)
                 (self w)) (objs w)).
Proof.
  revert w. induction l as [|[k v] l IH]; intros w.
  - simpl. unfold ret. by rewrite set_data_id, world_eta.
  - cbn [for_]. unfold bind. cbn beta iota.
    destruct (0 <=? find v "Observed") eqn:Hv; unfold modify, ret; rewrite IH;
      cbn [foldl]; rewrite Hv; reflexivity.
Qed.

Lemma lookup_foldl_drop (l : list (Z * string)) (d : gmap Z string) k :
  foldl (λ d '(k, v), if 0 <=? find v "Observed" then delete k d else d) d l
    !! k =
  if existsb (λ '(k', v), bool_decide (k' = k) && (0 <=? find v "Observed")) l
  then None else d !! k.
Proof.
  revert d. induction l as [|[k' v] l IH]; intros d; [done|].
  simpl. rewrite IH.
  destruct (existsb _ l); [by rewrite orb_true_r|]. rewrite orb_false_r.
  destruct (0 <=? find v "Observed"); [|by rewrite andb_false_r].
  rewrite andb_true_r, lookup_delete.
  case_decide;
    [rewrite bool_decide_eq_true_2 by done
    |rewrite bool_decide_eq_false_2 by done]; done.
Qed.

Lemma foldl_drop_map_to_list (d : gmap Z string) :
  foldl (λ d '(k, v), if 0 <=? find v "Observed" then delete k d else d) d
        (map_to_list d) = drop_observed d.
Proof.
  apply map_eq. intros k. rewrite lookup_foldl_drop.
  unfold drop_observed. rewrite map_lookup_filter.
  destruct (existsb _ _) eqn:Hex.
  - apply existsb_exists in Hex as ([k' v] & Hin & Hc).
    apply andb_true_iff in Hc as [->%bool_decide_eq_true Hv%Z.leb_le].
    apply list_elem_of_In, elem_of_map_to_list in Hin. rewrite Hin. simpl.
    by rewrite option_guard_False by lia.
  - destruct (d !! k) as [v|] eqn:Hk; [|done]. simpl.
    rewrite option_guard_True; [done|]. simpl.
    destruct (Z.leb_spec 0 (find v "Observed")); [|lia].
    assert (existsb (λ '(k', v),
              bool_decide (k' = k) && (0 <=? find v "Observed"))
              (map_to_list d) = true); [|congruence].
    apply existsb_exists. exists (k, v). split.
    + by apply list_elem_of_In, elem_of_map_to_list.
    + rewrite bool_decide_eq_true_2 by done. simpl. by apply Z.leb_le.
Qed.

(** What the [observed] setter does when the value is not [True]. *)
Lemma setattr_observed_false_eq hook w :
  (0 < size (data (self w)))%nat →
  setattr_observed hook false w =
    Ok (tt, World (set_data drop_observed (set_observed_attr false (self w)))
                  (objs w)).
Proof.
  intros Hs. unfold setattr_observed, bind, gets. simpl.
  destruct (Z.ltb_spec 0 (Z.of_nat (size (data (self w))))); [|lia].
  unfold modify. simpl. rewrite for_drop. simpl.
  do 3 f_equal. unfold set_data. simpl. by rewrite foldl_drop_map_to_list.
Qed.

Lemma lookup_drop_observed d k :
  drop_observed d !! k =
    match d !! k with
    | Some v => if 0 <=? find v "Observed" then None else Some v
    | None => None
    end.
Proof.
  unfold drop_observed. rewrite map_lookup_filter.
  destruct (d !! k) as [v|]; [|done]. simpl.
  destruct (Z.leb_spec 0 (find v "Observed")).
  - by rewrite option_guard_False by lia.
  - by rewrite option_guard_True.
Qed.

(** X15. On a calendar with at least one entry,
    setting [observed] to false deletes exactly the entries whose label
    holds the text ["Observed"] - with or without the parentheses - and
    leaves every other entry, and every attribute but [observed], as it
    was. *)
Theorem setattr_observed_false hook w :
  (0 < size (data (self w)))%nat →
  ∃ w', setattr_observed hook false w = Ok (tt, w')
    ∧ (∀ k, data (self w') !! k =
              match data (self w) !! k with
              | Some v => if 0 <=? find v "Observed" then None else Some v
              | None => None
              end)
    ∧ observed (self w') = false
    ∧ years (self w') = years (self w)
    ∧ expand (self w') = expand (self w)
    ∧ objs w' = objs w.
Proof.
  intros Hs. eexists. split; [by apply setattr_observed_false_eq|].
  simpl. split; [|done]. intros k. apply lookup_drop_observed.
Qed.

Lemma setattr_observed_false_witness :
  ∃ w', setattr_observed (populate 2) false one_observed = Ok (tt, w')
    ∧ (∀ k, data (self w') !! k =
              match data (self one_observed) !! k with
              | Some v => if 0 <=? find v "Observed" then None else Some v
              | None => None
              end)
    ∧ observed (self w') = false
    ∧ years (self w') = years (self one_observed)
    ∧ expand (self w') = expand (self one_observed)
    ∧ objs w' = objs one_observed.
Proof.
  apply (setattr_observed_false (populate 2) one_observed).
  simpl. rewrite map_size_singleton. lia.
Defined.

(** C7, as the claim has it, fails: a label that holds ["Observed"] but
    not the marker ["(Observed)"] is deleted all the same. *)
Lemma setattr_observed_false_marker :
  find "Observed by decree" "(Observed)" = -1
  ∧ data (self one_decree) !! 738521 = Some "Observed by decree"
  ∧ ∃ w', setattr_observed (populate 2) false one_decree = Ok (tt, w')
      ∧ data (self w') !! 738521 = None.
Proof.
  split; [reflexivity|]. split; [apply lookup_singleton_eq|].
  eexists. split; [apply setattr_observed_false_eq|].
  - simpl. rewrite map_size_singleton. lia.
  - simpl. rewrite lookup_drop_observed, lookup_singleton_eq. reflexivity.
Qed.


(* ===================================================================== *)
(** * Populating several years *)
(* ===================================================================== *)

Lemma populated_only_foldl obs ys d :
  populated_only d →
  populated_only (foldl (λ d y, inserts (Colombia_entries obs y) d) d ys).
Proof.
  revert d. induction ys as [|y ys IH]; intros d Hd; [done|]. simpl.
  apply IH, populated_only_inserts; [done|apply entries_labels].
Qed.

(** [for year in ys: self._populate(year)] on a [Colombia] object. *)
Lemma for_populate_Colombia fuel ys w :
  cls (self w) = ColombiaC → Forall valid_year ys → (2 ≤ fuel)%nat →
  populated_only (data (self w)) →
  ∃ w', for_ ys (populate fuel) w = Ok (tt, w')
    ∧ data (self w') =
        foldl (λ d y, inserts (Colombia_entries (observed (self w)) y) d)
              (data (self w)) ys
    ∧ years (self w') = (if expand (self w) then list_to_set ys ∪ years (self w)
                         else years (self w))
    ∧ same_attrs (self w) (self w') ∧ objs w' = objs w.
Proof.
  intros Hc Hys Hf. revert w Hc. induction ys as [|y ys IH]; intros w Hc Hd.
  - exists w. simpl. repeat split; try done.
    destruct (expand (self w)); set_solver.
  - apply Forall_cons in Hys as [Hy Hys].
    pose proof (populate_Colombia fuel y w Hc Hy Hf) as H1.
    destruct (populate_Colombia_data fuel y w _ Hc Hy Hf Hd H1)
      as (Hdata & Hyears & Hattrs & Hobjs).
    set (w1 := if expand (self w) && _ then _ else _) in *.
    pose proof Hattrs as (He & Ho & _ & _ & _ & Hcls & _).
    destruct (IH Hys w1) as (w' & Hfor & Hdata' & Hyears' & Hattrs' & Hobjs').
    { congruence. }
    { rewrite Hdata. apply populated_only_inserts; [done|apply entries_labels]. }
    exists w'. cbn [for_]. unfold bind at 1. rewrite H1. split; [done|].
    split; [by rewrite Hdata', Hdata, Ho|].
    split; [rewrite Hyears', Hyears, He; destruct (expand (self w)); set_solver|].
    split; [by eapply same_attrs_trans|congruence].
Qed.

(* ===================================================================== *)
(** * Christmas *)
(* ===================================================================== *)

Lemma inserts_lookup_other l d k :
  (∀ v, ¬ In (k, v) l) → inserts l d !! k = d !! k.
Proof.
  revert d. induction l as [|[k' v'] l IH]; intros d H; [done|]. simpl.
  rewrite IH by (intros v Hv; apply (H v); by right).
  unfold insert1. rewrite lookup_insert_ne; [done|].
  intros ->. apply (H v'). by left.
Qed.

Lemma inserts_same_label l d k v :
  (∀ v', In (k, v') l → v' = v) → d !! k = Some v →
  inserts l d !! k = Some v.
Proof.
  revert d. induction l as [|[k' v'] l IH]; intros d H Hd; [done|]. simpl.
  apply IH; [intros v'' Hv; apply H; by right|].
  unfold insert1. rewrite lookup_insert. case_decide as Hk; [|done].
  subst k'. rewrite Hd. rewrite (H v') by by left.
  by rewrite merge_id by apply occurs_refl.
Qed.

Lemma inserts_one_label l d k v :
  (∀ v', In (k, v') l → v' = v) → In (k, v) l → d !! k = None →
  inserts l d !! k = Some v.
Proof.
  revert d. induction l as [|[k' v'] l IH]; intros d H Hin Hd; [done|]. simpl.
  destruct (decide (k' = k)) as [->|Hne].
  - rewrite (H v') by by left.
    apply inserts_same_label; [intros v'' Hv; apply H; by right|].
    unfold insert1. by rewrite Hd, lookup_insert_eq.
  - destruct Hin as [[= ? ?]|Hin]; [done|].
    apply IH; [intros v'' Hv; apply H; by right|done|].
    unfold insert1. by rewrite lookup_insert_ne.
Qed.

(** December 25 holds Christmas and nothing else. *)
Lemma christmas_only obs y y' v :
  In (Date.ymd2ord y DEC 25, v) (Colombia_entries obs y') →
  y' = y ∧ v = "Navidad [Christmas]".
Proof.
  intros Hin.
  assert (y' = y) as ->.
  { apply entries_in_year in Hin.
    apply (years_apart y' y (Date.ymd2ord y DEC 25)); [done|].
    pose proof (table_in_year y Unconditional _ _
                  ltac:(simpl; do 5 right; left; reflexivity)). lia. }
  split; [done|].
  unfold Colombia_entries in Hin.
  apply in_flat_map in Hin as ([[r d] N] & Hrow & Hin).
  pose proof (easter_range y) as He.
  pose proof (weekday_on_or_before_range THU (easter_ord y)) as Ht.
  pose proof (weekday_on_or_before_range FRI (easter_ord y)) as Hf.
  pose proof (next_monday_range d) as Hm.
  assert (d ≤ Date.ymd2ord y DEC 25 ≤ d + 6 → N = "Navidad [Christmas]")
    as Hd.
  { clear Hin Hm. simpl in Hrow.
    repeat (destruct Hrow as [[= <- <- <-]|Hrow];
            [try done; intros ?;
             unfold Date.ymd2ord, Date.days_before_month in *; simpl in *;
             destruct (Date.is_leap y); lia|]).
    done. }
  simpl in Hin. destruct r.
  - destruct Hin as [[= -> <-]|[]]. apply Hd. lia.
  - destruct (obs && _); [done|]. destruct Hin as [[= -> <-]|[]]. apply Hd. lia.
  - assert (N ≠ "Navidad [Christmas]") as HN.
    { clear -Hrow. simpl in Hrow.
      repeat (destruct Hrow as [Heq|Hrow]; [by simplify_eq|]). done. }
    destruct (_ || _); destruct Hin as [[= Hk <-]|[]];
      destruct HN; apply Hd; lia.
Qed.

Lemma christmas_in obs y :
  In (Date.ymd2ord y DEC 25, "Navidad [Christmas]") (Colombia_entries obs y).
Proof.
  unfold Colombia_entries. apply in_flat_map.
  exists (Unconditional, Date.ymd2ord y DEC 25, "Navidad [Christmas]").
  split; simpl; auto 10.
Qed.

Lemma foldl_christmas obs ys y d :
  d !! Date.ymd2ord y DEC 25 = None
  ∨ d !! Date.ymd2ord y DEC 25 = Some "Navidad [Christmas]" →
  In y ys ∨ d !! Date.ymd2ord y DEC 25 = Some "Navidad [Christmas]" →
  foldl (λ d y, inserts (Colombia_entries obs y) d) d ys
    !! Date.ymd2ord y DEC 25 = Some "Navidad [Christmas]".
Proof.
  revert d. induction ys as [|y' ys IH]; intros d Hd Hin.
  - by destruct Hin.
  - cbn [foldl]. destruct (decide (y' = y)) as [->|Hne].
    + assert (inserts (Colombia_entries obs y) d !! Date.ymd2ord y DEC 25
              = Some "Navidad [Christmas]") as H.
      { destruct Hd as [Hd|Hd].
        - apply inserts_one_label; [|apply christmas_in|done].
          intros v' Hv. by apply christmas_only in Hv as [_ ->].
        - apply inserts_same_label; [|done].
          intros v' Hv. by apply christmas_only in Hv as [_ ->]. }
      apply IH; auto.
    + assert (inserts (Colombia_entries obs y') d !! Date.ymd2ord y DEC 25
              = d !! Date.ymd2ord y DEC 25) as H.
      { apply inserts_lookup_other. intros v Hv.
        by apply christmas_only in Hv as [? _]. }
      apply IH; rewrite H; [done|].
      destruct Hin as [[?|?]|?]; auto. done.
Qed.

Lemma populated_christmas obs ys y :
  In y ys →
  populated obs ys !! Date.ymd2ord y DEC 25 = Some "Navidad [Christmas]".
Proof. intros Hin. apply foldl_christmas; auto. Qed.

(* ===================================================================== *)
(** * Switching [observed] off and on again *)
(* ===================================================================== *)

Lemma size_pos_lookup (d : gmap Z string) k v :
  d !! k = Some v → (0 < size d)%nat.
Proof.
  intros H. assert (size d ≠ 0%nat); [|lia].
  apply map_size_ne_0_lookup. by exists k, v.
Qed.

(** What the [observed] setter does on a [Colombia] object when the value
    is [True]: the mapping becomes the one of a calendar populated for the
    recorded years. *)
Lemma setattr_observed_true_Colombia fuel w :
  cls (self w) = ColombiaC → (0 < size (data (self w)))%nat →
  Forall valid_year (elements (years (self w))) → (2 ≤ fuel)%nat →
  ∃ w', setattr_observed (populate fuel) true w = Ok (tt, w')
    ∧ data (self w') = populated true (elements (years (self w)))
    ∧ years (self w') = (if expand (self w) then years (self w) else ∅)
    ∧ observed (self w') = true
    ∧ expand (self w') = expand (self w)
    ∧ objs w' = objs w.
Proof.
  intros Hc Hs Hys Hf. unfold setattr_observed, bind, gets. simpl.
  destruct (Z.ltb_spec 0 (Z.of_nat (size (data (self w))))); [|lia].
  unfold modify. simpl.
  set (w0 := World _ _).
  destruct (for_populate_Colombia fuel (elements (years (self w))) w0)
    as (w' & Hfor & Hdata & Hyears & (He & Ho & _) & Hobjs);
    [done|done|done|apply populated_only_empty|].
  exists w'. split; [done|]. simpl in *.
  rewrite Hdata, Hyears, Ho, He. repeat split; try done.
  destruct (expand (self w)); [|done].
  rewrite list_to_set_elements_L. set_solver.
Qed.

(** X17. On a [Colombia] calendar with [observed] true whose mapping is
    that of its recorded years, of which there is at least one, setting
    [observed] to false and then to true again gives back exactly the
    mapping it had. *)
Theorem observed_off_on fuel w :
  cls (self w) = ColombiaC → observed (self w) = true →
  years (self w) ≠ ∅ → (∀ y, y ∈ years (self w) → valid_year y) →
  data (self w) = populated true (elements (years (self w))) →
  (2 ≤ fuel)%nat →
  ∃ w1 w2,
    setattr_observed (populate fuel) false w = Ok (tt, w1)
    ∧ setattr_observed (populate fuel) true w1 = Ok (tt, w2)
    ∧ data (self w2) = data (self w)
    ∧ observed (self w2) = true
    ∧ years (self w2) = (if expand (self w) then years (self w) else ∅).
Proof.
  intros Hc Ho Hne Hys Hd Hf.
  apply set_choose_L in Hne as [y Hy].
  assert (data (self w) !! Date.ymd2ord y DEC 25 = Some "Navidad [Christmas]")
    as Hx.
  { rewrite Hd. apply populated_christmas.
    by apply list_elem_of_In, elem_of_elements. }
  rewrite setattr_observed_false_eq by by eapply size_pos_lookup.
  eexists. 
  edestruct (setattr_observed_true_Colombia fuel) as (w2 & H2 & Hd2 & Hy2 & Ho2 & _);
    [| | | |exists w2; split; [reflexivity|split; [exact H2|]]].
  - done.
  - simpl. eapply (size_pos_lookup _ (Date.ymd2ord y DEC 25)).
    rewrite lookup_drop_observed, Hx. reflexivity.
  - simpl. apply Forall_forall. intros y' Hy'%elem_of_elements. by apply Hys.
  - done.
  - simpl in *. by rewrite Hd2, Hy2, Hd.
Qed.


Lemma observed_off_on_witness :
  ∃ w1 w2,
    setattr_observed (populate 2) false Colombia_2023 = Ok (tt, w1)
    ∧ setattr_observed (populate 2) true w1 = Ok (tt, w2)
    ∧ data (self w2) = data (self Colombia_2023)
    ∧ observed (self w2) = true
    ∧ years (self w2) =
        (if expand (self Colombia_2023) then years (self Colombia_2023) else ∅).
Proof.
  apply (observed_off_on 2 Colombia_2023).
  - reflexivity.
  - reflexivity.
  - simpl. apply non_empty_singleton_L.
  - simpl. intros y ->%elem_of_singleton.
    unfold valid_year, Date.MINYEAR, Date.MAXYEAR. lia.
  - reflexivity.
  - lia.
Defined.

Lemma populated_populated_only obs ys : populated_only (populated obs ys).
Proof. apply populated_only_foldl, populated_only_empty. Qed.

(** The constructor yields the calendars the two theorems above are
    about. *)
Lemma Colombia_new_spec fuel ys e o pv stt st :
  Forall valid_year ys → (2 ≤ fuel)%nat →
  ∃ w, Colombia_new fuel ys e o pv stt st = Ok w
    ∧ data (self w) = populated o (elements (years (self w)))
    ∧ years (self w) = list_to_set ys
    ∧ expand (self w) = e ∧ observed (self w) = o
    ∧ cls (self w) = ColombiaC ∧ country (self w) = Some (PStr "CO")
    ∧ objs w = st.
Proof.
  intros Hys Hf.
  set (w0 := World (Calendar ∅ (list_to_set ys) e o pv stt (Some (PStr "CO"))
                             ColombiaC []) st).
  change (Colombia_new fuel ys e o pv stt st)
    with (match for_ (elements (list_to_set ys : gset Z)) (populate fuel) w0 with
          | Ok (_, w) => Ok w
          | Raise e => Raise e
          end).
  destruct (for_populate_Colombia fuel (elements (list_to_set ys : gset Z)) w0)
    as (w' & Hfor & Hdata & Hyears & (He & Ho & _ & _ & Hco & Hcl & _) & Hobjs);
    [done| |done|apply populated_only_empty|].
  { apply Forall_forall. intros y Hy%elem_of_elements%elem_of_list_to_set.
    by eapply Forall_forall in Hys. }
  rewrite Hfor. exists w'. split; [done|]. simpl in *.
  assert (years (self w') = list_to_set ys) as Hy'.
  { rewrite Hyears. destruct e; [|done].
    rewrite list_to_set_elements_L. set_solver. }
  rewrite Hy'. by repeat split.
Qed.


(* ===================================================================== *)
(** * Range queries *)
(* ===================================================================== *)

Lemma keytransform_key hook key w k w1 :
  keytransform hook key w = Ok (k, w1) → k = key.
Proof.
  unfold keytransform, bind, gets, ret, modify. simpl.
  destruct (expand (self w) && _).
  - destruct (hook _ _) as [[[] ?]|]; [|done]. by intros [= <- _].
  - by intros [= <- _].
Qed.

Lemma days_in_range_spec start deltas acc w :
  Forall (λ delta, 0 < start + delta ≤ Date.MAXORDINAL) deltas →
  days_in_range start deltas acc w =
    Ok ((acc ++ keys_along (data (self w)) start deltas)%list, w).
Proof.
  revert acc. induction deltas as [|delta deltas IH]; intros acc Hd.
  - simpl. unfold ret, keys_along. simpl. by rewrite app_nil_r.
  - apply Forall_cons in Hd as [H1 Hd]. cbn [days_in_range].
    unfold bind, lift, gets. rewrite add_days_Ok by done. simpl.
    unfold keys_along. rewrite fmap_cons, filter_cons.
    destruct (data (self w) !! (start + delta)) as [v|] eqn:Hl.
    + rewrite decide_True by eauto. rewrite IH by done.
      unfold keys_along. by rewrite <- app_assoc.
    + rewrite decide_False by (by intros [? ?]). by rewrite IH.
Qed.

(** The sign correction of [__getitem__] gives the step the direction of
    [stop - start]. *)
Lemma step_correction date_diff step :
  (if ((date_diff <? 0) && (0 <=? step)) || ((0 <=? date_diff) && (step <? 0))
   then step * -1 else step) = directed_step date_diff step.
Proof.
  unfold directed_step.
  destruct (Z.ltb_spec date_diff 0), (Z.leb_spec 0 step),
    (Z.leb_spec 0 date_diff), (Z.ltb_spec step 0); simpl; lia.
Qed.

Lemma py_range0_bounds date_diff n delta :
  n ≠ 0 → delta ∈ py_range0 date_diff (directed_step date_diff n) →
  (0 ≤ date_diff → 0 ≤ delta < date_diff)
  ∧ (date_diff < 0 → date_diff < delta ≤ 0).
Proof.
  intros Hn. unfold py_range0, directed_step.
  rewrite list_elem_of_fmap. intros (i & -> & Hi%elem_of_seq).
  destruct (Z.leb_spec 0 date_diff) as [Hd|Hd].
  - destruct (Z.ltb_spec 0 (Z.abs n)); [|lia]. split; [intros _|lia].
    assert (Z.of_nat i < (date_diff + Z.abs n - 1) / Z.abs n) as Hlt by lia.
    assert (Z.abs n * ((date_diff + Z.abs n - 1) / Z.abs n)
            ≤ date_diff + Z.abs n - 1) by (apply Z.mul_div_le; lia).
    nia.
  - destruct (Z.ltb_spec 0 (- Z.abs n)); [lia|]. split; [lia|intros _].
    rewrite Z.opp_involutive in Hi.
    assert (Z.of_nat i < (- date_diff - - Z.abs n - 1) / Z.abs n) as Hlt by lia.
    assert (Z.abs n * ((- date_diff - - Z.abs n - 1) / Z.abs n)
            ≤ - date_diff - - Z.abs n - 1) by (apply Z.mul_div_le; lia).
    nia.
Qed.

(** [__getitem__] on a slice with both bounds given and a step that is a
    non-zero number: the bounds are normalised, then the dates of the
    [dict] are collected along the directed step. *)
Lemma getitem_slice_eq hook start stop step n w :
  step_value step = Some n → n ≠ 0 → Date.valid start → Date.valid stop →
  getitem_slice hook (Some start) (Some stop) step w =
    match (keytransform hook start ;; keytransform hook stop) w with
    | Ok (_, w2) =>
        Ok (keys_along (data (self w2)) start
              (py_range0 (stop - start) (directed_step (stop - start) n)),
            w2)
    | Raise e => Raise e
    end.
Proof.
  intros Hstep Hn Hstart Hstop. unfold getitem_slice, bind.
  destruct (keytransform hook start w) as [[k1 w1]|e] eqn:E1; [|done].
  apply keytransform_key in E1 as ->.
  destruct (keytransform hook stop w1) as [[k2 w2]|e] eqn:E2; [|done].
  apply keytransform_key in E2 as ->.
  assert ((match step with
           | StepNone => ret 1
           | StepDelta days => ret days
           | StepInt n => ret n
           | StepOther => raise TypeError
           end) w2 = Ok (n, w2)) as ->.
  { destruct step; simpl in Hstep; by simplify_eq. }
  destruct (Z.eqb_spec n 0); [done|].
  unfold Date.sub. rewrite step_correction.
  rewrite days_in_range_spec; [done|].
  apply Forall_forall. intros delta Hdelta.
  apply py_range0_bounds in Hdelta; [|done].
  unfold Date.valid in *. lia.
Qed.

Lemma py_range0_forward date_diff :
  0 ≤ date_diff → py_range0 date_diff 1 = seqZ 0 date_diff.
Proof.
  intros H. unfold py_range0, seqZ.
  destruct (Z.ltb_spec 0 1); [|lia].
  replace ((date_diff + 1 - 1) / 1) with date_diff
    by (rewrite Z.div_1_r; lia).
  apply list_fmap_ext. intros i x _. lia.
Qed.

Lemma StronglySorted_fmap_seq (R : relation Z) (f : nat → Z) m n :
  (∀ i j, (i < j)%nat → R (f i) (f j)) → StronglySorted R (f <$> seq m n).
Proof.
  intros Hf. revert m. induction n as [|n IH]; intros m; simpl.
  - constructor.
  - constructor; [apply IH|].
    apply Forall_forall. intros x (j & -> & Hj%elem_of_seq)%list_elem_of_fmap.
    apply Hf. lia.
Qed.

Lemma StronglySorted_filter (R : relation Z) (P : Z → Prop)
    `{!∀ x, Decision (P x)} l :
  StronglySorted R l → StronglySorted R (filter P l).
Proof.
  induction 1 as [|x l Hl IH Hx]; [constructor|].
  rewrite filter_cons. case_decide; [|done].
  constructor; [done|].
  apply Forall_forall. intros y [_ Hy]%list_elem_of_filter.
  by eapply Forall_forall in Hx.
Qed.

Lemma elem_of_keys_along d start deltas day :
  day ∈ keys_along d start deltas ↔
  (∃ delta, day = start + delta ∧ delta ∈ deltas) ∧ is_Some (d !! day).
Proof.
  unfold keys_along. rewrite list_elem_of_filter, list_elem_of_fmap. tauto.
Qed.

Lemma py_range0_backward date_diff :
  date_diff < 0 →
  py_range0 date_diff (-1) = (λ i, - Z.of_nat i) <$> seq 0 (Z.to_nat (- date_diff)).
Proof.
  intros H. unfold py_range0.
  destruct (Z.ltb_spec 0 (-1)); [lia|].
  replace ((- date_diff - -1 - 1) / - -1) with (- date_diff)
    by (change (- -1) with 1; rewrite Z.div_1_r; lia).
  apply list_fmap_ext. intros i x _. lia.
Qed.

Lemma keys_along_forward d start stop :
  start ≤ stop →
  let l := keys_along d start (py_range0 (stop - start) 1) in
  StronglySorted Z.lt l
  ∧ ∀ day, day ∈ l ↔ start ≤ day < stop ∧ is_Some (d !! day).
Proof.
  intros H l. subst l. rewrite py_range0_forward by lia. split.
  - unfold keys_along, seqZ. rewrite <- list_fmap_compose.
    apply StronglySorted_filter, StronglySorted_fmap_seq.
    intros i j Hij. simpl. lia.
  - intros day. rewrite elem_of_keys_along. split.
    + intros [(delta & -> & Hd%elem_of_seqZ) Hs]. split; [lia|done].
    + intros [Hd Hs]. split; [|done]. exists (day - start).
      split; [lia|]. apply elem_of_seqZ. lia.
Qed.

Lemma keys_along_backward d start stop :
  stop < start →
  let l := keys_along d start (py_range0 (stop - start) (-1)) in
  StronglySorted Z.gt l
  ∧ ∀ day, day ∈ l ↔ stop < day ≤ start ∧ is_Some (d !! day).
Proof.
  intros H l. subst l. rewrite py_range0_backward by lia. split.
  - unfold keys_along. rewrite <- list_fmap_compose.
    apply StronglySorted_filter, StronglySorted_fmap_seq.
    intros i j Hij. simpl. lia.
  - intros day. rewrite elem_of_keys_along. split.
    + intros [(delta & -> & (i & -> & Hi%elem_of_seq)%list_elem_of_fmap) Hs].
      split; [lia|done].
    + intros [Hd Hs]. split; [|done]. exists (day - start).
      split; [lia|]. apply list_elem_of_fmap.
      exists (Z.to_nat (start - day)). split; [lia|].
      apply elem_of_seq. lia.
Qed.

(** X13. A range query with both bounds given normalises the bounds
    (which may populate their years) and fails exactly when that fails.
    Otherwise, with the default step, it returns the keys of the mapping
    from [start] up to but excluding [stop] in increasing order when
    [start <= stop], and from [start] down to but excluding [stop] in
    decreasing order when [stop < start]; a step of -1 gives the same
    list, and any non-zero step is given the direction of
    [stop - start].  [CO()[date(2023,1,1):date(2023,1,10)]] is
    [[date(2023,1,9)]]. *)
Theorem getitem_slice_dates :
  (∀ fuel w start stop,
     Date.valid start → Date.valid stop →
     match (keytransform (populate fuel) start ;;
            keytransform (populate fuel) stop) w with
     | Ok (_, w2) =>
         ∃ l,
           getitem_slice (populate fuel) (Some start) (Some stop) StepNone w
             = Ok (l, w2)
           ∧ (start ≤ stop →
              StronglySorted Z.lt l
              ∧ ∀ d, d ∈ l ↔ start ≤ d < stop ∧ is_Some (data (self w2) !! d))
           ∧ (stop < start →
              StronglySorted Z.gt l
              ∧ ∀ d, d ∈ l ↔ stop < d ≤ start ∧ is_Some (data (self w2) !! d))
           ∧ getitem_slice (populate fuel) (Some start) (Some stop)
               (StepInt (-1)) w = Ok (l, w2)
           ∧ ∀ n, n ≠ 0 →
               getitem_slice (populate fuel) (Some start) (Some stop)
                 (StepInt n) w =
               Ok (keys_along (data (self w2)) start
                     (py_range0 (stop - start)
                        (directed_step (stop - start) n)), w2)
     | Raise e =>
         getitem_slice (populate fuel) (Some start) (Some stop) StepNone w
           = Raise e
     end)
  ∧ ∃ w0 w2,
      Colombia_new 2 [] true true PNone PNone [] = Ok w0
      ∧ getitem_slice (populate 2) (Some (Date.ymd2ord 2023 JAN 1))
          (Some (Date.ymd2ord 2023 JAN 10)) StepNone w0
        = Ok ([Date.ymd2ord 2023 JAN 9], w2).
Proof.
  split.
  - intros fuel w start stop Hstart Hstop.
    pose proof (getitem_slice_eq (populate fuel) start stop StepNone 1 w
                  eq_refl ltac:(lia) Hstart Hstop) as H1.
    pose proof (getitem_slice_eq (populate fuel) start stop (StepInt (-1)) (-1) w
                  eq_refl ltac:(lia) Hstart Hstop) as H2.
    pose proof (λ n Hn, getitem_slice_eq (populate fuel) start stop (StepInt n) n w
                  eq_refl Hn Hstart Hstop) as H3.
    destruct ((keytransform (populate fuel) start ;;
               keytransform (populate fuel) stop) w) as [[k w2]|e]; [|done].
    eexists. split; [exact H1|].
    split; [|split; [|split; [exact H2|exact H3]]].
    + intros Hle. unfold directed_step.
      destruct (Z.leb_spec 0 (stop - start)); [|lia].
      by apply keys_along_forward.
    + intros Hlt. unfold directed_step.
      destruct (Z.leb_spec 0 (stop - start)); [lia|].
      by apply keys_along_backward.
  - eexists _, _. split.
    + vm_compute. reflexivity.
    + vm_compute. reflexivity.
Qed.

Lemma getitem_slice_dates_witness :
  match (keytransform (populate 2) 738521 ;;
         keytransform (populate 2) 738530) one_observed with
  | Ok (_, w2) =>
      ∃ l,
        getitem_slice (populate 2) (Some 738521) (Some 738530) StepNone
          one_observed = Ok (l, w2)
        ∧ (738521 ≤ 738530 →
           StronglySorted Z.lt l
           ∧ ∀ d, d ∈ l ↔ 738521 ≤ d < 738530 ∧ is_Some (data (self w2) !! d))
        ∧ (738530 < 738521 →
           StronglySorted Z.gt l
           ∧ ∀ d, d ∈ l ↔ 738530 < d ≤ 738521 ∧ is_Some (data (self w2) !! d))
        ∧ getitem_slice (populate 2) (Some 738521) (Some 738530)
            (StepInt (-1)) one_observed = Ok (l, w2)
        ∧ ∀ n, n ≠ 0 →
            getitem_slice (populate 2) (Some 738521) (Some 738530)
              (StepInt n) one_observed =
            Ok (keys_along (data (self w2)) 738521
                  (py_range0 (738530 - 738521)
                     (directed_step (738530 - 738521) n)), w2)
  | Raise e =>
      getitem_slice (populate 2) (Some 738521) (Some 738530) StepNone
        one_observed = Raise e
  end.
Proof.
  apply (proj1 getitem_slice_dates 2%nat one_observed 738521 738530);
    unfold Date.valid, Date.MAXORDINAL; lia.
Defined.


(* ===================================================================== *)
(** * Inserting never removes *)
(* ===================================================================== *)

Lemma grows_refl d : grows d d.
Proof. intros k e He. by exists "". Qed.

Lemma grows_trans d1 d2 d3 : grows d1 d2 → grows d2 d3 → grows d1 d3.
Proof.
  intros H1 H2 k e He. destruct (H1 k e He) as (a & Ha).
  destruct (H2 k _ Ha) as (b & Hb). exists (b +:+ a).
  by rewrite str_app_assoc.
Qed.

Lemma grows_insert1 k v d : grows d (insert1 k v d).
Proof.
  intros k' e He. unfold insert1. rewrite lookup_insert.
  case_decide as Hk; [subst k'; rewrite He|by exists ""].
  destruct (merge_cases e v) as [-> | ->]; [by exists ""|].
  exists (v +:+ ", "). by rewrite str_app_assoc.
Qed.

Lemma M_grows_ret {A} (a : A) : M_grows (ret a).
Proof. intros w a' w' [= _ <-]. apply grows_refl. Qed.

Lemma M_grows_raise {A} e : M_grows (@raise A e).
Proof. by intros w a w'. Qed.

Lemma M_grows_lift {A} (r : result A) : M_grows (lift r).
Proof.
  intros w a w'. unfold lift. destruct r; intros [= _ <-]. apply grows_refl.
Qed.

Lemma M_grows_gets {A} (f : calendar → A) : M_grows (gets f).
Proof. intros w a w' [= _ <-]. apply grows_refl. Qed.

Lemma M_grows_bind {A B} (m : M A) (k : A → M B) :
  M_grows m → (∀ a, M_grows (k a)) → M_grows (bind m k).
Proof.
  intros Hm Hk w b w' (a & w1 & H1 & H2)%bind_Ok.
  eapply grows_trans; [by eapply Hm | by eapply Hk].
Qed.

Lemma M_grows_add_year y : M_grows (modify (set_years (λ ys, {[y]} ∪ ys))).
Proof. intros w a w' [= _ <-]. apply grows_refl. Qed.

Lemma M_grows_insert1 k v : M_grows (modify (set_data (insert1 k v))).
Proof. intros w a w' [= _ <-]. apply grows_insert1. Qed.

Lemma M_grows_for {A} (l : list A) (body : A → M unit) :
  (∀ x, M_grows (body x)) → M_grows (for_ l body).
Proof.
  intros Hb. induction l as [|x l IH]; simpl.
  - apply M_grows_ret.
  - apply M_grows_bind; [apply Hb | done].
Qed.

Lemma M_grows_on_obj {A} i (m : M A) : M_grows (on_obj i m).
Proof.
  intros w a w'. unfold on_obj.
  destruct (objs w !! i) as [h|]; [|done].
  destruct (m _) as [[a' w1]|]; [|done].
  intros [= _ <-]. apply grows_refl.
Qed.

Section HookGrows.

Variable hook : Z → M unit.
Hypothesis hook_ext : ∀ y, M_ext (hook y).
Hypothesis hook_grows : ∀ y, M_grows (hook y).

Lemma keytransform_grows key : M_grows (keytransform hook key).
Proof using hook_grows.
  unfold keytransform.
  apply M_grows_bind; [apply M_grows_gets|]. intros c.
  destruct (expand c && _); [|apply M_grows_ret].
  apply M_grows_bind; [apply M_grows_add_year|]. intros _.
  apply M_grows_bind; [apply hook_grows|]. intros _. apply M_grows_ret.
Qed.

Lemma setitem_grows key value : M_grows (setitem hook key value).
Proof using hook_ext hook_grows.
  intros w a w'. rewrite setitem_spec by done.
  destruct (keytransform hook key w) as [[k w1]|] eqn:E; [|done].
  intros [= _ <-]. simpl.
  eapply grows_trans; [by eapply keytransform_grows|apply grows_insert1].
Qed.

Lemma update_grows args : M_grows (update hook args).
Proof using hook_ext hook_grows.
  unfold update. apply M_grows_for. intros [m|l|k].
  - apply M_grows_for. intros [k v]. apply setitem_grows.
  - apply M_grows_for. intros k. apply setitem_grows.
  - apply setitem_grows.
Qed.

Lemma Colombia_populate_grows year : M_grows (Colombia_populate hook year).
Proof using hook_ext hook_grows.
  pose proof setitem_grows as Hs.
  pose proof @M_grows_bind as Hb. pose proof @M_grows_gets as Hg.
  pose proof @M_grows_lift as Hl. pose proof @M_grows_ret as Hr.
  assert (∀ m d name, M_grows (unless_weekend hook year m d name)) as Hu.
  { intros. unfold unless_weekend.
    apply Hb; [apply Hg|]. intros [].
    - apply Hb; [apply Hb; [apply Hl|intros; apply Hr]|].
      intros []; [apply Hr|]. apply Hb; [apply Hl|intros; apply Hs].
    - apply Hb; [apply Hr|].
      intros []; [apply Hr|]. apply Hb; [apply Hl|intros; apply Hs]. }
  assert (∀ r name, M_grows (emiliani hook r name)) as He.
  { intros. unfold emiliani.
    apply Hb; [apply Hl|]. intros d. apply Hb; [apply Hg|]. intros obs.
    destruct (_ || _).
    - apply Hb; [apply Hl|intros; apply Hs].
    - apply Hb; [apply Hl|]. intros. apply Hb; [apply Hl|intros; apply Hs]. }
  unfold Colombia_populate.
  repeat (apply Hb; [first [apply Hu|apply He|apply Hb; [apply Hl|intros; apply Hs]]|intros _]).
  apply He.
Qed.

Lemma HolidaySum_populate_grows year : M_grows (HolidaySum_populate hook year).
Proof using hook_ext hook_grows.
  unfold HolidaySum_populate.
  apply M_grows_bind; [apply M_grows_gets|]. intros hs.
  apply M_grows_for. intros i.
  apply M_grows_bind; [apply M_grows_on_obj|]. intros _.
  apply M_grows_bind; [apply M_grows_on_obj|]. intros h.
  apply update_grows.
Qed.

End HookGrows.

Lemma populate_grows fuel year : M_grows (populate fuel year).
Proof.
  revert year. induction fuel as [|n IH]; intros year; simpl.
  - apply M_grows_raise.
  - apply M_grows_bind; [apply M_grows_gets|]. intros [].
    + apply M_grows_ret.
    + apply Colombia_populate_grows; [apply populate_ext|done].
    + apply HolidaySum_populate_grows; [apply populate_ext|done].
Qed.

(** X3. Whatever the class of the calendar, [_populate], [__setitem__],
    [update] and the lookups ([__contains__], [get], a slice) never
    remove a key and never change a stored text other than by putting
    names in front of it. *)
Theorem inserting_never_removes fuel w w' :
  (∃ year, populate fuel year w = Ok (tt, w')) ∨
     (∃ key value, setitem (populate fuel) key value w = Ok (tt, w')) ∨
     (∃ args, update (populate fuel) args w = Ok (tt, w')) ∨
     (∃ key b, contains (populate fuel) key w = Ok (b, w')) ∨
     (∃ key dflt v, get (populate fuel) key dflt w = Ok (v, w')) ∨
     (∃ start stop step l,
        getitem_slice (populate fuel) start stop step w = Ok (l, w')) →
  grows (data (self w)) (data (self w')).
Proof.
  pose proof (populate_ext fuel) as He. pose proof (populate_grows fuel) as Hg.
  pose proof (keytransform_grows _ Hg) as Hk.
  intros [(year & H)|[(key & value & H)|[(args & H)|[(key & b & H)|[(key & dflt & v & H)|(start & stop & step & l & H)]]]]].
  - by eapply Hg.
  - by eapply setitem_grows.
  - by eapply update_grows.
  - unfold contains in H. apply bind_Ok in H as (k & w1 & H1 & H2).
    apply bind_Ok in H2 as (d & w2 & [= _ <-] & [= _ <-]). by eapply Hk.
  - unfold get in H. apply bind_Ok in H as (k & w1 & H1 & H2).
    apply bind_Ok in H2 as (d & w2 & [= _ <-] & [= _ <-]). by eapply Hk.
  - destruct start as [start|], stop as [stop|]; try done.
    unfold getitem_slice in H.
    apply bind_Ok in H as (k1 & w1 & H1 & H).
    apply bind_Ok in H as (k2 & w2 & H2 & H).
    apply bind_Ok in H as (n & w3 & H3 & H).
    assert (w3 = w2) as ->.
    { destruct step; cbv [ret raise] in H3; by simplify_eq. }
    destruct (n =? 0); [done|].
    assert (∀ deltas acc l w w', days_in_range k1 deltas acc w = Ok (l, w') → w' = w)
      as Hloop.
    { clear. induction deltas as [|delta deltas IH]; intros acc l w w'; simpl.
      - by intros [= _ <-].
      - unfold bind, lift, gets. destruct (Date.add_days _ _); [|done]. simpl.
        destruct (data (self w) !! _); apply IH. }
    apply Hloop in H as ->.
    eapply grows_trans; by eapply Hk.
Qed.

Lemma inserting_never_removes_witness :
  grows (data (self one_observed))
        (insert1 738529 "Party" (data (self one_observed))).
Proof.
  apply (inserting_never_removes 2 one_observed
           (World (set_data (insert1 738529 "Party") (self one_observed)) [])).
  right; left. exists 738529, "Party". vm_compute. reflexivity.
Defined.


(* ===================================================================== *)
(** * Lookups *)
(* ===================================================================== *)

Lemma get_settled hook key dflt w :
  settled w key →
  get hook key dflt w =
    Ok (match data (self w) !! key with Some v => Some v | None => dflt end, w).
Proof.
  intros Hs. unfold get, bind. by rewrite keytransform_settled.
Qed.

Lemma getitem_settled hook key w :
  settled w key →
  getitem hook key w =
    match data (self w) !! key with
    | Some v => Ok (v, w)
    | None => Raise KeyError
    end.
Proof.
  intros Hs. unfold getitem, bind. rewrite keytransform_settled by done.
  simpl. by destruct (data (self w) !! key).
Qed.

Lemma pop_settled hook key dflt w :
  settled w key →
  pop hook key dflt w =
    match data (self w) !! key, dflt with
    | Some v, _ => Ok (v, World (set_data (delete key) (self w)) (objs w))
    | None, Some v => Ok (v, w)
    | None, None => Raise KeyError
    end.
Proof.
  intros Hs. unfold pop, bind. rewrite keytransform_settled by done.
  simpl. destruct (data (self w) !! key); [done|]. by destruct dflt.
Qed.

Lemma settled_set_data f w key :
  settled w key → settled (World (set_data f (self w)) (objs w)) key.
Proof. done. Qed.

Lemma settled_same_year w key key' :
  Date.year key' = Date.year key → settled w key → settled w key'.
Proof. unfold settled. by intros ->. Qed.

Lemma merge_twice e v : merge (merge e v) v = merge e v.
Proof.
  destruct (merge_cases e v) as [Hm|Hm]; rewrite Hm; [done|].
  apply merge_id. exists "", (", " +:+ e). by rewrite str_app_nil_l.
Qed.

Lemma insert1_twice k v d : insert1 k v (insert1 k v d) = insert1 k v d.
Proof.
  unfold insert1. rewrite lookup_insert_eq, insert_insert_eq. f_equal.
  destruct (d !! k); [apply merge_twice|apply merge_id, occurs_refl].
Qed.

(** X2. A second [self[key] = value] with the same key and value changes
    nothing: the label is not put into the text twice, and the year is
    not populated again. *)
Theorem setitem_twice fuel key value w w1 :
  setitem (populate fuel) key value w = Ok (tt, w1) →
  setitem (populate fuel) key value w1 = Ok (tt, w1).
Proof.
  pose proof (populate_ext fuel) as He.
  rewrite setitem_spec by done.
  destruct (keytransform _ key w) as [[k w0]|] eqn:E; [|done].
  apply keytransform_Ok in E as [-> Hs]; [|done].
  intros [= <-]. rewrite setitem_settled by done. simpl.
  do 3 f_equal. apply set_data_again. apply insert1_twice.
Qed.

Lemma setitem_twice_witness :
  setitem (populate 2) 738529 "Party"
    (World (set_data (insert1 738529 "Party") (self one_observed)) [])
  = Ok (tt, World (set_data (insert1 738529 "Party") (self one_observed)) []).
Proof.
  apply (setitem_twice 2 738529 "Party" one_observed).
  vm_compute. reflexivity.
Defined.

(** X5. Once a key has been looked up, the year of the key is recorded:
    a later lookup of any date of that year answers from the mapping as
    it is and leaves the object unchanged, whatever the class.  With
    [expand] false this holds from the start: no lookup ever populates. *)
Theorem lookup_settles fuel key w b w1 :
  contains (populate fuel) key w = Ok (b, w1) →
  (expand (self w1) = true → Date.year key ∈ years (self w1))
  ∧ ∀ key', Date.year key' = Date.year key ∨ expand (self w1) = false →
      contains (populate fuel) key' w1 =
        Ok (bool_decide (is_Some (data (self w1) !! key')), w1)
      ∧ (∀ dflt, get (populate fuel) key' dflt w1 =
           Ok (match data (self w1) !! key' with
               | Some v => Some v
               | None => dflt
               end, w1))
      ∧ getitem (populate fuel) key' w1 =
          match data (self w1) !! key' with
          | Some v => Ok (v, w1)
          | None => Raise KeyError
          end.
Proof.
  pose proof (populate_ext fuel) as He.
  intros H. unfold contains in H. apply bind_Ok in H as (k & w0 & H1 & H2).
  apply bind_Ok in H2 as (d & w2 & [= _ <-] & [= _ <-]).
  apply keytransform_Ok in H1 as [-> Hs]; [|done].
  split.
  - intros Hx. unfold settled in Hs. rewrite Hx in Hs. simpl in Hs.
    by apply negb_false_iff, bool_decide_eq_true in Hs.
  - intros key' Hk.
    assert (settled w0 key') as Hs'.
    { destruct Hk as [Hk|Hk]; [by eapply settled_same_year|].
      unfold settled. by rewrite Hk. }
    split; [by apply contains_settled|].
    split; [intros; by apply get_settled|by apply getitem_settled].
Qed.

Lemma lookup_settles_witness :
  (expand (self Colombia_2023) = true → Date.year 738521 ∈ years (self Colombia_2023))
  ∧ ∀ key', Date.year key' = Date.year 738521 ∨ expand (self Colombia_2023) = false →
      contains (populate 2) key' Colombia_2023 =
        Ok (bool_decide (is_Some (data (self Colombia_2023) !! key')), Colombia_2023)
      ∧ (∀ dflt, get (populate 2) key' dflt Colombia_2023 =
           Ok (match data (self Colombia_2023) !! key' with
               | Some v => Some v
               | None => dflt
               end, Colombia_2023))
      ∧ getitem (populate 2) key' Colombia_2023 =
          match data (self Colombia_2023) !! key' with
          | Some v => Ok (v, Colombia_2023)
          | None => Raise KeyError
          end.
Proof.
  apply (lookup_settles 2 738521 Colombia_2023 false).
  vm_compute. reflexivity.
Defined.

(** X6. After [self[key] = value] the key is in the calendar:
    [key in self] is true, [self.get(key)] and [self[key]] give the stored
    text, without changing the object; and the stored text holds [value],
    or is a part of [value] that was there before. *)
Theorem setitem_then_lookup fuel key value w w1 :
  setitem (populate fuel) key value w = Ok (tt, w1) →
  ∃ t, data (self w1) !! key = Some t
    ∧ (occurs value t ∨ occurs t value)
    ∧ contains (populate fuel) key w1 = Ok (true, w1)
    ∧ (∀ dflt, get (populate fuel) key dflt w1 = Ok (Some t, w1))
    ∧ getitem (populate fuel) key w1 = Ok (t, w1).
Proof.
  pose proof (populate_ext fuel) as He.
  rewrite setitem_spec by done.
  destruct (keytransform _ key w) as [[k w0]|] eqn:E; [|done].
  apply keytransform_Ok in E as [-> Hs]; [|done].
  intros [= <-].
  set (w1 := World (set_data (insert1 key value) (self w0)) (objs w0)).
  assert (settled w1 key) as Hs1 by done.
  assert (∃ t, data (self w1) !! key = Some t ∧ (occurs value t ∨ occurs t value))
    as (t & Ht & Hv).
  { simpl. unfold insert1. rewrite lookup_insert_eq. eexists; split; [done|].
    destruct (data (self w0) !! key) as [e|]; [|left; apply occurs_refl].
    unfold merge.
    destruct (find e value <? 0) eqn:E1; simpl.
    - destruct (find value e <? 0) eqn:E2.
      + left. exists "", (", " +:+ e). by rewrite str_app_nil_l.
      + right. apply find_occurs. lia.
    - left. apply find_occurs. lia. }
  exists t. split; [done|]. split; [done|].
  rewrite contains_settled, getitem_settled by done. rewrite Ht.
  split; [by rewrite bool_decide_eq_true_2|]. split; [|done].
  intros dflt. rewrite get_settled by done. by rewrite Ht.
Qed.

Lemma setitem_then_lookup_witness :
  ∃ t, data (self (World (set_data (insert1 738529 "Party") (self one_observed)) []))
         !! 738529 = Some t
    ∧ (occurs "Party" t ∨ occurs t "Party")
    ∧ contains (populate 2) 738529
        (World (set_data (insert1 738529 "Party") (self one_observed)) [])
      = Ok (true, World (set_data (insert1 738529 "Party") (self one_observed)) [])
    ∧ (∀ dflt, get (populate 2) 738529 dflt
                 (World (set_data (insert1 738529 "Party") (self one_observed)) [])
               = Ok (Some t, World (set_data (insert1 738529 "Party")
                                             (self one_observed)) []))
    ∧ getitem (populate 2) 738529
        (World (set_data (insert1 738529 "Party") (self one_observed)) [])
      = Ok (t, World (set_data (insert1 738529 "Party") (self one_observed)) []).
Proof.
  apply (setitem_then_lookup 2 738529 "Party" one_observed).
  vm_compute. reflexivity.
Defined.




(* ===================================================================== *)
(** * [update] and [append] on a plain [HolidayBase] *)
(* ===================================================================== *)

Lemma calendar_eta c :
  Calendar (data c) (years c) (expand c) (observed c) (prov c) (state c)
           (country c) (cls c) (holidays c) = c.
Proof. by destruct c. Qed.

Lemma set_years_fix f c : f (years c) = years c → set_years f c = c.
Proof. destruct c. unfold set_years. simpl. by intros ->. Qed.

Lemma record_year_set_data y f c :
  record_year y (set_data f c) = set_data f (record_year y c).
Proof. unfold record_year. simpl. by destruct (expand c). Qed.

Lemma record_years_nil c : record_years [] c = c.
Proof.
  unfold record_years. destruct (expand c); [|done].
  apply set_years_fix. set_solver.
Qed.

Lemma record_years_cons y ys c :
  record_years ys (record_year y c) = record_years (y :: ys) c.
Proof.
  unfold record_years, record_year. destruct (expand c) eqn:E; [|by rewrite E].
  simpl. rewrite E. destruct c. unfold set_years. simpl. f_equal.
  set_solver.
Qed.

Lemma populate_Base fuel y w :
  cls (self w) = HolidayBaseC → (1 ≤ fuel)%nat → populate fuel y w = Ok (tt, w).
Proof.
  intros Hc Hf. destruct fuel as [|n]; [lia|]. simpl.
  unfold bind, gets. simpl. by rewrite Hc.
Qed.

Lemma keytransform_Base fuel key w :
  cls (self w) = HolidayBaseC → (1 ≤ fuel)%nat →
  keytransform (populate fuel) key w =
    Ok (key, World (record_year (Date.year key) (self w)) (objs w)).
Proof.
  intros Hc Hf. destruct (decide (settled w key)) as [Hs|Hs].
  - rewrite keytransform_settled by done. do 2 f_equal.
    rewrite <- (world_eta w) at 1. f_equal. unfold record_year.
    unfold settled in Hs. destruct (expand (self w)); [|done].
    simpl in Hs. apply negb_false_iff, bool_decide_eq_true in Hs.
    symmetry. apply set_years_fix. set_solver.
  - rewrite keytransform_expand by done.
    rewrite populate_Base by done. do 2 f_equal.
    unfold with_year, record_year. f_equal.
    unfold settled in Hs. by destruct (expand (self w)).
Qed.

Lemma setitem_Base fuel key value w :
  cls (self w) = HolidayBaseC → (1 ≤ fuel)%nat →
  setitem (populate fuel) key value w =
    Ok (tt, World (set_data (insert1 key value)
                     (record_year (Date.year key) (self w))) (objs w)).
Proof.
  intros Hc Hf. rewrite setitem_spec by apply populate_ext.
  by rewrite keytransform_Base.
Qed.

Lemma cls_record_year y c : cls (record_year y c) = cls c.
Proof. unfold record_year. by destruct (expand c). Qed.

Lemma for_setitem_Base fuel l w :
  cls (self w) = HolidayBaseC → (1 ≤ fuel)%nat →
  for_ l (λ '(k, v), setitem (populate fuel) k v) w =
    Ok (tt, World (set_data (inserts l)
                     (record_years (Date.year <$> l.*1) (self w))) (objs w)).
Proof.
  intros Hc Hf. revert w Hc. induction l as [|[k v] l IH]; intros w Hc.
  - simpl. unfold ret. rewrite record_years_nil.
    by rewrite set_data_id, world_eta.
  - cbn [for_]. unfold bind. rewrite setitem_Base by done.
    rewrite IH by (simpl; by rewrite cls_record_year). simpl.
    do 3 f_equal. rewrite <- record_years_cons.
    set (c := record_year _ _). unfold record_years. simpl.
    destruct (expand c); by destruct c.
Qed.

Lemma inserts_cons k v l d : inserts ((k, v) :: l) d = inserts l (insert1 k v d).
Proof. done. Qed.

Lemma inserts_uniform v l d k :
  inserts ((λ k, (k, v)) <$> l) d !! k =
    if bool_decide (k ∈ l) then merge_into (d !! k) (Some v) else d !! k.
Proof.
  revert d. induction l as [|k0 l IH]; intros d; [done|].
  rewrite fmap_cons, inserts_cons, IH. unfold insert1.
  destruct (decide (k = k0)) as [->|Hk].
  - rewrite lookup_insert_eq.
    rewrite (bool_decide_eq_true_2 (k0 ∈ k0 :: l)) by set_solver.
    case_bool_decide; simpl; destruct (d !! k0); simpl; try done; f_equal;
      [apply merge_twice|apply merge_id, occurs_refl].
  - rewrite lookup_insert_ne by done.
    case_bool_decide; case_bool_decide; set_solver.
Qed.

Lemma inserts_nodup l d k :
  NoDup l.*1 →
  inserts l d !! k = merge_into (d !! k) ((list_to_map l : gmap Z string) !! k).
Proof.
  revert d. induction l as [|[k0 v0] l IH]; intros d Hn.
  - simpl. by destruct (d !! k).
  - apply NoDup_cons in Hn as [Hk0 Hn].
    rewrite inserts_cons, IH by done.
    cbn [list_to_map foldr uncurry]. simpl. unfold insert1.
    destruct (decide (k = k0)) as [->|Hk].
    + rewrite !lookup_insert_eq.
      rewrite (not_elem_of_list_to_map_1 _ k0) by done.
      by destruct (d !! k0).
    + by rewrite !lookup_insert_ne by done.
Qed.

Lemma inserts_map_to_list m d k :
  inserts (map_to_list m) d !! k = merge_into (d !! k) (m !! k).
Proof.
  rewrite inserts_nodup by apply NoDup_fst_map_to_list.
  by rewrite list_to_map_to_list.
Qed.

(** X8. [append] (or [update]) with a list of dates on a plain
    [HolidayBase]: every date of the list gets the label ["Holiday"],
    merged into the text that is there; the other entries stay; the
    years of the dates are recorded when [expand] is set; and appending
    the same list again changes nothing. *)
Theorem append_dates fuel l w :
  cls (self w) = HolidayBaseC → (1 ≤ fuel)%nat →
  ∃ w1, append (populate fuel) [AList l] w = Ok (tt, w1)
    ∧ (∀ k, data (self w1) !! k =
         if bool_decide (k ∈ l)
         then merge_into (data (self w) !! k) (Some "Holiday")
         else data (self w) !! k)
    ∧ years (self w1) =
        (if expand (self w) then list_to_set (Date.year <$> l) ∪ years (self w)
         else years (self w))
    ∧ append (populate fuel) [AList l] w1 = Ok (tt, w1).
Proof.
  intros Hc Hf.
  assert (∀ w, cls (self w) = HolidayBaseC →
            append (populate fuel) [AList l] w =
              Ok (tt, World (set_data (inserts ((λ k, (k, "Holiday")) <$> l))
                               (record_years (Date.year <$> l) (self w)))
                            (objs w))) as Happ.
  { intros w0 Hc0. unfold append, update. cbn [for_]. unfold bind at 1.
    pose proof (for_setitem_Base fuel ((λ k, (k, "Holiday")) <$> l) w0 Hc0 Hf)
      as H.
    assert (∀ l' w', for_ ((λ k, (k, "Holiday")) <$> l')
                       (λ '(k, v), setitem (populate fuel) k v) w'
                     = for_ l' (λ item, setitem (populate fuel) item "Holiday") w')
      as Hfor.
    { induction l' as [|k l' IH]; intros w'; [done|].
      cbn [fmap list_fmap for_]. unfold bind.
      destruct (setitem _ _ _ _) as [[[] w2]|]; [apply IH|done]. }
    rewrite <- Hfor, H. unfold ret.
    assert (((λ k : Z, (k, "Holiday")) <$> l).*1 = l) as ->; [|done].
    clear. induction l as [|k l IH]; [done|]. rewrite !fmap_cons. simpl.
    by f_equal. }
  eexists. split; [by apply Happ|]. split; [|split].
  - intros k. simpl.
    replace (data (record_years (Date.year <$> l) (self w))) with (data (self w))
      by (unfold record_years; by destruct (expand (self w))).
    apply inserts_uniform.
  - simpl. unfold record_years. by destruct (expand (self w)).
  - rewrite Happ.
    2:{ simpl. unfold record_years. by destruct (expand (self w)). }
    simpl. do 3 f_equal.
    set (c := record_years _ (self w)).
    assert (record_years (Date.year <$> l) (set_data (inserts ((λ k, (k, "Holiday")) <$> l)) c)
            = set_data (inserts ((λ k, (k, "Holiday")) <$> l)) c) as ->.
    { unfold record_years. simpl.
      destruct (expand c) eqn:Ec; [|done].
      apply set_years_fix. simpl. subst c. unfold record_years in *.
      destruct (expand (self w)) eqn:Ew; simpl in *; [set_solver|congruence]. }
    apply set_data_again. apply map_eq. intros k.
    rewrite !inserts_uniform. case_bool_decide; [|done].
    destruct (data c !! k); simpl; f_equal;
      first [apply merge_twice|apply merge_id, occurs_refl].
Qed.

Lemma append_dates_witness :
  ∃ w1, append (populate 1) [AList [738521; 738529; 738521]] one_part = Ok (tt, w1)
    ∧ (∀ k, data (self w1) !! k =
         if bool_decide (k ∈ [738521; 738529; 738521])
         then merge_into (data (self one_part) !! k) (Some "Holiday")
         else data (self one_part) !! k)
    ∧ years (self w1) =
        (if expand (self one_part)
         then list_to_set (Date.year <$> [738521; 738529; 738521])
              ∪ years (self one_part)
         else years (self one_part))
    ∧ append (populate 1) [AList [738521; 738529; 738521]] w1 = Ok (tt, w1).
Proof.
  apply (append_dates 1 [738521; 738529; 738521] one_part).
  - reflexivity.
  - lia.
Defined.

(** X9. [update] with a [dict] on a plain [HolidayBase]: under every key
    the text of the argument is merged into the text that is there, and
    keys of neither are not created; so updating an empty calendar copies
    the argument, and updating with the same argument again changes
    nothing more. *)
Theorem update_dict fuel m w :
  cls (self w) = HolidayBaseC → (1 ≤ fuel)%nat →
  ∃ w1, update (populate fuel) [ADict m] w = Ok (tt, w1)
    ∧ (∀ k, data (self w1) !! k = merge_into (data (self w) !! k) (m !! k))
    ∧ (data (self w) = ∅ → data (self w1) = m)
    ∧ update (populate fuel) [ADict m] w1 = Ok (tt, w1).
Proof.
  intros Hc Hf.
  assert (∀ w, cls (self w) = HolidayBaseC →
            update (populate fuel) [ADict m] w =
              Ok (tt, World (set_data (inserts (map_to_list m))
                               (record_years (Date.year <$> (map_to_list m).*1)
                                  (self w)))
                            (objs w))) as Hupd.
  { intros w0 Hc0. unfold update. cbn [for_]. unfold bind at 1.
    by rewrite for_setitem_Base. }
  assert (∀ ys c, data (record_years ys c) = data c) as Hd.
  { intros. unfold record_years. by destruct (expand c). }
  eexists. split; [by apply Hupd|]. split; [|split].
  - intros k. simpl. rewrite Hd. apply inserts_map_to_list.
  - intros He. simpl. rewrite Hd. apply map_eq. intros k.
    rewrite inserts_map_to_list, He, lookup_empty. done.
  - rewrite Hupd.
    2:{ simpl. unfold record_years. by destruct (expand (self w)). }
    simpl. do 3 f_equal.
    set (c := record_years _ (self w)).
    assert (record_years (Date.year <$> (map_to_list m).*1)
              (set_data (inserts (map_to_list m)) c)
            = set_data (inserts (map_to_list m)) c) as ->.
    { unfold record_years. simpl.
      destruct (expand c) eqn:Ec; [|done].
      apply set_years_fix. simpl. subst c. unfold record_years in *.
      destruct (expand (self w)) eqn:Ew; simpl in *; [set_solver|congruence]. }
    apply set_data_again. apply map_eq. intros k.
    rewrite !inserts_map_to_list.
    destruct (data c !! k), (m !! k); simpl; try done.
    + f_equal. apply merge_twice.
    + f_equal. apply merge_id, occurs_refl.
Qed.

Lemma update_dict_witness :
  ∃ w1, update (populate 1) [ADict (data (self one_observed))] one_part = Ok (tt, w1)
    ∧ (∀ k, data (self w1) !! k =
         merge_into (data (self one_part) !! k) (data (self one_observed) !! k))
    ∧ (data (self one_part) = ∅ → data (self w1) = data (self one_observed))
    ∧ update (populate 1) [ADict (data (self one_observed))] w1 = Ok (tt, w1).
Proof.
  apply (update_dict 1 (data (self one_observed)) one_part).
  - reflexivity.
  - lia.
Defined.


(* ===================================================================== *)
(** * What [Colombia._populate] stores *)
(* ===================================================================== *)

Lemma date_invalid_year y m d :
  ¬ valid_year y → Date.fits_int m = true → Date.fits_int d = true →
  Date.date y m d = Raise (year_error y).
Proof.
  unfold valid_year, Date.date, year_error. intros H -> ->.
  destruct (Date.fits_int y); [|done]. simpl.
  destruct (Z.leb_spec Date.MINYEAR y); [|done].
  destruct (Z.leb_spec y Date.MAXYEAR); [lia|done].
Qed.

Lemma populate_invalid_year fuel y w :
  cls (self w) = ColombiaC → ¬ valid_year y → (1 ≤ fuel)%nat →
  populate fuel y w = Raise (year_error y).
Proof.
  intros Hc Hy Hf. destruct fuel as [|n]; [lia|].
  rewrite populate_S_Colombia by done.
  assert (unless_weekend (populate n) y JAN 1 "Año Nuevo [New Year's Day]" w
          = Raise (year_error y)) as H.
  { unfold unless_weekend, bind, gets, lift, ret.
    rewrite date_invalid_year by done. by destruct (observed (self w)). }
  unfold Colombia_populate. unfold bind at 1. by rewrite H.
Qed.

Lemma for_populate_invalid fuel l w :
  cls (self w) = ColombiaC →
  Exists (λ y, ¬ valid_year y) l → (2 ≤ fuel)%nat →
  ∃ y, y ∈ l ∧ ¬ valid_year y
       ∧ for_ l (populate fuel) w = Raise (year_error y).
Proof.
  intros Hc Hl Hf. revert w Hc.
  induction l as [|y l IH]; intros w Hc; [by apply Exists_nil in Hl|].
  cbn [for_]. unfold bind.
  destruct (decide (Date.MINYEAR ≤ y ≤ Date.MAXYEAR)) as [Hy|Hy].
  - rewrite (populate_Colombia fuel y w Hc Hy Hf).
    destruct IH with (w := if expand (self w)
                              && negb (bool_decide (y ∈ years (self w)))
                           then World (set_data
                                  (λ d, inserts (Colombia_entries (observed (self w)) y)
                                          (inserts (Colombia_entries (observed (self w)) y) d))
                                  (self (with_year y w))) (objs w)
                           else World (set_data
                                  (inserts (Colombia_entries (observed (self w)) y))
                                  (self w)) (objs w))
      as (y' & Hin & Hy' & Hfor).
    + apply Exists_cons in Hl as [Hl|Hl]; done.
    + by destruct (expand (self w) && _).
    + exists y'. split; [set_solver|done].
  - exists y. split; [set_solver|]. split; [done|].
    rewrite populate_invalid_year; [done..|lia].
Qed.

(** X22. [_populate(year)] of a [Colombia] calendar raises for a year
    that is not a year [date] accepts (1 to 9999): [ValueError] when the
    year is a C [int], [OverflowError] when it is not.
    [Colombia(years=ys, ..)] with such a year among [ys] raises in the
    same way, for one of the years of [ys] that [date] does not
    accept. *)
Theorem Colombia_new_invalid fuel ys e o pv stt st y w :
  y ∈ ys → ¬ valid_year y → (2 ≤ fuel)%nat → cls (self w) = ColombiaC →
  populate fuel y w
    = Raise (if Date.fits_int y then ValueError else OverflowError)
  ∧ ∃ y', y' ∈ ys ∧ ¬ valid_year y'
      ∧ Colombia_new fuel ys e o pv stt st
        = Raise (if Date.fits_int y' then ValueError else OverflowError).
Proof.
  intros Hin Hy Hf Hc. split; [apply populate_invalid_year; [done..|lia]|].
  set (w0 := World (Calendar ∅ (list_to_set ys) e o pv stt (Some (PStr "CO"))
                             ColombiaC []) st).
  change (Colombia_new fuel ys e o pv stt st)
    with (match for_ (elements (list_to_set ys : gset Z)) (populate fuel) w0 with
          | Ok (_, w) => Ok w
          | Raise e => Raise e
          end).
  destruct (for_populate_invalid fuel (elements (list_to_set ys : gset Z)) w0)
    as (y' & Hy'in & Hy' & Hfor); [done| |done|].
  { apply Exists_exists. exists y. split; [|done].
    by apply elem_of_elements, elem_of_list_to_set. }
  exists y'. split; [by apply elem_of_elements, elem_of_list_to_set in Hy'in|].
  split; [done|]. by rewrite Hfor.
Qed.

Lemma Colombia_new_invalid_witness :
  populate 2 2147483648 fresh_Colombia
    = Raise (if Date.fits_int 2147483648 then ValueError else OverflowError)
  ∧ ∃ y', y' ∈ [2023; 2147483648] ∧ ¬ valid_year y'
      ∧ Colombia_new 2 [2023; 2147483648] true true PNone PNone []
        = Raise (if Date.fits_int y' then ValueError else OverflowError).
Proof.
  apply (Colombia_new_invalid 2 [2023; 2147483648] true true PNone PNone []
           2147483648 fresh_Colombia).
  - set_solver.
  - unfold valid_year, Date.MAXYEAR. lia.
  - lia.
  - reflexivity.
Defined.

(** X21. [Colombia(years=ys, expand=e, observed=o, prov=pv, state=stt)]
    with years [date] accepts returns a calendar of country ["CO"] whose
    [years] is the set of [ys], whose mapping is what populating those
    years gives and nothing else, with [expand] and [observed] as given;
    the objects that exist already are not touched. *)
Theorem Colombia_new_returns fuel ys e o pv stt st :
  Forall valid_year ys → (2 ≤ fuel)%nat →
  ∃ w, Colombia_new fuel ys e o pv stt st = Ok w
    ∧ data (self w) = populated o (elements (years (self w)))
    ∧ years (self w) = list_to_set ys
    ∧ expand (self w) = e ∧ observed (self w) = o
    ∧ cls (self w) = ColombiaC ∧ country (self w) = Some (PStr "CO")
    ∧ objs w = st.
Proof. apply Colombia_new_spec. Qed.

Lemma Colombia_new_returns_witness :
  ∃ w, Colombia_new 2 [2023; 2024] true false PNone PNone [] = Ok w
    ∧ data (self w) = populated false (elements (years (self w)))
    ∧ years (self w) = list_to_set [2023; 2024]
    ∧ expand (self w) = true ∧ observed (self w) = false
    ∧ cls (self w) = ColombiaC ∧ country (self w) = Some (PStr "CO")
    ∧ objs w = [].
Proof.
  apply (Colombia_new_returns 2 [2023; 2024] true false PNone PNone []).
  - repeat constructor; unfold Date.MINYEAR, Date.MAXYEAR; lia.
  - lia.
Defined.

(** X16. Setting [observed] to [True] on a [Colombia] calendar that has
    an entry empties the mapping and populates the recorded years again:
    what was added by hand, or populated for a year that is not
    recorded, is gone.  With [expand] set the recorded years are as
    before; with [expand] not set [years] is left empty. *)
Theorem setattr_observed_true_repopulates fuel w :
  cls (self w) = ColombiaC → (0 < size (data (self w)))%nat →
  Forall valid_year (elements (years (self w))) → (2 ≤ fuel)%nat →
  ∃ w', setattr_observed (populate fuel) true w = Ok (tt, w')
    ∧ data (self w') = populated true (elements (years (self w)))
    ∧ years (self w') = (if expand (self w) then years (self w) else ∅)
    ∧ observed (self w') = true
    ∧ expand (self w') = expand (self w)
    ∧ objs w' = objs w.
Proof. apply setattr_observed_true_Colombia. Qed.

Lemma setattr_observed_true_repopulates_witness :
  ∃ w', setattr_observed (populate 2) true Colombia_2023 = Ok (tt, w')
    ∧ data (self w') = populated true (elements (years (self Colombia_2023)))
    ∧ years (self w') =
        (if expand (self Colombia_2023) then years (self Colombia_2023) else ∅)
    ∧ observed (self w') = true
    ∧ expand (self w') = expand (self Colombia_2023)
    ∧ objs w' = objs Colombia_2023.
Proof.
  apply (setattr_observed_true_repopulates 2 Colombia_2023).
  - reflexivity.
  - vm_compute. lia.
  - simpl. rewrite elements_singleton. repeat constructor;
      unfold Date.MINYEAR, Date.MAXYEAR; lia.
  - lia.
Defined.
Lemma easter_sunday y : Date.weekday (easter_ord y) = SUN.
Proof.
  unfold easter_ord. cbv zeta.
  set (g := y mod 19).
  set (c := y / 100).
  set (h := (c - c / 4 - (8 * c + 13) / 25 + 19 * g + 15) mod 30).
  set (i := h - (h / 28) * (1 - (h / 28) * (29 / (h + 1)) * ((21 - g) / 11))).
  set (j := (y + y / 4 + i + 2 - c + c / 4) mod 7).
  set (p := i - j + 0).
  assert (Hg : 0 ≤ g < 19) by (apply Z.mod_pos_bound; lia).
  assert (Hh : 0 ≤ h < 30) by (apply Z.mod_pos_bound; lia).
  assert (Hi : 0 ≤ i ≤ 28).
  { subst i. destruct (Z.lt_ge_cases h 28) as [Hlt|Hge].
    - rewrite (Z.div_small h 28) by lia. lia.
    - assert (h = 28 ∨ h = 29) as [-> | ->] by lia.
      + change (28 / 28) with 1. change (29 / (28 + 1)) with 1.
        assert (0 ≤ (21 - g) / 11 ≤ 1) by (Z.div_mod_to_equations; lia). lia.
      + change (29 / 28) with 1. change (29 / (29 + 1)) with 0. lia. }
  assert (Hj : 0 ≤ j < 7) by (apply Z.mod_pos_bound; lia).
  assert (Hp : -6 ≤ p ≤ 28) by lia.
  assert (Hord : Date.ymd2ord y (3 + (p + 26) / 30)
                   (1 + (p + 27 + (p + 6) / 40) mod 31)
                 = Date.days_before_year y + (if Date.is_leap y then 1 else 0)
                   + p + 87).
  { unfold Date.ymd2ord, Date.days_before_month.
    assert ((p + 26) / 30 = 0 ∧ (p + 6) / 40 = 0 ∧ p ≤ 3
            ∨ (p + 26) / 30 = 1 ∧ (p + 6) / 40 = 0 ∧ 4 ≤ p)
      as [(-> & -> & ?)|(-> & -> & ?)] by (Z.div_mod_to_equations; lia).
    - simpl. rewrite Z.mod_small by lia. destruct (Date.is_leap y); lia.
    - simpl. destruct (Date.is_leap y); Z.div_mod_to_equations; lia. }
  rewrite Hord. unfold Date.weekday, SUN.
  assert (Date.days_before_year y + (if Date.is_leap y then 1 else 0)
          = 365 * (y - 1) + y / 4 - c + c / 4) as ->.
  { subst c. unfold Date.days_before_year, Date.is_leap.
    repeat match goal with
           | |- context [(?a =? ?b)%Z] => destruct (Z.eqb_spec a b)
           end; simpl; Z.div_mod_to_equations; lia. }
  subst p j. clearbody i c. clear.
  Z.div_mod_to_equations. lia.
Qed.

Lemma populate_Colombia_stores fuel y w :
  cls (self w) = ColombiaC → valid_year y → (2 ≤ fuel)%nat →
  populated_only (data (self w)) →
  ∃ w', populate fuel y w = Ok (tt, w')
    ∧ data (self w') =
        inserts (Colombia_entries (observed (self w)) y) (data (self w))
    ∧ years (self w') = (if expand (self w) then {[y]} ∪ years (self w)
                         else years (self w))
    ∧ same_attrs (self w) (self w') ∧ objs w' = objs w.
Proof.
  intros Hc Hy Hf Hd. eexists. split; [by apply populate_Colombia|].
  eapply populate_Colombia_data; [done..|]. by apply populate_Colombia.
Qed.

Lemma row_entry obs y r d N kv :
  In (r, d, N) (Colombia_table y) → In kv (entry_of obs (r, d, N)) →
  In kv (Colombia_entries obs y).
Proof. intros Hrow Hin. apply in_flat_map. by exists (r, d, N). Qed.

Lemma entries_stored obs y d k v :
  populated_only d → In (k, v) (Colombia_entries obs y) →
  ∃ t, inserts (Colombia_entries obs y) d !! k = Some t ∧ occurs v t.
Proof. intros Hd Hin. apply inserts_has; [done|apply entries_labels|done]. Qed.



(** X24. On a [Colombia] calendar in which no stored text is a proper
    part of a label [_populate] gives its date, and with [observed]
    false, [Colombia._populate(year)] stores every one of the eighteen
    names of its table under the raw date of the holiday, whatever the
    day of the week.  (A text put by hand that is a part of a label
    keeps that label out: the condition is needed.) *)
Theorem Colombia_not_observed fuel y w :
  cls (self w) = ColombiaC → valid_year y → (2 ≤ fuel)%nat →
  populated_only (data (self w)) → observed (self w) = false →
  ∃ w', populate fuel y w = Ok (tt, w')
    ∧ ∀ r d N, In (r, d, N) (Colombia_table y) →
        Date.year d = y
        ∧ ∃ t, data (self w') !! d = Some t ∧ occurs N t.
Proof.
  intros Hc Hy Hf Hd Ho.
  destruct (populate_Colombia_stores fuel y w Hc Hy Hf Hd)
    as (w' & Hp & Hdata & _).
  exists w'. split; [done|]. intros r d N Hrow.
  assert (In (d, N) (Colombia_entries false y)) as Hin.
  { eapply row_entry; [done|]. destruct r; simpl.
    - by left.
    - by left.
    - rewrite orb_true_r. by left. }
  split; [by eapply entries_year|].
  rewrite Hdata, Ho. by apply entries_stored.
Qed.

(** X25. The fixed-date holidays, on a [Colombia] calendar in which no
    stored text is a proper part of a label [_populate] gives its date.
    Labour Day (May 1), the Battle of Boyacá (August 7) and Christmas
    (December 25) are stored in every year, on week-ends too, whatever
    [observed] is.  New Year's Day (January 1), Independence Day
    (July 20) and the Immaculate Conception (December 8) are stored
    unless [observed] is set and the day is a Saturday or a Sunday; then
    [_populate] stores nothing under that date, whose entry, if it has
    one, stays as it was. *)
Theorem Colombia_fixed_dates fuel y w :
  cls (self w) = ColombiaC → valid_year y → (2 ≤ fuel)%nat →
  populated_only (data (self w)) →
  ∃ w', populate fuel y w = Ok (tt, w')
    ∧ (∀ m d N,
         (m, d, N) ∈ [(MAY, 1, "Día del Trabajo [Labour Day]");
                      (AUG, 7, "Batalla de Boyacá [Battle of Boyacá]");
                      (DEC, 25, "Navidad [Christmas]")] →
         ∃ t, data (self w') !! Date.ymd2ord y m d = Some t ∧ occurs N t)
    ∧ (∀ m d N,
         (m, d, N) ∈ [(JAN, 1, "Año Nuevo [New Year's Day]");
                      (JUL, 20, "Día de la Independencia [Independence Day]");
                      (DEC, 8, "La Inmaculada Concepción [Immaculate Conception]")] →
         if observed (self w) && in_WEEKEND (Date.weekday (Date.ymd2ord y m d))
         then data (self w') !! Date.ymd2ord y m d
              = data (self w) !! Date.ymd2ord y m d
         else ∃ t, data (self w') !! Date.ymd2ord y m d = Some t ∧ occurs N t).
Proof.
  intros Hc Hy Hf Hd.
  destruct (populate_Colombia_stores fuel y w Hc Hy Hf Hd)
    as (w' & Hp & Hdata & _).
  exists w'. split; [done|]. rewrite Hdata. split.
  - intros m d N Hin. apply entries_stored; [done|].
    apply (row_entry _ _ Unconditional (Date.ymd2ord y m d) N); [|by left].
    simpl. set_unfold in Hin.
    destruct Hin as [[= -> -> ->]|[[= -> -> ->]|[[= -> -> ->]|[]]]]; tauto.
  - intros m d N Hin.
    assert (In (StrictWeekend, Date.ymd2ord y m d, N) (Colombia_table y)) as Hrow.
    { simpl. set_unfold in Hin.
      destruct Hin as [[= -> -> ->]|[[= -> -> ->]|[[= -> -> ->]|[]]]]; tauto. }
    destruct (observed (self w) && _) eqn:Hskip.
    + apply inserts_lookup_other. intros v Hv.
      apply andb_true_iff in Hskip as [Hobs Hwe]. rewrite Hobs in Hv.
      unfold Colombia_entries in Hv.
      apply in_flat_map in Hv as ([[r' d'] N'] & Hrow' & Hv).
      assert (Date.weekday (Date.ymd2ord y m d) = SAT
              ∨ Date.weekday (Date.ymd2ord y m d) = SUN) as Hwd.
      { unfold in_WEEKEND in Hwe. apply orb_true_iff in Hwe. lia. }
      pose proof (next_monday_weekday d') as Hmon.
      assert (Date.weekday (weekday_on_or_before THU (easter_ord y)) = 3) as Hthu
        by (apply (weekday_on_or_before_weekday THU); unfold THU; lia).
      assert (Date.weekday (weekday_on_or_before FRI (easter_ord y)) = 4) as Hfri
        by (apply (weekday_on_or_before_weekday FRI); unfold FRI; lia).
      unfold SAT, SUN, MON in Hwd, Hmon.
      destruct r'; simpl in Hv.
      * destruct Hv as [[= -> ->]|[]]. clear Hrow. simpl in Hrow'.
        set_unfold in Hin.
        destruct Hin as [[= -> -> ->]|[[= -> -> ->]|[[= -> -> ->]|[]]]];
        repeat (destruct Hrow' as [Hrow'|Hrow'];
                [try discriminate Hrow'; injection Hrow' as Heq _;
                 first [ rewrite <- Heq in Hwd; lia
                       | unfold Date.ymd2ord, Date.days_before_month in Heq;
                         simpl in Heq; destruct (Date.is_leap y); lia ]|]);
        done.
      * destruct (in_WEEKEND (Date.weekday d')) eqn:Hwe'; [done|].
        destruct Hv as [[= -> ->]|[]]. congruence.
      * destruct (Date.weekday d' =? _) eqn:Hw; simpl in Hv;
          destruct Hv as [[= Hk _]|[]].
        -- apply Z.eqb_eq in Hw. unfold MON in Hw. rewrite Hk in Hw. lia.
        -- rewrite Hk in Hmon. lia.
    + apply entries_stored; [done|].
      apply (row_entry _ _ StrictWeekend (Date.ymd2ord y m d) N); [done|].
      simpl. rewrite Hskip. by left.
Qed.

Lemma Colombia_not_observed_witness :
  ∃ w', populate 2 2021 (World (set_observed_attr false (self fresh_Colombia)) [])
        = Ok (tt, w')
    ∧ ∀ r d N, In (r, d, N) (Colombia_table 2021) →
        Date.year d = 2021
        ∧ ∃ t, data (self w') !! d = Some t ∧ occurs N t.
Proof.
  apply (Colombia_not_observed 2 2021
           (World (set_observed_attr false (self fresh_Colombia)) [])).
  - reflexivity.
  - unfold valid_year, Date.MINYEAR, Date.MAXYEAR. lia.
  - lia.
  - apply populated_only_empty.
  - reflexivity.
Defined.

Lemma Colombia_fixed_dates_witness :
  ∃ w', populate 2 2022 fresh_Colombia = Ok (tt, w')
    ∧ (∀ m d N,
         (m, d, N) ∈ [(MAY, 1, "Día del Trabajo [Labour Day]");
                      (AUG, 7, "Batalla de Boyacá [Battle of Boyacá]");
                      (DEC, 25, "Navidad [Christmas]")] →
         ∃ t, data (self w') !! Date.ymd2ord 2022 m d = Some t ∧ occurs N t)
    ∧ (∀ m d N,
         (m, d, N) ∈ [(JAN, 1, "Año Nuevo [New Year's Day]");
                      (JUL, 20, "Día de la Independencia [Independence Day]");
                      (DEC, 8, "La Inmaculada Concepción [Immaculate Conception]")] →
         if observed (self fresh_Colombia)
            && in_WEEKEND (Date.weekday (Date.ymd2ord 2022 m d))
         then data (self w') !! Date.ymd2ord 2022 m d
              = data (self fresh_Colombia) !! Date.ymd2ord 2022 m d
         else ∃ t, data (self w') !! Date.ymd2ord 2022 m d = Some t ∧ occurs N t).
Proof.
  apply (Colombia_fixed_dates 2 2022 fresh_Colombia).
  - reflexivity.
  - unfold valid_year, Date.MINYEAR, Date.MAXYEAR. lia.
  - lia.
  - apply populated_only_empty.
Defined.

(** X26. The Emiliani-law holidays with fixed dates, [observed] being
    set, on a [Colombia] calendar in which no stored text is a proper
    part of a label [_populate] gives its date: each is stored under the
    first Monday on or after its date, a day of the same year; the label
    is the name when the date itself is that Monday and the name
    followed by ["(Observed)"], with no space between, when the holiday
    was moved. *)
Theorem Colombia_emiliani fuel y w :
  cls (self w) = ColombiaC → valid_year y → (2 ≤ fuel)%nat →
  populated_only (data (self w)) → observed (self w) = true →
  ∃ w', populate fuel y w = Ok (tt, w')
    ∧ ∀ m d N,
        (m, d, N) ∈ [(JAN, 6, "Día de los Reyes Magos [Epiphany]");
                     (MAR, 19, "Día de San José [Saint Joseph's Day]");
                     (JUN, 29, "San Pedro y San Pablo [Saint Peter and Saint Paul]");
                     (AUG, 15, "La Asunción [Assumption of Mary]");
                     (OCT, 12, "Descubrimiento de América [Discovery of America]");
                     (NOV, 1, "Dia de Todos los Santos [All Saint's Day]");
                     (NOV, 11, "Independencia de Cartagena [Independence of Cartagena]")] →
        ∃ k t, data (self w') !! k = Some t
          ∧ Date.weekday k = MON
          ∧ Date.ymd2ord y m d ≤ k ≤ Date.ymd2ord y m d + 6
          ∧ Date.year k = y
          ∧ occurs (if decide (k = Date.ymd2ord y m d) then N
                    else N +:+ "(Observed)") t.
Proof.
  intros Hc Hy Hf Hd Ho.
  destruct (populate_Colombia_stores fuel y w Hc Hy Hf Hd)
    as (w' & Hp & Hdata & _).
  exists w'. split; [done|]. rewrite Hdata, Ho. intros m d N Hin.
  assert (In (MovedToMonday, Date.ymd2ord y m d, N) (Colombia_table y)) as Hrow.
  { simpl. set_unfold in Hin.
    destruct Hin as [[= -> -> ->]|[[= -> -> ->]|[[= -> -> ->]|[[= -> -> ->]|
      [[= -> -> ->]|[[= -> -> ->]|[[= -> -> ->]|[]]]]]]]]; tauto. }
  set (r := Date.ymd2ord y m d) in *.
  pose proof (next_monday_range r) as Hr.
  pose proof (next_monday_weekday r) as Hm.
  assert (In (next_monday r,
              if decide (next_monday r = r) then N else N +:+ "(Observed)")
             (Colombia_entries true y)) as Hent.
  { eapply row_entry; [exact Hrow|]. simpl.
    destruct (Date.weekday r =? MON) eqn:Hw; simpl.
    - apply Z.eqb_eq in Hw. left.
      assert (next_monday r = r) as ->.
      { revert Hw. unfold next_monday, Date.weekday, MON.
        intros. Z.div_mod_to_equations. lia. }
      by rewrite decide_True.
    - apply Z.eqb_neq in Hw. left.
      pose proof (next_monday_moves r Hw). rewrite decide_False by lia. done. }
  destruct (entries_stored true y (data (self w)) _ _ Hd Hent) as (t & Ht & Hocc).
  exists (next_monday r), t. split; [done|]. split; [done|]. split; [lia|].
  split; [by eapply entries_year|done].
Qed.

Lemma Colombia_emiliani_witness :
  ∃ w', populate 2 2023 fresh_Colombia = Ok (tt, w')
    ∧ ∀ m d N,
        (m, d, N) ∈ [(JAN, 6, "Día de los Reyes Magos [Epiphany]");
                     (MAR, 19, "Día de San José [Saint Joseph's Day]");
                     (JUN, 29, "San Pedro y San Pablo [Saint Peter and Saint Paul]");
                     (AUG, 15, "La Asunción [Assumption of Mary]");
                     (OCT, 12, "Descubrimiento de América [Discovery of America]");
                     (NOV, 1, "Dia de Todos los Santos [All Saint's Day]");
                     (NOV, 11, "Independencia de Cartagena [Independence of Cartagena]")] →
        ∃ k t, data (self w') !! k = Some t
          ∧ Date.weekday k = MON
          ∧ Date.ymd2ord 2023 m d ≤ k ≤ Date.ymd2ord 2023 m d + 6
          ∧ Date.year k = 2023
          ∧ occurs (if decide (k = Date.ymd2ord 2023 m d) then N
                    else N +:+ "(Observed)") t.
Proof.
  apply (Colombia_emiliani 2 2023 fresh_Colombia).
  - reflexivity.
  - unfold valid_year, Date.MINYEAR, Date.MAXYEAR. lia.
  - lia.
  - apply populated_only_empty.
  - reflexivity.
Defined.

(** X27. The holidays that follow Easter, on a [Colombia] calendar in
    which no stored text is a proper part of a label [_populate] gives
    its date.  [easter(year)] is a Sunday between March 22 and April 25;
    Maundy Thursday and Good Friday are stored three and two days before
    it, whatever [observed] is; the Ascension, Corpus Christi and the
    Sacred Heart are stored 39, 60 and 68 days after it when [observed]
    is false, and always moved, to the Mondays 43, 64 and 71 days after
    it, with ["(Observed)"] appended, when [observed] is true. *)
Theorem Colombia_easter fuel y w :
  cls (self w) = ColombiaC → valid_year y → (2 ≤ fuel)%nat →
  populated_only (data (self w)) →
  ∃ w', populate fuel y w = Ok (tt, w')
    ∧ easter y = Ok (easter_ord y)
    ∧ Date.weekday (easter_ord y) = SUN
    ∧ Date.ymd2ord y 3 22 ≤ easter_ord y ≤ Date.ymd2ord y 4 25
    ∧ (∀ n N,
         (n, N) ∈ [(-3, "Jueves Santo [Maundy Thursday]");
                   (-2, "Viernes Santo [Good Friday]")] →
         ∃ t, data (self w') !! (easter_ord y + n) = Some t ∧ occurs N t)
    ∧ (∀ n n' N,
         (n, n', N) ∈ [(39, 43, "Ascensión del señor [Ascension of Jesus]");
                       (60, 64, "Corpus Christi [Corpus Christi]");
                       (68, 71, "Sagrado Corazón [Sacred Heart]")] →
         if observed (self w)
         then Date.weekday (easter_ord y + n') = MON
              ∧ ∃ t, data (self w') !! (easter_ord y + n') = Some t
                     ∧ occurs (N +:+ "(Observed)") t
         else ∃ t, data (self w') !! (easter_ord y + n) = Some t ∧ occurs N t).
Proof.
  intros Hc Hy Hf Hd.
  destruct (populate_Colombia_stores fuel y w Hc Hy Hf Hd)
    as (w' & Hp & Hdata & _).
  pose proof (easter_sunday y) as Hsun.
  exists w'. split; [done|]. split; [by apply easter_Ok|]. split; [done|].
  split; [apply easter_range|]. rewrite Hdata.
  unfold Date.weekday, SUN in Hsun. split.
  - intros n N Hin. apply entries_stored; [done|]. set_unfold in Hin.
    destruct Hin as [[= -> ->]|[[= -> ->]|[]]].
    + replace (easter_ord y + -3) with (weekday_on_or_before THU (easter_ord y)).
      2:{ unfold weekday_on_or_before, Date.weekday, THU.
          Z.div_mod_to_equations. lia. }
      eapply (row_entry _ _ Unconditional); [|by left]. simpl. tauto.
    + replace (easter_ord y + -2) with (weekday_on_or_before FRI (easter_ord y)).
      2:{ unfold weekday_on_or_before, Date.weekday, FRI.
          Z.div_mod_to_equations. lia. }
      eapply (row_entry _ _ Unconditional); [|by left]. simpl. tauto.
  - intros n n' N Hin.
    assert (In (MovedToMonday, easter_ord y + n, N) (Colombia_table y)
            ∧ Date.weekday (easter_ord y + n) ≠ MON
            ∧ next_monday (easter_ord y + n) = easter_ord y + n') as (Hrow & Hw & Hn).
    { set_unfold in Hin.
      destruct Hin as [[= -> -> ->]|[[= -> -> ->]|[[= -> -> ->]|[]]]];
        (split; [simpl; tauto|]);
        unfold next_monday, Date.weekday, MON; Z.div_mod_to_equations; lia. }
    apply Z.eqb_neq in Hw.
    destruct (observed (self w)) eqn:Ho.
    + split.
      * rewrite <- Hn. apply next_monday_weekday.
      * apply entries_stored; [done|]. eapply row_entry; [exact Hrow|].
        simpl. rewrite Hw, Hn. by left.
    + apply entries_stored; [done|]. eapply row_entry; [exact Hrow|].
      simpl. rewrite orb_true_r. by left.
Qed.

Lemma Colombia_easter_witness :
  ∃ w', populate 2 2023 fresh_Colombia = Ok (tt, w')
    ∧ easter 2023 = Ok (easter_ord 2023)
    ∧ Date.weekday (easter_ord 2023) = SUN
    ∧ Date.ymd2ord 2023 3 22 ≤ easter_ord 2023 ≤ Date.ymd2ord 2023 4 25
    ∧ (∀ n N,
         (n, N) ∈ [(-3, "Jueves Santo [Maundy Thursday]");
                   (-2, "Viernes Santo [Good Friday]")] →
         ∃ t, data (self w') !! (easter_ord 2023 + n) = Some t ∧ occurs N t)
    ∧ (∀ n n' N,
         (n, n', N) ∈ [(39, 43, "Ascensión del señor [Ascension of Jesus]");
                       (60, 64, "Corpus Christi [Corpus Christi]");
                       (68, 71, "Sagrado Corazón [Sacred Heart]")] →
         if observed (self fresh_Colombia)
         then Date.weekday (easter_ord 2023 + n') = MON
              ∧ ∃ t, data (self w') !! (easter_ord 2023 + n') = Some t
                     ∧ occurs (N +:+ "(Observed)") t
         else ∃ t, data (self w') !! (easter_ord 2023 + n) = Some t ∧ occurs N t).
Proof.
  apply (Colombia_easter 2 2023 fresh_Colombia).
  - reflexivity.
  - unfold valid_year, Date.MINYEAR, Date.MAXYEAR. lia.
  - lia.
  - apply populated_only_empty.
Defined.


(* ===================================================================== *)
(** * Errors *)
(* ===================================================================== *)

(** X12. What a range query rejects.  With a bound missing it raises
    [ValueError] at once.  With both bounds given the bounds are
    normalised first; then a step that is neither [None], a [timedelta]
    nor an [int] raises [TypeError], and a step of zero, as an [int] or
    as a [timedelta], raises [ValueError].  A range from a date to
    itself is empty and leaves a settled calendar unchanged. *)
Theorem getitem_slice_errors fuel start stop step w w1 w2 :
  keytransform (populate fuel) start w = Ok (start, w1) →
  keytransform (populate fuel) stop w1 = Ok (stop, w2) →
  getitem_slice (populate fuel) None (Some stop) step w = Raise ValueError
  ∧ getitem_slice (populate fuel) (Some start) None step w = Raise ValueError
  ∧ getitem_slice (populate fuel) None None step w = Raise ValueError
  ∧ getitem_slice (populate fuel) (Some start) (Some stop) StepOther w
    = Raise TypeError
  ∧ getitem_slice (populate fuel) (Some start) (Some stop) (StepInt 0) w
    = Raise ValueError
  ∧ getitem_slice (populate fuel) (Some start) (Some stop) (StepDelta 0) w
    = Raise ValueError
  ∧ (step_value step ≠ Some 0 → step ≠ StepOther →
     getitem_slice (populate fuel) (Some start) (Some start) step w
     = Ok ([], w1)).
Proof.
  intros H1 H2. repeat split; try done.
  - unfold getitem_slice, bind. by rewrite H1, H2.
  - unfold getitem_slice, bind. by rewrite H1, H2.
  - unfold getitem_slice, bind. by rewrite H1, H2.
  - intros Hz Ho. unfold getitem_slice, bind. rewrite H1.
    apply keytransform_Ok in H1 as [_ Hs]; [|apply populate_ext].
    rewrite keytransform_settled by done.
    assert (∃ n, step_value step = Some n ∧ n ≠ 0
                 ∧ (match step with
                    | StepNone => ret 1
                    | StepDelta days => ret days
                    | StepInt n => ret n
                    | StepOther => raise TypeError
                    end) w1 = Ok (n, w1)) as (n & Hn & Hn0 & ->).
    { destruct step as [|n|n|]; simpl in *; [by exists 1|exists n|exists n|done];
        (split; [done|split; [congruence|done]]). }
    destruct (Z.eqb_spec n 0) as [|_]; [done|].
    unfold Date.sub. rewrite Z.sub_diag.
    replace (py_range0 0 _) with (@nil Z); [done|].
    unfold py_range0. simpl.
    destruct (n <? 0) eqn:E; simpl.
    + destruct (0 <? n * -1) eqn:E2.
      * replace ((0 + n * -1 - 1) / (n * -1)) with 0; [done|].
        symmetry. apply Z.div_small. lia.
      * lia.
    + destruct (0 <? n) eqn:E2; [|lia].
      replace ((0 + n - 1) / n) with 0; [done|].
      symmetry. apply Z.div_small. lia.
Qed.

Lemma getitem_slice_errors_witness :
  getitem_slice (populate 2) None (Some 738530) StepNone one_observed
    = Raise ValueError
  ∧ getitem_slice (populate 2) (Some 738521) None StepNone one_observed
    = Raise ValueError
  ∧ getitem_slice (populate 2) None None StepNone one_observed = Raise ValueError
  ∧ getitem_slice (populate 2) (Some 738521) (Some 738530) StepOther one_observed
    = Raise TypeError
  ∧ getitem_slice (populate 2) (Some 738521) (Some 738530) (StepInt 0) one_observed
    = Raise ValueError
  ∧ getitem_slice (populate 2) (Some 738521) (Some 738530) (StepDelta 0)
      one_observed
    = Raise ValueError
  ∧ (step_value StepNone ≠ Some 0 → StepNone ≠ StepOther →
     getitem_slice (populate 2) (Some 738521) (Some 738521) StepNone one_observed
     = Ok ([], one_observed)).
Proof.
  apply (getitem_slice_errors 2 738521 738530 StepNone
           one_observed one_observed one_observed).
  - vm_compute. reflexivity.
  - vm_compute. reflexivity.
Defined.

(** X19. What [+] rejects.  An [int] other than 0 and a value that is no
    calendar raise [TypeError]; a plain [HolidayBase] on the left, which
    has no [country] attribute, makes [self.country] raise
    [AttributeError], whatever calendar is on the right; and so does one
    on the right when the calendar on the left has a country. *)
Theorem add_errors fuel st i j a b n :
  st !! i = Some a → st !! j = Some b →
  (n ≠ 0 → add fuel st i (OInt n) = Raise TypeError)
  ∧ add fuel st i OOther = Raise TypeError
  ∧ (country a = None → add fuel st i (OCal j) = Raise AttributeError)
  ∧ (∀ c, country a = Some c → truthy c = true → country b = None →
       add fuel st i (OCal j) = Raise AttributeError).
Proof.
  intros Ha Hb. repeat split.
  - intros Hn. by destruct n.
  - intros Hc. simpl. rewrite Ha, Hb. unfold country_attr. by rewrite Hc.
  - intros c Hc Ht Hcb. simpl. rewrite Ha, Hb. unfold country_attr.
    rewrite Hc. simpl. rewrite Ht. by rewrite Hcb.
Qed.

Lemma add_errors_witness :
  (5 ≠ 0 → add 3 [self one_part; self Colombia_2023] 0 (OInt 5) = Raise TypeError)
  ∧ add 3 [self one_part; self Colombia_2023] 0 OOther = Raise TypeError
  ∧ (country (self one_part) = None →
     add 3 [self one_part; self Colombia_2023] 0 (OCal 1) = Raise AttributeError)
  ∧ (∀ c, country (self one_part) = Some c → truthy c = true →
       country (self Colombia_2023) = None →
       add 3 [self one_part; self Colombia_2023] 0 (OCal 1) = Raise AttributeError).
Proof.
  apply (add_errors 3 [self one_part; self Colombia_2023] 0 1
           (self one_part) (self Colombia_2023) 5).
  - reflexivity.
  - reflexivity.
Defined.

(** X4. [_populate] of any class, and with it every method that only
    looks up or inserts, leaves [expand], [observed], [prov], [state],
    [country] and the list of constituents as they are, never removes a
    year from [years], and neither adds an object to nor removes one
    from the store. *)
Theorem populate_keeps_attributes fuel year key value w w' :
  populate fuel year w = Ok (tt, w')
  ∨ setitem (populate fuel) key value w = Ok (tt, w')
  ∨ (∃ b, contains (populate fuel) key w = Ok (b, w')) →
  expand (self w') = expand (self w)
  ∧ observed (self w') = observed (self w)
  ∧ prov (self w') = prov (self w)
  ∧ state (self w') = state (self w)
  ∧ country (self w') = country (self w)
  ∧ cls (self w') = cls (self w)
  ∧ holidays (self w') = holidays (self w)
  ∧ years (self w) ⊆ years (self w')
  ∧ length (objs w') = length (objs w).
Proof.
  pose proof (populate_ext fuel) as He.
  intros H.
  assert (ext w w') as [(? & ? & ? & ? & ? & ? & ? & ?) ?]; [|done].
  destruct H as [H|[H|[b H]]].
  - by eapply He.
  - by eapply setitem_ext.
  - by eapply contains_ext.
Qed.

Lemma populate_keeps_attributes_witness :
  expand (self Colombia_2023) = expand (self fresh_Colombia)
  ∧ observed (self Colombia_2023) = observed (self fresh_Colombia)
  ∧ prov (self Colombia_2023) = prov (self fresh_Colombia)
  ∧ state (self Colombia_2023) = state (self fresh_Colombia)
  ∧ country (self Colombia_2023) = country (self fresh_Colombia)
  ∧ cls (self Colombia_2023) = cls (self fresh_Colombia)
  ∧ holidays (self Colombia_2023) = holidays (self fresh_Colombia)
  ∧ years (self fresh_Colombia) ⊆ years (self Colombia_2023)
  ∧ length (objs Colombia_2023) = length (objs fresh_Colombia).
Proof.
  apply (populate_keeps_attributes 2 2023 0 "" fresh_Colombia Colombia_2023).
  left. vm_compute. reflexivity.
Defined.


(* ===================================================================== *)
(** * Lazy population *)
(* ===================================================================== *)

Lemma year_between n lo k :
  Date.days_before_year lo < n ≤ Date.days_before_year (lo + Z.of_nat k) →
  ∃ y, lo ≤ y < lo + Z.of_nat k ∧ first_day y ≤ n ≤ last_day y.
Proof.
  unfold first_day, last_day. revert lo. induction k as [|k IH]; intros lo H.
  - rewrite Z.add_0_r in H. lia.
  - destruct (Z.le_gt_cases n (Date.days_before_year (lo + 1))) as [Hle|Hgt].
    + exists lo. lia.
    + destruct (IH (lo + 1)) as (y & Hy & Hn).
      { replace (lo + 1 + Z.of_nat k) with (lo + Z.of_nat (S k)) by lia. lia. }
      exists y. lia.
Qed.

(** The year of a date is a year [date] accepts, and the date lies in
    it. *)
Lemma year_valid n :
  Date.valid n →
  valid_year (Date.year n) ∧ first_day (Date.year n) ≤ n ≤ last_day (Date.year n).
Proof.
  intros [H1 H2].
  destruct (year_between n 1 9999) as (y & Hy & Hn).
  { change (Date.days_before_year 1) with 0.
    change (Date.days_before_year (1 + Z.of_nat 9999)) with Date.MAXORDINAL.
    lia. }
  rewrite (year_of_ordinal y n Hn). split; [|done].
  change (1 + Z.of_nat 9999) with 10000 in Hy.
  unfold valid_year, Date.MINYEAR, Date.MAXYEAR. lia.
Qed.

(** [__keytransform__] on a [Colombia] calendar. *)
Lemma keytransform_Colombia fuel key w :
  cls (self w) = ColombiaC → Date.valid key → (2 ≤ fuel)%nat →
  populated_only (data (self w)) →
  ∃ w1, keytransform (populate fuel) key w = Ok (key, w1)
    ∧ data (self w1) =
        (if expand (self w) && negb (bool_decide (Date.year key ∈ years (self w)))
         then inserts (Colombia_entries (observed (self w)) (Date.year key))
                      (data (self w))
         else data (self w))
    ∧ years (self w1) = (if expand (self w) then {[Date.year key]} ∪ years (self w)
                         else years (self w))
    ∧ same_attrs (self w) (self w1) ∧ objs w1 = objs w.
Proof.
  intros Hc Hk Hf Hd. destruct (year_valid key Hk) as [Hy _].
  destruct (decide (settled w key)) as [Hs|Hs].
  - exists w. rewrite keytransform_settled by done. unfold settled in Hs.
    rewrite Hs. repeat split; try done.
    destruct (expand (self w)); [|done]. simpl in Hs.
    apply negb_false_iff, bool_decide_eq_true in Hs. set_solver.
  - rewrite keytransform_expand by done.
    assert (settled (with_year (Date.year key) w) key) as Hs'
      by apply settled_with_year.
    rewrite populate_Colombia by done. unfold settled in Hs'. rewrite Hs'.
    eexists. split; [done|]. unfold settled in Hs.
    apply not_false_iff_true in Hs. rewrite Hs. simpl.
    apply andb_true_iff in Hs as [-> Hn]. repeat split; try done. set_solver.
Qed.

Lemma keytransform_Colombia_other fuel key w w1 k :
  cls (self w) = ColombiaC → Date.valid key → (2 ≤ fuel)%nat →
  populated_only (data (self w)) →
  keytransform (populate fuel) key w = Ok (key, w1) →
  Date.year k ≠ Date.year key →
  data (self w1) !! k = data (self w) !! k.
Proof.
  intros Hc Hk Hf Hd H Hne.
  destruct (keytransform_Colombia fuel key w Hc Hk Hf Hd)
    as (w1' & H' & Hdata & _).
  rewrite H' in H. injection H as <-. rewrite Hdata.
  destruct (expand (self w) && _); [|done].
  apply inserts_lookup_other. intros v Hin. by apply entries_year in Hin.
Qed.




(* ===================================================================== *)
(** * The names under a date *)
(* ===================================================================== *)

Lemma rev_app_app s t v : String.rev_app s t +:+ v = String.rev_app s (t +:+ v).
Proof.
  revert t. induction s as [|c s IH]; intros t; simpl; [done|].
  by rewrite IH.
Qed.

Lemma rev_cons_app c acc v :
  String.rev (String c acc) +:+ v = String.rev acc +:+ String c v.
Proof. unfold String.rev. simpl. by rewrite !rev_app_app. Qed.

Lemma occurs_tail sub c s : occurs sub s → occurs sub (String c s).
Proof. intros (a & b & ->). by exists (String c a), b. Qed.

Lemma prefix_occurs sub s : String.prefix sub s = true → occurs sub s.
Proof. intros [b ->]%prefix_spec. by exists "", b. Qed.

Lemma split_aux_none sep acc v :
  ¬ occurs sep v → split_aux sep O acc v = [String.rev acc +:+ v].
Proof.
  revert acc. induction v as [|c v IH]; intros acc Hn; cbn [split_aux].
  - by rewrite str_app_nil_r.
  - destruct (String.prefix sep (String c v)) eqn:Hp.
    + by apply prefix_occurs in Hp.
    + rewrite IH; [by rewrite rev_cons_app|].
      intros H. by apply Hn, occurs_tail.
Qed.

Lemma split_none v : ¬ occurs ", " v → split v ", " = [v].
Proof. intros H. unfold split. by rewrite split_aux_none. Qed.

Lemma prefix_sep_app c a b :
  String.prefix ", " (String c (a +:+ ", " +:+ b)) = String.prefix ", " (String c a).
Proof.
  apply Bool.eq_iff_eq_true. rewrite !prefix_spec. split.
  - intros [x Hx]. rewrite !str_app_cons, str_app_nil_l in Hx.
    injection Hx as -> Hx. destruct a as [|c' a].
    + rewrite str_app_nil_l in Hx. discriminate Hx.
    + rewrite str_app_cons in Hx. injection Hx as -> _. by exists a.
  - intros [x Hx]. rewrite !str_app_cons, str_app_nil_l in Hx.
    injection Hx as -> ->. by exists (x +:+ ", " +:+ b).
Qed.

Lemma split_aux_app skip acc a b :
  (skip ≤ String.length a)%nat → (skip ≤ 1)%nat →
  split_aux ", " skip acc (a +:+ ", " +:+ b) =
    (split_aux ", " skip acc a ++ split_aux ", " O "" b)%list.
Proof.
  revert skip acc. induction a as [|c a IH]; intros skip acc Hs H1.
  - simpl in Hs. assert (skip = O) as -> by lia.
    rewrite str_app_nil_l, !str_app_cons, str_app_nil_l. cbn [split_aux].
    assert (String.prefix ", " (String "," (String " " b)) = true) as ->.
    { apply prefix_spec. by exists b. }
    reflexivity.
  - destruct skip as [|k].
    + rewrite str_app_cons. cbn [split_aux].
      rewrite prefix_sep_app.
      destruct (String.prefix ", " (String c a)) eqn:Hp.
      * change (String.length ", " - 1)%nat with 1%nat.
        rewrite IH; [done| |lia].
        apply prefix_spec in Hp as [x Hx]. injection Hx as _ ->. simpl. lia.
      * rewrite IH; [done|lia|lia].
    + rewrite str_app_cons. cbn [split_aux]. simpl in Hs.
      rewrite IH; [done|lia|lia].
Qed.

Lemma split_app a b :
  split (a +:+ ", " +:+ b) ", " = (split a ", " ++ split b ", ")%list.
Proof. unfold split. apply split_aux_app; lia. Qed.

Lemma pieces_app a b : pieces (a +:+ ", " +:+ b) = (pieces a ++ pieces b)%list.
Proof. unfold pieces. by rewrite split_app, filter_app. Qed.

Lemma pieces_one v : v ≠ "" → ¬ occurs ", " v → pieces v = [v].
Proof.
  intros Hv Hn. unfold pieces. rewrite split_none by done.
  rewrite filter_cons. by destruct (decide (v ≠ "")).
Qed.

Lemma concat_cons2 sep x y l :
  String.concat sep (x :: y :: l) = x +:+ sep +:+ String.concat sep (y :: l).
Proof. reflexivity. Qed.

Lemma pieces_concat L :
  (∀ x, x ∈ L → x ≠ "" ∧ ¬ occurs ", " x) →
  L ≠ [] → pieces (String.concat ", " L) = L.
Proof.
  induction L as [|x [|y L] IH]; intros HL Hne; [done|..].
  - simpl. apply pieces_one; apply HL; set_solver.
  - rewrite concat_cons2, pieces_app, IH; [|set_solver|done].
    rewrite pieces_one; [done|apply HL; set_solver..].
Qed.

Lemma piece_occurs x L : x ∈ L → occurs x (String.concat ", " L).
Proof.
  induction L as [|y [|z L] IH]; intros Hin; [set_solver|..].
  - apply list_elem_of_singleton in Hin as ->. apply occurs_refl.
  - rewrite concat_cons2. apply elem_of_cons in Hin as [->|Hin].
    + apply occurs_app_l.
    + apply occurs_app_r, occurs_app_r. by apply IH.
Qed.

Lemma str_app_eq_app a b x y :
  a +:+ b = x +:+ y →
  (∃ m, x = a +:+ m ∧ b = m +:+ y) ∨ (∃ m, a = x +:+ m ∧ y = m +:+ b).
Proof.
  revert x. induction a as [|c a IH]; intros x H.
  - left. by exists x.
  - destruct x as [|c' x].
    + right. by exists (String c a).
    + rewrite !str_app_cons in H. injection H as <- H.
      destruct (IH x H) as [(m & -> & ->)|(m & -> & ->)].
      * left. by exists m.
      * right. by exists m.
Qed.

(** A text with no comma that does not start with a space occurs in
    [a, b] only inside [a] or inside [b]. *)
Lemma occurs_sep v a b :
  ¬ occurs "," v → String.prefix " " v = false → v ≠ "" →
  occurs v (a +:+ ", " +:+ b) → occurs v a ∨ occurs v b.
Proof.
  intros Hc Hs Hv (x & y & H).
  apply str_app_eq_app in H as [(m & -> & H)|(m & -> & H)].
  - destruct m as [|c1 m].
    + rewrite str_app_nil_l in H. destruct v as [|c v]; [done|].
      rewrite str_app_cons in H. injection H as <- _.
      destruct Hc. by exists "", v.
    + rewrite !str_app_cons in H. injection H as <- H.
      destruct m as [|c2 m].
      * rewrite str_app_nil_l in H. destruct v as [|c v]; [done|].
        rewrite str_app_cons in H. injection H as <- _.
        assert (String.prefix " " (String " " v) = true) as Hp
          by (apply prefix_spec; by exists v).
        congruence.
      * rewrite !str_app_cons in H. injection H as <- H.
        right. by exists m, y.
  - symmetry in H. apply str_app_eq_app in H as [(m2 & -> & H)|(m2 & -> & _)].
    + destruct m2 as [|c m2].
      * left. exists x, "". by rewrite !str_app_nil_r.
      * rewrite !str_app_cons in H. injection H as <- _.
        destruct Hc. exists m, m2. reflexivity.
    + left. by exists x, m2.
Qed.

Lemma occurs_concat v L :
  ¬ occurs "," v → String.prefix " " v = false → v ≠ "" →
  occurs v (String.concat ", " L) → ∃ x, x ∈ L ∧ occurs v x.
Proof.
  intros Hc Hs Hv. induction L as [|x [|y L] IH]; intros Ho.
  - destruct Ho as (a & b & H). destruct a; [|done]. by destruct v.
  - exists x. split; [set_solver|done].
  - rewrite concat_cons2 in Ho. apply occurs_sep in Ho as [Ho|Ho]; [..|done|done|done].
    + exists x. split; [set_solver|done].
    + destruct (IH Ho) as (z & Hz & Hoz). exists z. split; [set_solver|done].
Qed.

Lemma names_plain_true : names_plain = true.
Proof. vm_compute. reflexivity. Qed.

Lemma plain_spec v :
  plain v = true → v ≠ "" ∧ ¬ occurs "," v ∧ String.prefix " " v = false.
Proof.
  unfold plain. rewrite !andb_true_iff, !negb_true_iff.
  intros [[H1 H2] H3]. split; [|split; [|done]].
  - intros ->. done.
  - by apply find_neg.
Qed.

Lemma label_at_plain k v :
  label_at k v → v ≠ "" ∧ ¬ occurs "," v ∧ String.prefix " " v = false.
Proof.
  intros (y & r & d & N & Hrow & H)%label_at_cases.
  apply table_names in Hrow.
  pose proof names_plain_true as Hp. unfold names_plain in Hp.
  rewrite forallb_forall in Hp. specialize (Hp N Hrow).
  apply andb_true_iff in Hp as [Hp1 Hp2].
  destruct H as [[_ ->]|(_ & _ & ->)]; by apply plain_spec.
Qed.


Lemma holds_exactly_empty : holds_exactly [] ∅.
Proof. intros k. rewrite lookup_empty. intros x []. Qed.

Lemma holds_exactly_insert1 l d k v :
  Forall (λ kv, label_at kv.1 kv.2) l → label_at k v →
  holds_exactly l d → holds_exactly (l ++ [(k, v)]) (insert1 k v d).
Proof.
  intros Hl Hv Hd k'. unfold insert1.
  destruct (decide (k' = k)) as [->|Hne].
  2:{ rewrite lookup_insert_ne by done. specialize (Hd k').
      destruct (d !! k') as [e|].
      - destruct Hd as (L & -> & Hne' & Hnd & HL). exists L.
        repeat split; try done; intros Hx.
        + apply in_app_iff. left. by apply HL.
        + apply HL. apply in_app_iff in Hx as [Hx|[[= ? ?]|[]]]; [done|].
          congruence.
      - intros x [Hx|[[= ? ?]|[]]]%in_app_iff; [by eapply Hd|congruence]. }
  rewrite lookup_insert_eq. specialize (Hd k).
  destruct (label_at_plain k v Hv) as (Hv1 & Hv2 & Hv3).
  destruct (d !! k) as [e|].
  - destruct Hd as (L & -> & Hne' & Hnd & HL).
    assert (∀ x, x ∈ L → label_at k x) as Hlab.
    { intros x Hx%HL. eapply Forall_forall in Hl; [|by apply list_elem_of_In].
      done. }
    unfold merge.
    destruct (find (String.concat ", " L) v <? 0) eqn:E1; simpl.
    + destruct (find v (String.concat ", " L) <? 0) eqn:E2.
      * exists (v :: L). destruct L as [|x L]; [done|].
        split; [done|]. split; [done|]. split.
        -- apply NoDup_cons. split; [|done]. intros Hin.
           apply find_neg in E1. by apply E1, piece_occurs.
        -- intros z. rewrite elem_of_cons, HL, in_app_iff. simpl.
           split; [intros [->|?]; [right; by left|by left]|].
           intros [?|[[= <-]|[]]]; [by right|by left].
      * exists L. repeat split; try done.
        -- intros Hx. apply in_app_iff. left. by apply HL.
        -- intros [Hx|[[= <-]|[]]]%in_app_iff; [by apply HL|].
           destruct L as [|x0 L]; [done|].
           assert (occurs x0 v) as Ho.
           { eapply occurs_trans; [apply (piece_occurs x0 (x0 :: L)); set_solver|].
             apply find_occurs. lia. }
           rewrite <- (label_at_apart k x0 v); [set_solver|apply Hlab; set_solver|done..].
    + exists L. repeat split; try done.
      * intros Hx. apply in_app_iff. left. by apply HL.
      * intros [Hx|[[= <-]|[]]]%in_app_iff; [by apply HL|].
        assert (occurs v (String.concat ", " L)) as Ho by (apply find_occurs; lia).
        apply occurs_concat in Ho as (z & Hz & Hoz); [|done..].
        by rewrite (label_at_apart k v z Hv (Hlab z Hz) Hoz).
  - exists [v]. repeat split; try done.
    + apply NoDup_singleton.
    + intros ->%list_elem_of_singleton. apply in_app_iff. right. by left.
    + intros [Hx|[[= <-]|[]]]%in_app_iff; [by apply Hd in Hx|set_solver].
Qed.

Lemma holds_exactly_inserts l0 l d :
  Forall (λ kv, label_at kv.1 kv.2) l0 → Forall (λ kv, label_at kv.1 kv.2) l →
  holds_exactly l0 d → holds_exactly (l0 ++ l) (inserts l d).
Proof.
  revert l0 d. induction l as [|[k v] l IH]; intros l0 d Hl0 Hl Hd.
  - by rewrite app_nil_r.
  - apply Forall_cons in Hl as [Hkv Hl]. rewrite inserts_cons.
    replace (l0 ++ (k, v) :: l)%list with ((l0 ++ [(k, v)]) ++ l)%list
      by by rewrite <- app_assoc.
    apply IH; [|done|by apply holds_exactly_insert1].
    apply Forall_app. split; [done|]. by apply Forall_singleton.
Qed.

Lemma all_entries_labels obs ys :
  Forall (λ kv, label_at kv.1 kv.2) (flat_map (Colombia_entries obs) ys).
Proof.
  induction ys as [|y ys IH]; simpl; [done|].
  apply Forall_app. split; [apply entries_labels|done].
Qed.

Lemma holds_exactly_foldl obs ys l0 d :
  Forall (λ kv, label_at kv.1 kv.2) l0 → holds_exactly l0 d →
  holds_exactly (l0 ++ flat_map (Colombia_entries obs) ys)
    (foldl (λ d y, inserts (Colombia_entries obs y) d) d ys).
Proof.
  revert l0 d. induction ys as [|y ys IH]; intros l0 d Hl0 Hd; simpl.
  - by rewrite app_nil_r.
  - rewrite app_assoc. apply IH.
    + apply Forall_app. split; [done|apply entries_labels].
    + apply holds_exactly_inserts; [done|apply entries_labels|done].
Qed.

Lemma holds_exactly_populated obs ys :
  holds_exactly (flat_map (Colombia_entries obs) ys) (populated obs ys).
Proof. apply (holds_exactly_foldl obs ys [] ∅); [done|apply holds_exactly_empty]. Qed.

Lemma pieces_nil : pieces "" = [].
Proof. reflexivity. Qed.

(** The names of a stored text are the labels of the key. *)
Lemma holds_exactly_pieces l d k :
  Forall (λ kv, label_at kv.1 kv.2) l → holds_exactly l d →
  NoDup (pieces (default "" (d !! k)))
  ∧ ∀ N, N ∈ pieces (default "" (d !! k)) ↔ In (k, N) l.
Proof.
  intros Hl Hd. specialize (Hd k). destruct (d !! k) as [e|]; simpl.
  - destruct Hd as (L & -> & Hne & Hnd & HL).
    rewrite pieces_concat; [done| |done].
    intros x Hx%HL. eapply Forall_forall in Hl; [|by apply list_elem_of_In].
    simpl in Hl. split; [by apply (label_at_plain k x)|].
    by apply (label_at_no_separator k x).
  - rewrite pieces_nil. split; [apply NoDup_nil_2|].
    intros N. split; [set_solver|]. intros H. by apply Hd in H.
Qed.

Lemma get_list_settled hook key w :
  settled w key →
  get_list hook key w = Ok (pieces (default "" (data (self w) !! key)), w).
Proof.
  intros Hs. unfold get_list, bind. rewrite get_settled by done.
  by destruct (data (self w) !! key).
Qed.

Lemma holds_exactly_present l d k :
  holds_exactly l d → is_Some (d !! k) ↔ ∃ N, In (k, N) l.
Proof.
  intros Hd. specialize (Hd k). destruct (d !! k) as [e|].
  - destruct Hd as (L & -> & Hne & Hnd & HL). split; [|done]. intros _.
    destruct L as [|x L]; [done|]. exists x. apply HL. set_solver.
  - split; [by intros []|]. intros [N HN]. by apply Hd in HN.
Qed.

(** Normalising a date on a calendar made by [Colombia(years=ys, ..)]. *)
Lemma lookup_Colombia fuel ys e o pv stt st key :
  Forall valid_year ys → (2 ≤ fuel)%nat → Date.valid key →
  ∃ w w1 l,
    Colombia_new fuel ys e o pv stt st = Ok w
    ∧ keytransform (populate fuel) key w = Ok (key, w1)
    ∧ Forall (λ kv, label_at kv.1 kv.2) l
    ∧ holds_exactly l (data (self w1))
    ∧ ∀ N, In (key, N) l ↔
        (e = true ∨ Date.year key ∈ ys)
        ∧ In (key, N) (Colombia_entries o (Date.year key)).
Proof.
  intros Hys Hf Hkey.
  destruct (Colombia_new_spec fuel ys e o pv stt st Hys Hf)
    as (w & Hnew & Hdata & Hyears & He & Ho & Hc & _).
  set (l0 := flat_map (Colombia_entries o) (elements (years (self w)))).
  assert (holds_exactly l0 (data (self w))) as Hex
    by (rewrite Hdata; apply holds_exactly_populated).
  assert (Forall (λ kv, label_at kv.1 kv.2) l0) as Hl0
    by apply all_entries_labels.
  assert (∀ N, In (key, N) l0 ↔
               Date.year key ∈ ys ∧ In (key, N) (Colombia_entries o (Date.year key)))
    as Hin0.
  { intros N. unfold l0. rewrite in_flat_map. split.
    - intros (y & Hy & Hin). pose proof (entries_year _ _ _ _ Hin) as <-.
      split; [|done]. apply list_elem_of_In, elem_of_elements in Hy.
      rewrite Hyears in Hy. by apply elem_of_list_to_set in Hy.
    - intros [Hy Hin]. exists (Date.year key). split; [|done].
      apply list_elem_of_In, elem_of_elements. rewrite Hyears.
      by apply elem_of_list_to_set. }
  assert (populated_only (data (self w))) as Hpo
    by (rewrite Hdata; apply populated_populated_only).
  destruct (keytransform_Colombia fuel key w Hc Hkey Hf Hpo)
    as (w1 & Hk & Hdata1 & _).
  destruct (expand (self w) && negb (bool_decide (Date.year key ∈ years (self w))))
    eqn:Hexp.
  - apply andb_true_iff in Hexp as [Hexp Hny].
    apply negb_true_iff, bool_decide_eq_false in Hny.
    rewrite Hyears, elem_of_list_to_set in Hny.
    exists w, w1, (l0 ++ Colombia_entries (observed (self w)) (Date.year key))%list.
    split; [done|]. split; [done|]. split; [|split].
    + apply Forall_app. split; [exact Hl0|apply entries_labels].
    + rewrite Hdata1. apply holds_exactly_inserts; [done|apply entries_labels|done].
    + intros N. rewrite in_app_iff, Hin0, Ho. rewrite He in Hexp. tauto.
  - exists w, w1, l0. split; [done|]. split; [done|]. split; [done|].
    split; [by rewrite Hdata1|].
    intros N. rewrite Hin0.
    apply andb_false_iff in Hexp as [Hexp|Hy].
    + subst e. rewrite Hexp. split; [tauto|]. intros [[?|?] ?]; done.
    + apply negb_false_iff, bool_decide_eq_true in Hy.
      rewrite Hyears, elem_of_list_to_set in Hy. tauto.
Qed.

(** X10. [get_list] on a calendar made by [Colombia(years=ys, ..)], for
    any date: it returns, each once, exactly the labels
    [Colombia._populate] gives that date in the year of the date when
    that year is populated, which it is when it is one of [ys] or when
    [expand] is set (the lookup populates it then); otherwise it returns
    the empty list. *)
Theorem get_list_Colombia fuel ys e o pv stt st key :
  Forall valid_year ys → (2 ≤ fuel)%nat → Date.valid key →
  ∃ w L w',
    Colombia_new fuel ys e o pv stt st = Ok w
    ∧ get_list (populate fuel) key w = Ok (L, w')
    ∧ NoDup L
    ∧ ∀ N, N ∈ L ↔
        (e = true ∨ Date.year key ∈ ys)
        ∧ In (key, N) (Colombia_entries o (Date.year key)).
Proof.
  intros Hys Hf Hkey.
  destruct (lookup_Colombia fuel ys e o pv stt st key Hys Hf Hkey)
    as (w & w1 & l & Hnew & Hk & Hl & Hex & Hin).
  exists w, (pieces (default "" (data (self w1) !! key))), w1.
  split; [done|]. split.
  { unfold get_list, get, bind. rewrite Hk. simpl.
    by destruct (data (self w1) !! key). }
  destruct (holds_exactly_pieces _ _ key Hl Hex) as [Hnd Hmem].
  split; [done|]. intros N. by rewrite Hmem, Hin.
Qed.

Lemma get_list_Colombia_witness :
  ∃ w L w',
    Colombia_new 2 [2023] true true PNone PNone [] = Ok w
    ∧ get_list (populate 2) (Date.ymd2ord 2024 DEC 25) w = Ok (L, w')
    ∧ NoDup L
    ∧ ∀ N, N ∈ L ↔
        (true = true ∨ Date.year (Date.ymd2ord 2024 DEC 25) ∈ [2023])
        ∧ In (Date.ymd2ord 2024 DEC 25, N)
             (Colombia_entries true (Date.year (Date.ymd2ord 2024 DEC 25))).
Proof.
  apply (get_list_Colombia 2 [2023] true true PNone PNone []
           (Date.ymd2ord 2024 DEC 25)).
  - repeat constructor; unfold Date.MINYEAR, Date.MAXYEAR; lia.
  - lia.
  - vm_compute. split; discriminate.
Defined.

(** X11. [date in h] on a calendar made by [Colombia(years=ys, ..)]: it
    is true exactly when [Colombia._populate] gives the date a label in
    the year of the date and that year is populated, being one of [ys]
    or [expand] being set; then [h[date]] and [h.get(date)] give the
    stored text, and otherwise [h[date]] raises [KeyError] and
    [h.get(date)] is [None]. *)
Theorem contains_Colombia fuel ys e o pv stt st key :
  Forall valid_year ys → (2 ≤ fuel)%nat → Date.valid key →
  ∃ w b w',
    Colombia_new fuel ys e o pv stt st = Ok w
    ∧ contains (populate fuel) key w = Ok (b, w')
    ∧ (b = true ↔
         (e = true ∨ Date.year key ∈ ys)
         ∧ ∃ N, In (key, N) (Colombia_entries o (Date.year key)))
    ∧ getitem (populate fuel) key w =
        (if b then Ok (default "" (data (self w') !! key), w')
         else Raise KeyError)
    ∧ get (populate fuel) key None w = Ok (data (self w') !! key, w').
Proof.
  intros Hys Hf Hkey.
  destruct (lookup_Colombia fuel ys e o pv stt st key Hys Hf Hkey)
    as (w & w1 & l & Hnew & Hk & Hl & Hex & Hin).
  exists w, (bool_decide (is_Some (data (self w1) !! key))), w1.
  split; [done|]. split.
  { unfold contains, bind. by rewrite Hk. }
  split; [|split].
  - rewrite bool_decide_eq_true, (holds_exactly_present l) by done.
    split.
    + intros [N HN]. apply Hin in HN as [? ?]. eauto.
    + intros [? [N HN]]. exists N. by apply Hin.
  - unfold getitem, bind. rewrite Hk. simpl.
    destruct (data (self w1) !! key) as [t|] eqn:Et.
    + by rewrite bool_decide_eq_true_2.
    + by rewrite bool_decide_eq_false_2 by by intros [].
  - unfold get, bind. rewrite Hk. simpl.
    by destruct (data (self w1) !! key).
Qed.

Lemma contains_Colombia_witness :
  ∃ w b w',
    Colombia_new 2 [2023] false true PNone PNone [] = Ok w
    ∧ contains (populate 2) (Date.ymd2ord 2024 DEC 25) w = Ok (b, w')
    ∧ (b = true ↔
         (false = true ∨ Date.year (Date.ymd2ord 2024 DEC 25) ∈ [2023])
         ∧ ∃ N, In (Date.ymd2ord 2024 DEC 25, N)
                  (Colombia_entries true (Date.year (Date.ymd2ord 2024 DEC 25))))
    ∧ getitem (populate 2) (Date.ymd2ord 2024 DEC 25) w =
        (if b then Ok (default "" (data (self w') !! Date.ymd2ord 2024 DEC 25), w')
         else Raise KeyError)
    ∧ get (populate 2) (Date.ymd2ord 2024 DEC 25) None w
      = Ok (data (self w') !! Date.ymd2ord 2024 DEC 25, w').
Proof.
  apply (contains_Colombia 2 [2023] false true PNone PNone []
           (Date.ymd2ord 2024 DEC 25)).
  - repeat constructor; unfold Date.MINYEAR, Date.MAXYEAR; lia.
  - lia.
  - vm_compute. split; discriminate.
Defined.


(* ===================================================================== *)
(** * The sum of two calendars *)
(* ===================================================================== *)

Lemma update_dict_settled hook m w :
  (∀ k, is_Some (m !! k) → settled w k) →
  update hook [ADict m] w =
    Ok (tt, World (set_data (inserts (map_to_list m)) (self w)) (objs w)).
Proof.
  intros Hs. unfold update. cbn [for_]. unfold bind.
  rewrite for_setitem_settled; [done|].
  apply Forall_forall. intros [k v] Hin%elem_of_map_to_list. simpl.
  apply Hs. by exists v.
Qed.

Lemma populated_snoc o l y :
  populated o (l ++ [y]) = inserts (Colombia_entries o y) (populated o l).
Proof. unfold populated. by rewrite foldl_app. Qed.

Lemma populated_present o l k : is_Some (populated o l !! k) → Date.year k ∈ l.
Proof.
  intros [N HN]%(holds_exactly_present _ _ _ (holds_exactly_populated o l)).
  apply in_flat_map in HN as (y & Hy & HN).
  apply entries_year in HN as ->. by apply list_elem_of_In.
Qed.

Lemma is_Some_merge_into x y :
  is_Some (merge_into x y) ↔ is_Some x ∨ is_Some y.
Proof.
  destruct x, y; simpl; split; intros H; try done; try (by left); try (by right).
  by destruct H as [[]|[]].
Qed.

Lemma populated_for_snoc n y w x c l :
  objs w !! x = Some c → populated_for l c → valid_year y → (2 ≤ n)%nat →
  ∃ c', on_obj x (populate n y) w = Ok (tt, World (self w) (<[x := c']> (objs w)))
    ∧ populated_for (l ++ [y]) c' ∧ same_attrs c c'
    ∧ years c' = (if expand c then {[y]} ∪ years c else years c).
Proof.
  intros Hx (Hc & Hd & Hl) Hy Hn.
  destruct (populate_Colombia_stores n y (World c (objs w)) Hc Hy Hn)
    as (w' & Hp & Hdata & Hyears & Hattrs & Hobjs).
  { simpl. rewrite Hd. apply populated_populated_only. }
  simpl in *. exists (self w'). unfold on_obj. rewrite Hx, Hp, Hobjs.
  split; [done|]. split; [|done].
  pose proof Hattrs as (_ & Ho & _ & _ & _ & Hcl & _).
  split; [congruence|]. split.
  - by rewrite Hdata, Hd, Ho, populated_snoc.
  - apply Forall_app. split; [done|]. by apply Forall_singleton.
Qed.

Lemma on_obj_gets_id x w c :
  objs w !! x = Some c → on_obj x (gets id) w = Ok (c, w).
Proof.
  intros Hx. unfold on_obj, gets. rewrite Hx. simpl.
  rewrite list_insert_id by done. by rewrite world_eta.
Qed.

(** One turn of the loop of [HolidaySum._populate], for a constituent
    that is a [Colombia] calendar. *)
Lemma sum_populate_one n y w x c l :
  objs w !! x = Some c → populated_for l c → valid_year y → (2 ≤ n)%nat →
  (expand (self w) = true →
   y ∈ years (self w) ∧ ∀ z, z ∈ l → z ∈ years (self w)) →
  ∃ c', (on_obj x (populate n y) ;;
         let* h := on_obj x (gets id) in
         update (populate n) [ADict (data h)]) w
        = Ok (tt, World (set_data (inserts (map_to_list (data c'))) (self w))
                        (<[x := c']> (objs w)))
    ∧ populated_for (l ++ [y]) c' ∧ same_attrs c c'
    ∧ years c' = (if expand c then {[y]} ∪ years c else years c).
Proof.
  intros Hx Hc Hy Hn Hcov.
  destruct (populated_for_snoc n y w x c l Hx Hc Hy Hn)
    as (c' & Hp & Hc' & Hattrs & Hyears).
  exists c'. split; [|done].
  unfold bind at 1. rewrite Hp. unfold bind.
  rewrite (on_obj_gets_id x _ c').
  2:{ simpl. apply list_lookup_insert_eq. by eapply lookup_lt_Some. }
  rewrite update_dict_settled; [done|].
  intros k Hk. unfold settled. simpl.
  destruct (expand (self w)) eqn:He; [|done]. simpl.
  apply negb_false_iff, bool_decide_eq_true.
  destruct Hc' as (_ & Hd' & _). rewrite Hd' in Hk.
  apply populated_present in Hk.
  destruct (Hcov eq_refl) as [Hy' Hl'].
  apply elem_of_app in Hk as [Hk|Hk%list_elem_of_singleton]; [by apply Hl'|].
  by rewrite Hk.
Qed.

Lemma populate_S_Sum n y w :
  cls (self w) = HolidaySumC →
  populate (S n) y w = HolidaySum_populate (populate n) y w.
Proof. intros Hc. simpl. unfold bind at 1, gets. simpl. by rewrite Hc. Qed.

Lemma populated_for_dom l y c c' k :
  populated_for l c → populated_for (l ++ [y]) c' → observed c' = observed c →
  is_Some (data c !! k) → is_Some (data c' !! k).
Proof.
  intros (_ & Hd & _) (_ & Hd' & _) Ho [e He].
  rewrite Hd', Ho, populated_snoc, <- Hd.
  destruct (inserts_keeps (Colombia_entries (observed c) y) (data c) k e e He
              (occurs_refl e)) as (e' & -> & _).
  done.
Qed.

(** [HolidaySum._populate(y)] on the sum of two [Colombia] calendars. *)
Lemma sum_populate_step n y w i j a b la lb :
  i ≠ j → (2 ≤ n)%nat → valid_year y →
  cls (self w) = HolidaySumC → holidays (self w) = [i; j] →
  objs w !! i = Some a → objs w !! j = Some b →
  populated_for la a → populated_for lb b →
  (expand (self w) = true →
   y ∈ years (self w) ∧ ∀ z, z ∈ la ∨ z ∈ lb → z ∈ years (self w)) →
  ∃ a' b',
    populate (S n) y w =
      Ok (tt, World (set_data (λ d, inserts (map_to_list (data a'))
                                      (inserts (map_to_list (data b')) d))
                              (self w))
                    (<[i := a']> (<[j := b']> (objs w))))
    ∧ populated_for (la ++ [y]) a' ∧ populated_for (lb ++ [y]) b'
    ∧ same_attrs a a' ∧ same_attrs b b'
    ∧ years a' = (if expand a then {[y]} ∪ years a else years a)
    ∧ years b' = (if expand b then {[y]} ∪ years b else years b).
Proof.
  intros Hij Hn Hy Hc Hh Hi Hj Ha Hb Hcov.
  rewrite populate_S_Sum by done. unfold HolidaySum_populate.
  unfold bind at 1. unfold gets at 1. cbn beta iota. rewrite Hh.
  cbn [rev app for_]. cbn beta.
  destruct (sum_populate_one n y w j b lb Hj Hb Hy Hn) as (b' & H1 & Hb' & Hab & Hyb).
  { intros He. destruct (Hcov He) as [? Hl]. split; [done|]. intros z Hz.
    apply Hl. by right. }
  set (w1 := World (set_data (inserts (map_to_list (data b'))) (self w))
                   (<[j := b']> (objs w))) in *.
  destruct (sum_populate_one n y w1 i a la) as (a' & H2 & Ha' & Haa & Hya);
    [|done..| |].
  { simpl. by rewrite list_lookup_insert_ne. }
  { simpl. intros He. destruct (Hcov He) as [? Hl]. split; [done|]. intros z Hz.
    apply Hl. by left. }
  exists a', b'. split; [|done].
  unfold bind at 1. rewrite H1. unfold bind at 1. rewrite H2. done.
Qed.

Lemma sum_populate_loop n i j Yl :
  ∀ w a b la lb,
  i ≠ j → (2 ≤ n)%nat → Forall valid_year Yl →
  cls (self w) = HolidaySumC → holidays (self w) = [i; j] →
  objs w !! i = Some a → objs w !! j = Some b →
  populated_for la a → populated_for lb b →
  (expand (self w) = true →
   ∀ z, z ∈ la ∨ z ∈ lb ∨ z ∈ Yl → z ∈ years (self w)) →
  (∀ k, is_Some (data (self w) !! k) →
        is_Some (data a !! k) ∨ is_Some (data b !! k)) →
  ∃ w' a' b',
    for_ Yl (populate (S n)) w = Ok (tt, w')
    ∧ self w' = set_data (λ _, data (self w')) (self w)
    ∧ objs w' !! i = Some a' ∧ objs w' !! j = Some b'
    ∧ length (objs w') = length (objs w)
    ∧ (∀ x, x ≠ i → x ≠ j → objs w' !! x = objs w !! x)
    ∧ populated_for (la ++ Yl) a' ∧ populated_for (lb ++ Yl) b'
    ∧ same_attrs a a' ∧ same_attrs b b'
    ∧ years a' = (if expand a then list_to_set Yl ∪ years a else years a)
    ∧ years b' = (if expand b then list_to_set Yl ∪ years b else years b)
    ∧ (∀ k, is_Some (data (self w') !! k) →
            is_Some (data a' !! k) ∨ is_Some (data b' !! k))
    ∧ (Yl ≠ [] →
       ∀ k, is_Some (data a' !! k) ∨ is_Some (data b' !! k) →
            is_Some (data (self w') !! k)).
Proof.
  induction Yl as [|y Yl IH]; intros w a b la lb Hij Hn HY Hc Hh Hi Hj Ha Hb Hcov Hdom.
  - exists w, a, b. rewrite !app_nil_r. simpl.
    split; [done|]. split; [by destruct (self w)|].
    split; [done|]. split; [done|]. split; [done|]. split; [done|].
    split; [done|]. split; [done|].
    split; [apply same_attrs_refl|]. split; [apply same_attrs_refl|].
    split; [|split; [|split; [done|done]]].
    + destruct (expand a); [|done]. by rewrite (left_id_L ∅ (∪)).
    + destruct (expand b); [|done]. by rewrite (left_id_L ∅ (∪)).
  - apply Forall_cons in HY as [Hy HY].
    destruct (sum_populate_step n y w i j a b la lb Hij Hn Hy Hc Hh Hi Hj Ha Hb)
      as (a1 & b1 & Hstep & Ha1 & Hb1 & Haa & Hbb & Hya & Hyb).
    { intros He. split; [apply (Hcov He); set_solver|].
      intros z Hz. apply (Hcov He). tauto. }
    set (w1 := World _ _) in Hstep.
    pose proof Haa as (Hea & Hoa & _).
    pose proof Hbb as (Heb & Hob & _).
    assert (length (objs w1) = length (objs w)) as Hlen
      by (simpl; by rewrite !length_insert).
    assert (objs w1 !! i = Some a1) as Hi1.
    { simpl. apply list_lookup_insert_eq. rewrite length_insert.
      by eapply lookup_lt_Some. }
    assert (objs w1 !! j = Some b1) as Hj1.
    { simpl. rewrite list_lookup_insert_ne by done.
      apply list_lookup_insert_eq. by eapply lookup_lt_Some. }
    assert (∀ k, is_Some (data (self w1) !! k) ↔
                 is_Some (data a1 !! k) ∨ is_Some (data b1 !! k)) as Hdom1.
    { intros k. simpl. rewrite !inserts_map_to_list, !is_Some_merge_into.
      split; [|tauto]. intros [[Hk|Hk]|Hk]; [|tauto..].
      destruct (Hdom k Hk) as [Hk'|Hk'].
      - left. by eapply (populated_for_dom la y a a1).
      - right. by eapply (populated_for_dom lb y b b1). }
    destruct (IH w1 a1 b1 (la ++ [y]) (lb ++ [y]))%list
      as (w' & a' & b' & Hfor & Hself & Hi' & Hj' & Hlen' & Hoth & Ha' & Hb'
          & Haa' & Hbb' & Hya' & Hyb' & Hsub & Hsup); try done.
    { simpl. intros He z Hz. apply (Hcov He).
      rewrite !elem_of_app, !list_elem_of_singleton in Hz. set_solver. }
    { intros k. apply Hdom1. }
    exists w', a', b'. cbn [for_]. unfold bind at 1. rewrite Hstep.
    split; [done|]. split; [by rewrite Hself|].
    split; [done|]. split; [done|]. split; [congruence|]. split.
    { intros x Hxi Hxj. rewrite Hoth by done. simpl.
      by rewrite !list_lookup_insert_ne. }
    rewrite <- !app_assoc in Ha', Hb'. split; [done|]. split; [done|].
    split; [by eapply same_attrs_trans|]. split; [by eapply same_attrs_trans|].
    split; [|split; [|split]].
    + rewrite Hya', Hea, Hya. destruct (expand a); [set_solver|done].
    + rewrite Hyb', Heb, Hyb. destruct (expand b); [set_solver|done].
    + done.
    + intros _ k Hk. destruct Yl as [|y' Yl].
      * simpl in Hfor. injection Hfor as <-.
        rewrite Hi1 in Hi'. rewrite Hj1 in Hj'. simplify_eq. by apply Hdom1.
      * by apply Hsup.
Qed.

Lemma collect_holidays x c w :
  objs w !! x = Some c → holidays c = [] →
  (let* o := on_obj x (gets id) in
   if negb (bool_decide (holidays o = []))
   then for_ (holidays o) (λ h, modify (set_holidays (λ l, l ++ [h])%list))
   else modify (set_holidays (λ l, l ++ [x])%list)) w
  = Ok (tt, World (set_holidays (λ l, l ++ [x])%list (self w)) (objs w)).
Proof.
  intros Hx Hc. unfold bind. rewrite (on_obj_gets_id x w c) by done.
  rewrite Hc. by rewrite bool_decide_eq_true_2.
Qed.

Lemma HolidaySum_init_eq fuel i j co ys e o pr st a b :
  st !! i = Some a → st !! j = Some b → holidays a = [] → holidays b = [] →
  HolidaySum_init fuel i j co ys e o pr (World (blank HolidaySumC) st) =
    for_ (elements ys) (populate fuel)
      (World (Calendar ∅ ys e o pr PNone (Some co) HolidaySumC [i; j]) st).
Proof.
  intros Hi Hj Ha Hb. unfold HolidaySum_init.
  unfold bind at 1. unfold modify at 1. cbn beta iota.
  unfold bind at 1. unfold modify at 1. cbn beta iota.
  unfold bind at 1. rewrite (collect_holidays i a) by done.
  unfold bind at 1. rewrite (collect_holidays j b) by done.
  unfold HolidayBase_init. unfold bind at 1. unfold modify at 1.
  reflexivity.
Qed.

Lemma add_CO fuel st i j a b :
  st !! i = Some a → st !! j = Some b →
  country a = Some (PStr "CO") → country b = Some (PStr "CO") →
  add fuel st i (OCal j) =
    rbind (new HolidaySumC
             (HolidaySum_init fuel i j (PStr "CO") (years a ∪ years b)
                (expand a || expand b) (observed a || observed b)
                (if truthy (prov a) && truthy (prov b)
                    && negb (bool_decide (prov a = prov b))
                 then PList (as_list (prov a) ++ as_list (prov b))
                 else py_or (prov a) (prov b))) st)
          (λ w, Ok (length (objs w), (objs w ++ [self w])%list)).
Proof.
  intros Hi Hj Hca Hcb. unfold add. rewrite Hi, Hj.
  unfold country_attr. rewrite Hca, Hcb. reflexivity.
Qed.

(** X20. The sum of two [Colombia] calendars that are as the constructor
    and lookups leave them.  [a + b] puts a new object at the end of the
    store: a [HolidaySum] of the two, with the union of their years,
    [expand] and [observed] set when set in one of them, and the country
    ["CO"].  Building it populates both operands, in place, for the
    years of both, each with its own [observed]; and the dates of the sum
    are exactly the dates of the two operands after that. *)
Theorem add_Colombia fuel st i j a b la lb :
  st !! i = Some a → st !! j = Some b → i ≠ j →
  populated_for la a → populated_for lb b →
  holidays a = [] → holidays b = [] →
  country a = Some (PStr "CO") → country b = Some (PStr "CO") →
  (∀ y, y ∈ la → y ∈ years a) → (∀ y, y ∈ lb → y ∈ years b) →
  (∀ y, y ∈ years a ∪ years b → valid_year y) →
  (3 ≤ fuel)%nat →
  ∃ st' s a' b' la' lb',
    add fuel st i (OCal j) = Ok (length st, (st' ++ [s])%list)
    ∧ length st' = length st
    ∧ (∀ x, x ≠ i → x ≠ j → st' !! x = st !! x)
    ∧ st' !! i = Some a' ∧ st' !! j = Some b'
    ∧ populated_for la' a' ∧ populated_for lb' b'
    ∧ (∀ y, y ∈ la' ↔ y ∈ years a ∪ years b)
    ∧ (∀ y, y ∈ lb' ↔ y ∈ years a ∪ years b)
    ∧ observed a' = observed a ∧ observed b' = observed b
    ∧ years a' = (if expand a then years a ∪ years b else years a)
    ∧ years b' = (if expand b then years a ∪ years b else years b)
    ∧ cls s = HolidaySumC ∧ holidays s = [i; j]
    ∧ years s = years a ∪ years b
    ∧ expand s = expand a || expand b
    ∧ observed s = observed a || observed b
    ∧ country s = Some (PStr "CO")
    ∧ ∀ k, is_Some (data s !! k) ↔
           is_Some (data a' !! k) ∨ is_Some (data b' !! k).
Proof.
  intros Hi Hj Hij Ha Hb Hha Hhb Hca Hcb Hla Hlb HY Hf.
  destruct fuel as [|n]; [lia|].
  set (Y := years a ∪ years b).
  set (pr := if truthy (prov a) && truthy (prov b)
                && negb (bool_decide (prov a = prov b))
             then PList (as_list (prov a) ++ as_list (prov b))
             else py_or (prov a) (prov b)).
  set (w0 := World (Calendar ∅ Y (expand a || expand b) (observed a || observed b)
                             pr PNone (Some (PStr "CO")) HolidaySumC [i; j]) st).
  destruct (sum_populate_loop n i j (elements Y) w0 a b la lb)
    as (w' & a' & b' & Hfor & Hself & Hi' & Hj' & Hlen & Hoth & Ha' & Hb'
        & Haa & Hbb & Hya & Hyb & Hsub & Hsup); try done.
  { lia. }
  { apply Forall_forall. intros y Hy%elem_of_elements. by apply HY. }
  { simpl. intros _ z [Hz|[Hz|Hz]].
    - apply elem_of_union_l. by apply Hla.
    - apply elem_of_union_r. by apply Hlb.
    - by apply elem_of_elements in Hz. }
  { simpl. intros k Hk. rewrite lookup_empty in Hk. by destruct Hk. }
  assert (add (S n) st i (OCal j) = Ok (length st, (objs w' ++ [self w'])%list))
    as Hadd.
  { rewrite (add_CO (S n) st i j a b) by done. unfold new.
    rewrite (HolidaySum_init_eq (S n) i j (PStr "CO") _ _ _ _ st a b) by done.
    fold Y. fold pr. fold w0. rewrite Hfor. simpl rbind. by rewrite Hlen. }
  pose proof Haa as (Hea & Hoa & _). pose proof Hbb as (Heb & Hob & _).
  exists (objs w'), (self w'), a', b', (la ++ elements Y)%list, (lb ++ elements Y)%list.
  split; [done|]. split; [done|]. split; [done|]. split; [done|]. split; [done|].
  split; [done|]. split; [done|]. split.
  { intros y. rewrite elem_of_app, elem_of_elements. split; [|tauto].
    intros [Hy|Hy]; [|done]. apply elem_of_union_l. by apply Hla. }
  split.
  { intros y. rewrite elem_of_app, elem_of_elements. split; [|tauto].
    intros [Hy|Hy]; [|done]. apply elem_of_union_r. by apply Hlb. }
  split; [done|]. split; [done|]. split.
  { rewrite Hya. destruct (expand a); [|done]. rewrite list_to_set_elements_L.
    unfold Y. set_solver. }
  split.
  { rewrite Hyb. destruct (expand b); [|done]. rewrite list_to_set_elements_L.
    unfold Y. set_solver. }
  rewrite Hself. simpl. repeat (split; [done|]).
  intros k. split; [apply Hsub|].
  destruct (decide (elements Y = [])) as [HE|HE]; [|by apply Hsup].
  apply elements_empty_inv in HE. apply leibniz_equiv in HE.
  intros Hk. exfalso.
  destruct Ha' as (_ & Hda & _), Hb' as (_ & Hdb & _).
  rewrite Hda, Hdb in Hk.
  destruct Hk as [Hk%populated_present|Hk%populated_present];
    rewrite elem_of_app, elem_of_elements in Hk.
  - destruct Hk as [Hk%Hla|Hk]; [|set_solver].
    assert (k' : Date.year k ∈ Y) by (unfold Y; set_solver). set_solver.
  - destruct Hk as [Hk%Hlb|Hk]; [|set_solver].
    assert (k' : Date.year k ∈ Y) by (unfold Y; set_solver). set_solver.
Qed.

Lemma add_Colombia_witness :
  ∃ st' s a' b' la' lb',
    add 3 [cal_2020; cal_2021] 0 (OCal 1)
      = Ok (length [cal_2020; cal_2021], (st' ++ [s])%list)
    ∧ length st' = length [cal_2020; cal_2021]
    ∧ (∀ x, x ≠ 0%nat → x ≠ 1%nat → st' !! x = [cal_2020; cal_2021] !! x)
    ∧ st' !! 0%nat = Some a' ∧ st' !! 1%nat = Some b'
    ∧ populated_for la' a' ∧ populated_for lb' b'
    ∧ (∀ y, y ∈ la' ↔ y ∈ years cal_2020 ∪ years cal_2021)
    ∧ (∀ y, y ∈ lb' ↔ y ∈ years cal_2020 ∪ years cal_2021)
    ∧ observed a' = observed cal_2020 ∧ observed b' = observed cal_2021
    ∧ years a' = (if expand cal_2020 then years cal_2020 ∪ years cal_2021
                  else years cal_2020)
    ∧ years b' = (if expand cal_2021 then years cal_2020 ∪ years cal_2021
                  else years cal_2021)
    ∧ cls s = HolidaySumC ∧ holidays s = [0; 1]%nat
    ∧ years s = years cal_2020 ∪ years cal_2021
    ∧ expand s = expand cal_2020 || expand cal_2021
    ∧ observed s = observed cal_2020 || observed cal_2021
    ∧ country s = Some (PStr "CO")
    ∧ ∀ k, is_Some (data s !! k) ↔
           is_Some (data a' !! k) ∨ is_Some (data b' !! k).
Proof.
  apply (add_Colombia 3 [cal_2020; cal_2021] 0 1 cal_2020 cal_2021 [2020] [2021]).
  - reflexivity.
  - reflexivity.
  - lia.
  - split; [reflexivity|]. split; [reflexivity|].
    repeat constructor; unfold Date.MINYEAR, Date.MAXYEAR; lia.
  - split; [reflexivity|]. split; [reflexivity|].
    repeat constructor; unfold Date.MINYEAR, Date.MAXYEAR; lia.
  - reflexivity.
  - reflexivity.
  - reflexivity.
  - reflexivity.
  - simpl. intros y ->%list_elem_of_singleton. by apply elem_of_singleton.
  - simpl. intros y ->%list_elem_of_singleton. by apply elem_of_singleton.
  - simpl. intros y [->%elem_of_singleton| ->%elem_of_singleton]%elem_of_union;
      unfold valid_year, Date.MINYEAR, Date.MAXYEAR; lia.
  - lia.
Defined.


(* ===================================================================== *)
(** * Population on any [Colombia] calendar *)
(* ===================================================================== *)

Lemma inserts_present l d k v : In (k, v) l → is_Some (inserts l d !! k).
Proof.
  revert d. induction l as [|[k' v'] l IH]; intros d Hin; [done|].
  rewrite inserts_cons. destruct Hin as [[= -> ->]|Hin]; [|by apply IH].
  assert (is_Some (insert1 k v d !! k)) as [e He].
  { unfold insert1. rewrite lookup_insert_eq. done. }
  destruct (inserts_keeps l _ k e e He (occurs_refl e)) as (e' & -> & _).
  done.
Qed.

Lemma inserts_present_keeps l d k : is_Some (d !! k) → is_Some (inserts l d !! k).
Proof.
  intros [e He].
  destruct (inserts_keeps l _ k e e He (occurs_refl e)) as (e' & -> & _).
  done.
Qed.

(** X23. [Colombia._populate(year)], on any [Colombia] calendar and for
    any year [date] accepts, returns and changes only entries of dates
    of that year: whatever is stored under a date of another year stays
    as it is; the year is recorded in [years] when [expand] is set; no
    other attribute changes. *)
Theorem Colombia_populate_year fuel y w :
  cls (self w) = ColombiaC → valid_year y → (2 ≤ fuel)%nat →
  ∃ w', populate fuel y w = Ok (tt, w')
    ∧ (∀ k, Date.year k ≠ y → data (self w') !! k = data (self w) !! k)
    ∧ (∀ k, is_Some (data (self w') !! k) →
            is_Some (data (self w) !! k) ∨ Date.year k = y)
    ∧ years (self w') = (if expand (self w) then {[y]} ∪ years (self w)
                         else years (self w))
    ∧ observed (self w') = observed (self w)
    ∧ expand (self w') = expand (self w)
    ∧ objs w' = objs w.
Proof.
  intros Hc Hy Hf.
  pose proof (populate_Colombia fuel y w Hc Hy Hf) as Hp.
  eexists. split; [exact Hp|].
  assert (∀ k, Date.year k ≠ y →
            ∀ d, inserts (Colombia_entries (observed (self w)) y) d !! k = d !! k)
    as Hother.
  { intros k Hk d. apply inserts_lookup_other.
    intros v Hin. by apply entries_year in Hin. }
  set (w' := if expand (self w) && _ then _ else _).
  assert (∀ k, Date.year k ≠ y → data (self w') !! k = data (self w) !! k) as Hk.
  { intros k Hky. subst w'. destruct (expand (self w) && _); simpl;
      by rewrite !Hother. }
  split; [done|]. split.
  { intros k Hs. destruct (decide (Date.year k = y)) as [|Hne]; [by right|].
    left. by rewrite <- Hk. }
  subst w'. destruct (expand (self w)) eqn:He; simpl.
  - destruct (bool_decide (y ∈ years (self w))) eqn:Hin; simpl; rewrite ?He.
    + apply bool_decide_eq_true in Hin. repeat split; try done. set_solver.
    + done.
  - by rewrite He.
Qed.

Lemma Colombia_populate_year_witness :
  ∃ w', populate 2 2024 one_observed_Colombia = Ok (tt, w')
    ∧ (∀ k, Date.year k ≠ 2024 →
            data (self w') !! k = data (self one_observed_Colombia) !! k)
    ∧ (∀ k, is_Some (data (self w') !! k) →
            is_Some (data (self one_observed_Colombia) !! k) ∨ Date.year k = 2024)
    ∧ years (self w') = (if expand (self one_observed_Colombia)
                         then {[2024]} ∪ years (self one_observed_Colombia)
                         else years (self one_observed_Colombia))
    ∧ observed (self w') = observed (self one_observed_Colombia)
    ∧ expand (self w') = expand (self one_observed_Colombia)
    ∧ objs w' = objs one_observed_Colombia.
Proof.
  apply (Colombia_populate_year 2 2024 one_observed_Colombia).
  - reflexivity.
  - unfold valid_year, Date.MINYEAR, Date.MAXYEAR. lia.
  - lia.
Defined.

(** C8, as the claim has it, fails.  On [CO(years=2011)], after
    [h.pop(date(2011, 7, 4))] and [h[date(2011, 7, 4)] = "San Pedro"],
    [_populate(2011)] run once and run twice leave different mappings:
    the first run keeps ["San Pedro"] in place of the label of Saint
    Peter and Saint Paul, of which it is a part, and puts the label of
    the Sacred Heart in front; the second run then finds neither text
    in the other and stores the label of Saint Peter and Saint Paul as
    well. *)
Lemma populate_not_idempotent :
  ∃ w0 w w1 w2,
    Colombia_new 2 [2011] true true PNone PNone [] = Ok w0
    ∧ (pop (populate 2) (Date.ymd2ord 2011 JUL 4) None ;;
       setitem (populate 2) (Date.ymd2ord 2011 JUL 4) "San Pedro") w0 = Ok (tt, w)
    ∧ populate 2 2011 w = Ok (tt, w1)
    ∧ populate 2 2011 w1 = Ok (tt, w2)
    ∧ data (self w1) !! Date.ymd2ord 2011 JUL 4
      = Some "Sagrado Corazón [Sacred Heart](Observed), San Pedro"
    ∧ data (self w2) !! Date.ymd2ord 2011 JUL 4
      = Some ("San Pedro y San Pablo [Saint Peter and Saint Paul](Observed), "
              +:+ "Sagrado Corazón [Sacred Heart](Observed), San Pedro")
    ∧ data (self w1) ≠ data (self w2).
Proof.
  eexists _, _, _, _. split.
  { vm_compute. reflexivity. }
  split.
  { vm_compute. reflexivity. }
  split.
  { vm_compute. reflexivity. }
  split.
  { vm_compute. reflexivity. }
  split.
  { vm_compute. reflexivity. }
  split.
  { vm_compute. reflexivity. }
  intros H. apply (f_equal (λ d, d !! Date.ymd2ord 2011 JUL 4)) in H.
  vm_compute in H. discriminate H.
Qed.

(** X7. [pop] removes the key and nothing else.  After
    [self.pop(key, default)] has returned, the key is not in the
    calendar.  [key in self] is then false and [self.pop(key, x)] gives
    [x], both leaving the object as it is; [self[key]] and
    [self.pop(key)] raise [KeyError], and the normalisation of the key,
    the one step of theirs that can change the object, returns it
    unchanged before they raise.  The entries under other keys are
    still there. *)
Theorem pop_removes fuel key dflt w v w1 :
  pop (populate fuel) key dflt w = Ok (v, w1) →
  data (self w1) !! key = None
  ∧ contains (populate fuel) key w1 = Ok (false, w1)
  ∧ keytransform (populate fuel) key w1 = Ok (key, w1)
  ∧ getitem (populate fuel) key w1 = Raise KeyError
  ∧ pop (populate fuel) key None w1 = Raise KeyError
  ∧ (∀ x, pop (populate fuel) key (Some x) w1 = Ok (x, w1))
  ∧ (∀ k e, k ≠ key → data (self w) !! k = Some e →
       ∃ a, data (self w1) !! k = Some (a +:+ e)).
Proof.
  pose proof (populate_ext fuel) as He.
  intros H. unfold pop in H. apply bind_Ok in H as (k & w0 & H1 & H2).
  pose proof (keytransform_grows _ (populate_grows fuel) _ _ _ _ H1) as Hg.
  apply keytransform_Ok in H1 as [-> Hs]; [|done].
  apply bind_Ok in H2 as (d & w2 & [= <- <-] & H2).
  assert (settled w1 key ∧ data (self w1) !! key = None
          ∧ ∀ k, k ≠ key → data (self w1) !! k = data (self w0) !! k)
    as (Hs1 & Hn & Ho).
  { destruct (data (self w0) !! key) as [e|] eqn:Ee.
    - cbv [bind modify ret] in H2. injection H2 as <- <-. simpl.
      split; [done|]. split; [apply lookup_delete_eq|].
      intros k Hk. by apply lookup_delete_ne.
    - destruct dflt as [x|]; [|done]. cbv [ret] in H2. by injection H2 as <- <-. }
  split; [done|].
  rewrite contains_settled, getitem_settled, pop_settled by done.
  rewrite Hn. split; [by rewrite bool_decide_eq_false_2 by by intros []|].
  split; [by apply keytransform_settled|].
  split; [done|]. split; [done|]. split.
  - intros x. by rewrite pop_settled, Hn.
  - intros k e Hk He'. rewrite Ho by done. by apply Hg.
Qed.

Lemma pop_removes_witness :
  data (self (World (set_data (delete 738529) (self one_observed)) [])) !! 738529 = None
  ∧ contains (populate 2) 738529
      (World (set_data (delete 738529) (self one_observed)) [])
    = Ok (false, World (set_data (delete 738529) (self one_observed)) [])
  ∧ keytransform (populate 2) 738529
      (World (set_data (delete 738529) (self one_observed)) [])
    = Ok (738529, World (set_data (delete 738529) (self one_observed)) [])
  ∧ getitem (populate 2) 738529
      (World (set_data (delete 738529) (self one_observed)) []) = Raise KeyError
  ∧ pop (populate 2) 738529 None
      (World (set_data (delete 738529) (self one_observed)) []) = Raise KeyError
  ∧ (∀ x, pop (populate 2) 738529 (Some x)
            (World (set_data (delete 738529) (self one_observed)) [])
          = Ok (x, World (set_data (delete 738529) (self one_observed)) []))
  ∧ (∀ k e, k ≠ 738529 → data (self one_observed) !! k = Some e →
       ∃ a, data (self (World (set_data (delete 738529) (self one_observed)) []))
              !! k = Some (a +:+ e)).
Proof.
  apply (pop_removes 2 738529 None one_observed
           "Día de los Reyes Magos [Epiphany](Observed)").
  vm_compute. reflexivity.
Defined.

(** [__keytransform__] on any [Colombia] calendar: when [expand] is set
    and the year of the key is not recorded, it records the year and
    runs [_populate] for it, which returns; otherwise it does nothing. *)
Lemma keytransform_Colombia_any fuel key w :
  cls (self w) = ColombiaC → Date.valid key → (2 ≤ fuel)%nat →
  ∃ w1, keytransform (populate fuel) key w = Ok (key, w1)
    ∧ (if expand (self w) && negb (bool_decide (Date.year key ∈ years (self w)))
       then populate fuel (Date.year key) (with_year (Date.year key) w)
            = Ok (tt, w1)
            ∧ ∀ k v, In (k, v) (Colombia_entries (observed (self w)) (Date.year key)) →
                     is_Some (data (self w1) !! k)
       else w1 = w)
    ∧ (∀ k, Date.year k ≠ Date.year key →
            data (self w1) !! k = data (self w) !! k)
    ∧ (∀ k, is_Some (data (self w) !! k) → is_Some (data (self w1) !! k))
    ∧ years (self w1) = (if expand (self w) then {[Date.year key]} ∪ years (self w)
                         else years (self w))
    ∧ same_attrs (self w) (self w1) ∧ objs w1 = objs w.
Proof.
  intros Hc Hk Hf. destruct (year_valid key Hk) as [Hy _].
  destruct (decide (settled w key)) as [Hs|Hs].
  - exists w. rewrite keytransform_settled by done. unfold settled in Hs.
    rewrite Hs. split; [done|]. split; [done|]. split; [done|]. split; [done|].
    split; [|split; [apply same_attrs_refl|done]].
    destruct (expand (self w)); [|done]. simpl in Hs.
    apply negb_false_iff, bool_decide_eq_true in Hs. set_solver.
  - rewrite keytransform_expand by done.
    assert (settled (with_year (Date.year key) w) key) as Hs'
      by apply settled_with_year.
    pose proof (populate_Colombia fuel (Date.year key)
                  (with_year (Date.year key) w) Hc Hy Hf) as Hp.
    unfold settled in Hs'. rewrite Hs' in Hp. rewrite Hp.
    eexists. split; [done|]. unfold settled in Hs.
    apply not_false_iff_true in Hs. rewrite Hs.
    apply andb_true_iff in Hs as [He Hn]. cbn iota. simpl self. simpl objs.
    split.
    { split; [done|]. intros k v Hin. simpl. by eapply inserts_present. }
    split.
    { intros k Hne. simpl. apply inserts_lookup_other.
      intros v Hin. by apply entries_year in Hin. }
    split.
    { intros k Hsome. simpl. by apply inserts_present_keeps. }
    simpl. rewrite He. split; [done|]. split; [|done].
    repeat split; try done. set_solver.
Qed.

(** X14. A range query on a [Colombia] calendar, with valid bounds and a
    step that is not zero, always returns.  It normalises the two bounds
    in turn, and for each of them, when [expand] is set and the year of
    the bound is not recorded, it runs [_populate] for that year, after
    which every date [_populate] labels in that year is in the calendar;
    when [expand] is not set, or the year is recorded, it does nothing
    for that bound.  No other year is populated: what is stored under a
    date of another year is as before, so of the years strictly between
    the bounds the list holds only the dates that were in the calendar
    already.  The list is the dates of the calendar so reached among
    those the step visits. *)
Theorem getitem_slice_Colombia fuel start stop step n w :
  cls (self w) = ColombiaC → (2 ≤ fuel)%nat →
  Date.valid start → Date.valid stop → step_value step = Some n → n ≠ 0 →
  ∃ l w1 w2,
    getitem_slice (populate fuel) (Some start) (Some stop) step w = Ok (l, w2)
    ∧ l = keys_along (data (self w2)) start
            (py_range0 (stop - start) (directed_step (stop - start) n))
    ∧ (if expand (self w) && negb (bool_decide (Date.year start ∈ years (self w)))
       then populate fuel (Date.year start) (with_year (Date.year start) w)
            = Ok (tt, w1)
       else w1 = w)
    ∧ (if expand (self w1) && negb (bool_decide (Date.year stop ∈ years (self w1)))
       then populate fuel (Date.year stop) (with_year (Date.year stop) w1)
            = Ok (tt, w2)
       else w2 = w1)
    ∧ (expand (self w) = true →
       ∀ y, (y = Date.year start ∨ y = Date.year stop) → y ∉ years (self w) →
       ∀ k v, In (k, v) (Colombia_entries (observed (self w)) y) →
              is_Some (data (self w2) !! k))
    ∧ years (self w2) =
        (if expand (self w)
         then {[Date.year start; Date.year stop]} ∪ years (self w)
         else years (self w))
    ∧ (∀ k, Date.year k ≠ Date.year start → Date.year k ≠ Date.year stop →
            data (self w2) !! k = data (self w) !! k)
    ∧ (∀ d, d ∈ l →
         is_Some (data (self w2) !! d)
         ∧ (is_Some (data (self w) !! d)
            ∨ Date.year d = Date.year start ∨ Date.year d = Date.year stop)).
Proof.
  intros Hc Hf Hstart Hstop Hstep Hn.
  rewrite (getitem_slice_eq _ start stop step n) by done.
  destruct (keytransform_Colombia_any fuel start w Hc Hstart Hf)
    as (w1 & H1 & Hpop1 & Hoth1 & Hkeep1 & Hyears1 & Hattrs1 & Hobjs1).
  pose proof Hattrs1 as (He1 & Ho1 & _ & _ & _ & Hc1 & _).
  destruct (keytransform_Colombia_any fuel stop w1 ltac:(congruence) Hstop Hf)
    as (w2 & H2 & Hpop2 & Hoth2 & Hkeep2 & Hyears2 & Hattrs2 & Hobjs2).
  unfold bind. rewrite H1, H2. eexists _, w1, w2. split; [done|]. split; [done|].
  assert (∀ k, Date.year k ≠ Date.year start → Date.year k ≠ Date.year stop →
            data (self w2) !! k = data (self w) !! k) as Hother.
  { intros k Hk1 Hk2. by rewrite Hoth2, Hoth1. }
  split.
  { destruct (expand (self w) && _); [by destruct Hpop1|done]. }
  split.
  { destruct (expand (self w1) && _); [by destruct Hpop2|done]. }
  split.
  { intros He y Hy Hny k v Hin.
    destruct (decide (y = Date.year start)) as [->|Hne].
    - apply Hkeep2. rewrite He in Hpop1.
      rewrite bool_decide_eq_false_2 in Hpop1 by done. simpl in Hpop1.
      destruct Hpop1 as [_ Hpres]. by eapply Hpres.
    - destruct Hy as [?| ->]; [done|].
      rewrite He1, He in Hpop2.
      rewrite bool_decide_eq_false_2 in Hpop2.
      2:{ rewrite Hyears1, He. set_solver. }
      simpl in Hpop2. destruct Hpop2 as [_ Hpres].
      rewrite Ho1 in Hpres. by eapply Hpres. }
  split.
  { rewrite Hyears2, Hyears1, He1. destruct (expand (self w)); [|done].
    set_solver. }
  split; [done|].
  intros d [_ Hs]%elem_of_keys_along. split; [done|].
  destruct (decide (Date.year d = Date.year start)) as [|H1']; [tauto|].
  destruct (decide (Date.year d = Date.year stop)) as [|H2']; [tauto|].
  left. by rewrite <- Hother.
Qed.

Lemma getitem_slice_Colombia_witness :
  ∃ l w1 w2,
    getitem_slice (populate 2) (Some (Date.ymd2ord 2020 DEC 1))
      (Some (Date.ymd2ord 2023 FEB 1)) StepNone one_observed_Colombia
      = Ok (l, w2)
    ∧ l = keys_along (data (self w2)) (Date.ymd2ord 2020 DEC 1)
            (py_range0 (Date.ymd2ord 2023 FEB 1 - Date.ymd2ord 2020 DEC 1)
               (directed_step
                  (Date.ymd2ord 2023 FEB 1 - Date.ymd2ord 2020 DEC 1) 1))
    ∧ (if expand (self one_observed_Colombia)
          && negb (bool_decide (Date.year (Date.ymd2ord 2020 DEC 1)
                                ∈ years (self one_observed_Colombia)))
       then populate 2 (Date.year (Date.ymd2ord 2020 DEC 1))
              (with_year (Date.year (Date.ymd2ord 2020 DEC 1))
                 one_observed_Colombia)
            = Ok (tt, w1)
       else w1 = one_observed_Colombia)
    ∧ (if expand (self w1)
          && negb (bool_decide (Date.year (Date.ymd2ord 2023 FEB 1)
                                ∈ years (self w1)))
       then populate 2 (Date.year (Date.ymd2ord 2023 FEB 1))
              (with_year (Date.year (Date.ymd2ord 2023 FEB 1)) w1)
            = Ok (tt, w2)
       else w2 = w1)
    ∧ (expand (self one_observed_Colombia) = true →
       ∀ y, (y = Date.year (Date.ymd2ord 2020 DEC 1)
             ∨ y = Date.year (Date.ymd2ord 2023 FEB 1)) →
       y ∉ years (self one_observed_Colombia) →
       ∀ k v, In (k, v) (Colombia_entries
                           (observed (self one_observed_Colombia)) y) →
              is_Some (data (self w2) !! k))
    ∧ years (self w2) =
        (if expand (self one_observed_Colombia)
         then {[Date.year (Date.ymd2ord 2020 DEC 1);
                Date.year (Date.ymd2ord 2023 FEB 1)]}
              ∪ years (self one_observed_Colombia)
         else years (self one_observed_Colombia))
    ∧ (∀ k, Date.year k ≠ Date.year (Date.ymd2ord 2020 DEC 1) →
            Date.year k ≠ Date.year (Date.ymd2ord 2023 FEB 1) →
            data (self w2) !! k = data (self one_observed_Colombia) !! k)
    ∧ (∀ d, d ∈ l →
         is_Some (data (self w2) !! d)
         ∧ (is_Some (data (self one_observed_Colombia) !! d)
            ∨ Date.year d = Date.year (Date.ymd2ord 2020 DEC 1)
            ∨ Date.year d = Date.year (Date.ymd2ord 2023 FEB 1))).
Proof.
  apply (getitem_slice_Colombia 2 (Date.ymd2ord 2020 DEC 1)
           (Date.ymd2ord 2023 FEB 1) StepNone 1 one_observed_Colombia).
  - reflexivity.
  - lia.
  - vm_compute. split; discriminate.
  - vm_compute. split; discriminate.
  - reflexivity.
  - lia.
Defined.
